(** * mcp_station: the Connection Manager and the Streaming Chat Orchestrator

    A shallow embedding of [backend/app.py] and [backend/database.py].

    Conventions of the embedding
    - A Python [str] is a sequence of Unicode code points, so it is modelled
      as [list N]; [len] counts code points, as Python's [len] does.
    - A Python [dict] keeps insertion order, and the code iterates over
      dicts ([connections.items()], [tool_calls_buffer.values()]), so a dict
      is an association list with Python's update discipline.
    - Code that can raise is written in an exception monad; [try/except]
      is [try_except].
    - Collaborators that live outside the repository (the MCP SDK, the two
      provider SDKs, [json], [shlex], the file system, [uuid]) are record
      fields or function arguments: every theorem quantifies over them. *)

From Stdlib Require Import List Arith NArith String Ascii Bool Lia.
From Stdlib Require Import Sorted Permutation.
Import ListNotations.
Local Open Scope N_scope.

(* ------------------------------------------------------------------ *)
(** ** Python values *)

Module Py.

Definition char := N.
Definition str := list char.

(** An ASCII literal of the source, as code points. *)
Definition lit (s : string) : str := map N_of_ascii (list_ascii_of_string s).

(** [len(s)] *)
Definition len {A} (s : list A) : N := N.of_nat (List.length s).

(** [s[:n]] for a non-negative [n] *)
Definition slice_to {A} (n : N) (s : list A) : list A := firstn (N.to_nat n) s.

Fixpoint str_eqb (a b : str) : bool :=
  match a, b with
  | [], [] => true
  | x :: a', y :: b' => N.eqb x y && str_eqb a' b'
  | _, _ => false
  end.

(** [s.startswith(p)] *)
Fixpoint startswith (s p : str) {struct p} : bool :=
  match p, s with
  | [], _ => true
  | c :: p', d :: s' => N.eqb c d && startswith s' p'
  | _ :: _, [] => false
  end.

(** [s.endswith(p)] *)
Definition endswith (s p : str) : bool := startswith (rev s) (rev p).

(** [p in s] *)
Fixpoint contains (p s : str) : bool :=
  startswith s p ||
  match s with
  | [] => false
  | _ :: s' => contains p s'
  end.

(** [sep.join(parts)] *)
Fixpoint join (sep : str) (parts : list str) : str :=
  match parts with
  | [] => []
  | [p] => p
  | p :: rest => p ++ sep ++ join sep rest
  end.

(** [c * n] for a one-character string *)
Definition times (c : char) (n : nat) : str := repeat c n.

(** [str(n)] for a non-negative integer *)
Fixpoint uint_digits (d : Decimal.uint) : str :=
  match d with
  | Decimal.Nil => []
  | Decimal.D0 d => 48 :: uint_digits d
  | Decimal.D1 d => 49 :: uint_digits d
  | Decimal.D2 d => 50 :: uint_digits d
  | Decimal.D3 d => 51 :: uint_digits d
  | Decimal.D4 d => 52 :: uint_digits d
  | Decimal.D5 d => 53 :: uint_digits d
  | Decimal.D6 d => 54 :: uint_digits d
  | Decimal.D7 d => 55 :: uint_digits d
  | Decimal.D8 d => 56 :: uint_digits d
  | Decimal.D9 d => 57 :: uint_digits d
  end.

Definition str_of_N (n : N) : str := uint_digits (N.to_uint n).

(** The [,] format option: a comma between groups of three digits,
    counted from the right. The argument is the digit string reversed. *)
Fixpoint group3 (rev_digits : str) : str :=
  match rev_digits with
  | a :: b :: c :: ((_ :: _) as rest) => a :: b :: c :: 44 :: group3 rest
  | l => l
  end.

(** [f"{n:,}"] *)
Definition format_thousands (n : N) : str := rev (group3 (rev (str_of_N n))).

(** Truth value of a string: [if s:] *)
Definition truthy (s : str) : bool :=
  match s with [] => false | _ => true end.

(** *** Insertion-ordered dictionaries *)

Section Dict.
Context {K V : Type} (keq : K -> K -> bool).

Definition dict := list (K * V).

(** [d.get(k)] *)
Fixpoint dict_get (d : dict) (k : K) : option V :=
  match d with
  | [] => None
  | (k', v) :: d' => if keq k k' then Some v else dict_get d' k
  end.

(** [d[k] = v]: an existing key keeps its position, a new one goes last *)
Fixpoint dict_set (d : dict) (k : K) (v : V) : dict :=
  match d with
  | [] => [(k, v)]
  | (k', v') :: d' => if keq k k' then (k', v) :: d' else (k', v') :: dict_set d' k v
  end.

(** [del d[k]] for a key that is present *)
Fixpoint dict_del (d : dict) (k : K) : dict :=
  match d with
  | [] => []
  | (k', v') :: d' => if keq k k' then d' else (k', v') :: dict_del d' k
  end.

(** [k in d] *)
Definition dict_mem (d : dict) (k : K) : bool :=
  match dict_get d k with Some _ => true | None => false end.

(** [d.values()] *)
Definition dict_values (d : dict) : list V := map snd d.
End Dict.

(** *** JSON-like values (tool arguments, schemas, structured results) *)

#[warnings="-register-all"] Inductive json :=
| JNull
| JBool (b : bool)
| JNum (n : N)
| JStr (s : str)
| JArr (l : list json)
| JObj (fields : list (str * json)).

(** [isinstance(v, dict)] *)
Definition is_dict (v : json) : bool :=
  match v with JObj _ => true | _ => false end.

(** Truth value of a JSON-like value *)
Definition json_truthy (v : json) : bool :=
  match v with
  | JNull => false
  | JBool b => b
  | JNum n => negb (N.eqb n 0)
  | JStr s => truthy s
  | JArr l => match l with [] => false | _ => true end
  | JObj f => match f with [] => false | _ => true end
  end.

(** *** Exceptions *)

Inductive exn :=
| HTTPException (status : N) (detail : str)
| ValueError (msg : str)
| TypeError (msg : str)
| FileNotFoundError (msg : str)
| AttributeError (msg : str)
| TimeoutError
| OtherError (msg : str).

Definition is_http (e : exn) : bool :=
  match e with HTTPException _ _ => true | _ => false end.

Inductive result (A : Type) :=
| Ok (a : A)
| Raise (e : exn).
Arguments Ok {A} a.
Arguments Raise {A} e.

(** *** Computations with state that can raise *)

Definition M (S A : Type) : Type := S -> result A * S.

Definition ret {S A} (a : A) : M S A := fun s => (Ok a, s).

Definition raise {S A} (e : exn) : M S A := fun s => (Raise e, s).

Definition bind {S A B} (m : M S A) (k : A -> M S B) : M S B :=
  fun s =>
    match m s with
    | (Ok a, s') => k a s'
    | (Raise e, s') => (Raise e, s')
    end.

(** [try: body except Exception as e: handler(e)] *)
Definition try_except {S A} (body : M S A) (handler : exn -> M S A) : M S A :=
  fun s =>
    match body s with
    | (Ok a, s') => (Ok a, s')
    | (Raise e, s') => handler e s'
    end.

Definition get_state {S} : M S S := fun s => (Ok s, s).

Definition modify {S} (f : S -> S) : M S unit := fun s => (Ok tt, f s).

(** Lift a result computed without touching the state *)
Definition lift {S A} (r : result A) : M S A := fun s => (r, s).

End Py.

Import Py.

Declare Scope py_scope.
Delimit Scope py_scope with py.
Notation "a +++ b" := (@app N a b) (at level 60, right associativity) : py_scope.
Notation "x <- m ;; k" := (bind m (fun x => k))
  (at level 61, m at next level, right associativity) : py_scope.
Notation "m ;;; k" := (bind m (fun _ => k))
  (at level 61, right associativity) : py_scope.
Local Open Scope py_scope.

(* ------------------------------------------------------------------ *)
(** ** The MCP SDK's data, as the manager reads it *)

Module Mcp.

(** [mcp.types.Tool]: the fields [get_all_tools] reads *)
Record Tool := {
  tool_name : str;
  tool_description : option str;
  tool_inputSchema : json
}.

(** The content items of a [CallToolResult] *)
Inductive Content :=
| TextContent (text : str)
| ImageContent (mimeType : str)
| EmbeddedResource (uri : str)
| OtherContent (as_str : str).

Record CallToolResult := {
  isError : bool;
  content : list Content;
  structuredContent : option json
}.

End Mcp.

Import Mcp.

(* ------------------------------------------------------------------ *)
(** ** ConnectionManager: the catalog projection *)

Module Catalog.

Definition is_lower (c : char) : bool := (97 <=? c) && (c <=? 122).
Definition is_upper (c : char) : bool := (65 <=? c) && (c <=? 90).
Definition is_digit (c : char) : bool := (48 <=? c) && (c <=? 57).
Definition underscore : char := 95.

(** The character class [[a-zA-Z0-9_]] *)
Definition is_word (c : char) : bool :=
  is_lower c || is_upper c || is_digit c || N.eqb c underscore.

(** [str.isalpha()] on a character of the class above, where it holds of
    the ASCII letters only *)
Definition isalpha (c : char) : bool := is_lower c || is_upper c.

(** [re.sub(r'[^a-zA-Z0-9_]', '_', raw_name)] *)
Definition re_sub_nonword (raw_name : str) : str :=
  map (fun c => if is_word c then c else underscore) raw_name.

(** [f"{conn_id}__{tool.name}"] *)
Definition raw_name (conn_id name : str) : str :=
  conn_id +++ lit "__" +++ name.

(** The two statements of the inner loop of [get_all_tools] that come
    before the cut: the substitution and the prefix. [raw_name] always
    holds the two underscores, so [sanitized_name[0]] exists; the empty
    case is unreachable and kept only so that the function is total. *)
Definition prefixed (raw : str) : str :=
  let sanitized_name := re_sub_nonword raw in
  match sanitized_name with
  | c :: _ => if negb (isalpha c) then lit "action_" +++ sanitized_name
              else sanitized_name
  | [] => sanitized_name
  end.

(** [sanitized_name = sanitized_name[:63]] *)
Definition sanitize (raw : str) : str := slice_to 63 (prefixed raw).

Definition sanitized_name (conn_id name : str) : str :=
  sanitize (raw_name conn_id name).

Record ToolInfo := {
  connection_id : str;
  real_name : str
}.

Record ToolDef := {
  name : str;
  description : str;
  parameters : json
}.

Definition tool_def (conn_id : str) (tool : Tool) : ToolDef :=
  {| name := sanitized_name conn_id (tool_name tool);
     description :=
       match tool_description tool with
       | Some d => if truthy d then slice_to 1024 d else lit "No description"
       | None => lit "No description"
       end;
     parameters :=
       if is_dict (tool_inputSchema tool) then tool_inputSchema tool
       else JObj [] |}.

Definition tool_map_t := @dict str ToolInfo.

(** One iteration of the inner loop: [tool_map[...] = ...] then
    [all_tools.append(tool_def)] *)
Definition add_tool (conn_id : str) (acc : list ToolDef * tool_map_t) (tool : Tool)
  : list ToolDef * tool_map_t :=
  let '(all_tools, tool_map) := acc in
  let d := tool_def conn_id tool in
  (all_tools ++ [d],
   dict_set str_eqb tool_map (name d)
       {| connection_id := conn_id; real_name := tool_name tool |}).

(** [get_all_tools], over the pairs [(conn_id, conn.tools)] in the order of
    [self.connections.items()] *)
Definition get_all_tools_from (conns : list (str * list Tool))
  : list ToolDef * tool_map_t :=
  fold_left
    (fun acc '(conn_id, tools) => fold_left (add_tool conn_id) tools acc)
    conns ([], []).

(** The pattern [[A-Za-z][A-Za-z0-9_]{0,62}], as a decision procedure *)
Definition matches_name_pattern (s : str) : bool :=
  match s with
  | [] => false
  | c :: rest =>
      isalpha c && forallb is_word rest && (len s <=? 63)
  end.

End Catalog.

(* ------------------------------------------------------------------ *)
(** ** ConnectionManager: connect, disconnect, execute_tool *)

Module Manager.

Import Catalog.

Inductive Transport := Stdio | Sse | Http.

Definition handle := nat.

(** [StdioServerParameters(command=..., args=..., env=...)] *)
Record StdioServerParameters := {
  command : str;
  args : list str;
  env : @dict str str
}.

(** What an entry of an [AsyncExitStack] holds open. A session reads and
    writes on the channel of the transport resource it was built from. *)
Inductive Resource :=
| RStdio (params : StdioServerParameters)
| RSse (url : str)
| RHttp (url : str)
| RSession (channel : handle).

(** The part of the outside world that [connect] acts on: every context
    the code tried to enter, latest first (a handle is the position of the
    attempt), and the resources that are open. *)
Record World := {
  attempts : list Resource;
  live : list (handle * Resource)
}.

(** The collaborators of the manager *)
Record Env := {
  (* os, os.path, sys, shutil, shlex *)
  cwd : str;
  path_isabs : str -> bool;
  path_join : list str -> str;
  path_basename : str -> str;
  path_dirname : str -> str;
  path_exists : str -> bool;
  path_abspath : str -> str;
  sys_executable : str;
  is_windows : bool;
  os_environ : @dict str str;
  which : str -> option str;
  shlex_split : str -> bool -> result (list str);
  (* the MCP SDK: [None] is success, [Some e] the exception raised *)
  enter_outcome : handle -> Resource -> option exn;
  initialize : handle -> option exn;
  list_tools : handle -> result (list Tool);
  list_resources : handle -> result (list str);
  list_prompts : handle -> result (list str);
  call_tool : handle -> str -> json -> result CallToolResult;
  (* rendering *)
  exn_str : exn -> str;
  json_dumps : json -> str;
  repr_content : list Content -> str
}.

Record MCPConnection := {
  conn_name : str;
  session : handle;
  exit_stack : list handle;
  tools : list Tool;
  resources : list str;
  prompts : list str
}.

Definition registry := @dict str MCPConnection.

(** The state [connect] runs in: the world, the local [exit_stack]
    (latest entered first) and [self.connections] *)
Record Frame := {
  world : World;
  stack : list handle;
  connections : registry
}.

Record Summary := {
  n_tools : N;
  n_resources : N;
  n_prompts : N
}.

Definition MAX_TOOL_RESULT_LENGTH : N := 8000.

(** *** Input normalisation of [connect] (section 1 of its body) *)

Definition is_http_url (target : str) : bool :=
  startswith target (lit "http://") || startswith target (lit "https://").

(** Returns the pair [(type, target)] the rest of the body sees *)
Definition normalize (target type : str) : result (str * str) :=
  if contains (lit "gitmcp.io") target then
    Ok (lit "sse",
        if negb (endswith target (lit "/sse")) then target +++ lit "/sse"
        else target)
  else if endswith target (lit ".py") || negb (is_http_url target) then
    if negb (str_eqb type (lit "stdio") || str_eqb type (lit "sse"))
    then Ok (lit "stdio", target)
    else Ok (type, target)
  else if str_eqb type (lit "http") || str_eqb type (lit "sse") then
    if negb (is_http_url target)
    then Raise (ValueError (lit "Invalid URL for " +++ type +++
                  lit " transport. URL must start with http:// or https://"))
    else Ok (type, target)
  else Ok (type, target).

(** The [if type == "stdio" ... elif ... else] ladder of section 2 *)
Definition transport_of (type : str) : option Transport :=
  if str_eqb type (lit "stdio") then Some Stdio
  else if str_eqb type (lit "sse") then Some Sse
  else if str_eqb type (lit "http") then Some Http
  else None.

(** The transport whose branch [connect] runs for a target and a kind *)
Definition select_transport (target type : str) : result (Transport * str) :=
  match normalize target type with
  | Raise e => Raise e
  | Ok (type', target') =>
      match transport_of type' with
      | Some t => Ok (t, target')
      | None => Raise (ValueError (lit "Unknown connection type: " +++ type'))
      end
  end.

(** *** [_find_script] *)

Definition search_paths (E : Env) (script_name : str) : list (option str) :=
  let cwd := cwd E in
  [ if path_isabs E script_name then Some script_name else None;
    Some (path_join E [cwd; script_name]);
    Some (path_join E [cwd; path_basename E script_name]);
    Some (path_join E [cwd; lit "backend"; script_name]);
    Some (path_join E [path_dirname E cwd; script_name]);
    Some (path_join E [path_dirname E cwd; lit "backend"; script_name]);
    Some (path_basename E script_name) ].

Fixpoint first_existing (E : Env) (paths : list (option str)) : option str :=
  match paths with
  | [] => None
  | Some p :: rest =>
      if truthy p && path_exists E p then Some (path_abspath E p)
      else first_existing E rest
  | None :: rest => first_existing E rest
  end.

Definition _find_script (E : Env) (script_name : str) : result str :=
  match first_existing E (search_paths E script_name) with
  | Some abs_path => Ok abs_path
  | None =>
      Raise (FileNotFoundError
        (lit "Could not find script '" +++ script_name +++ lit "'. " +++
         lit "Current directory: " +++ cwd E +++ lit ". " +++
         lit "Try using the full filename like 'tools_server.py'"))
  end.

(** *** Resolution of the command of the stdio branch *)

Definition find_script_or_400 (E : Env) (script : str) : result str :=
  match _find_script E script with
  | Ok p => Ok p
  | Raise (FileNotFoundError m) => Raise (HTTPException 400 m)
  | Raise e => Raise e
  end.

Definition is_python_name (p : str) : bool :=
  str_eqb p (lit "python") || str_eqb p (lit "python3") ||
  str_eqb p (lit "python.exe").

Definition resolve_command (E : Env) (target : str) : result (str * list str) :=
  if endswith target (lit ".py") then
    match find_script_or_400 E target with
    | Ok script_path => Ok (sys_executable E, [script_path])
    | Raise e => Raise e
    end
  else
    match shlex_split E target (negb (is_windows E)) with
    | Raise (ValueError m) =>
        Raise (HTTPException 400 (lit "Invalid command syntax: " +++ m))
    | Raise e => Raise e
    | Ok [] => Raise (ValueError (lit "Empty command"))
    | Ok (p0 :: rest) =>
        if is_python_name p0 then
          match rest with
          | a0 :: rest' =>
              if endswith a0 (lit ".py") then
                match find_script_or_400 E a0 with
                | Ok p => Ok (sys_executable E, p :: rest')
                | Raise e => Raise e
                end
              else Ok (sys_executable E, rest)
          | [] => Ok (sys_executable E, rest)
          end
        else
          match which E p0 with
          | Some full_cmd_path =>
              Ok (if truthy full_cmd_path then full_cmd_path else p0, rest)
          | None => Ok (p0, rest)
          end
    end.

Definition server_params (E : Env) (target : str) : result StdioServerParameters :=
  match resolve_command E target with
  | Ok (command, args) =>
      Ok {| command := command; args := args;
            env := dict_set str_eqb (os_environ E)
                     (lit "PYTHONUNBUFFERED") (lit "1") |}
  | Raise e => Raise e
  end.

(** *** The exit stack *)

(** [await exit_stack.enter_async_context(cm)]: the attempt is recorded; on
    success the resource is open and pushed on the stack, on failure
    nothing is pushed *)
Definition enter_async_context (E : Env) (r : Resource) : M Frame handle :=
  fun f =>
    let h := List.length (attempts (world f)) in
    match enter_outcome E h r with
    | None =>
        (Ok h, {| world := {| attempts := r :: attempts (world f);
                              live := (h, r) :: live (world f) |};
                  stack := h :: stack f;
                  connections := connections f |})
    | Some e =>
        (Raise e, {| world := {| attempts := r :: attempts (world f);
                                 live := live (world f) |};
                     stack := stack f;
                     connections := connections f |})
    end.

(** Closing one resource *)
Fixpoint release (h : handle) (l : list (handle * Resource))
  : list (handle * Resource) :=
  match l with
  | [] => []
  | (h', r) :: l' => if Nat.eqb h h' then l' else (h', r) :: release h l'
  end.

(** [await exit_stack.aclose()]: every entry is closed, latest first *)
Definition aclose (stack : list handle) (w : World) : World :=
  {| attempts := attempts w;
     live := fold_left (fun l h => release h l) stack (live w) |}.

(** *** [connect] *)

Definition nl : str := [10].

(** Section 2 of the body: the transport branch. In the stdio branch the
    client context is entered at line 285 inside a [try] and again at
    line 294; [read, write] are those of the second entry. The test
    [if not streamable_http_client] of the http branch reads an imported
    function, which is always true as a condition, so it never raises. *)
Definition open_transport (E : Env) (t : Transport) (target : str)
  : M Frame handle :=
  match t with
  | Stdio =>
      params <- lift (server_params E target) ;;
      try_except (enter_async_context E (RStdio params))
        (fun e => raise (HTTPException 500
           (lit "Failed to start server: " +++ exn_str E e +++ nl +++
            lit "Command: " +++ command params +++ lit " " +++
            join (lit " ") (args params)))) ;;;
      enter_async_context E (RStdio params)
  | Sse =>
      try_except (enter_async_context E (RSse target))
        (fun e => raise (HTTPException 500
           (lit "SSE connection failed: " +++ exn_str E e +++ nl +++
            lit "URL: " +++ target)))
  | Http =>
      try_except (enter_async_context E (RHttp target))
        (fun e => raise (HTTPException 500
           (lit "HTTP connection failed: " +++ exn_str E e +++ nl +++
            lit "URL: " +++ target)))
  end.

(** Inside [connect] the name [type] is the parameter, a string: the
    expression [type(e).__name__] of the handler at line 348 calls a
    string and raises [TypeError] before the handler's own [raise]. *)
Definition call_type_parameter : M Frame unit :=
  raise (TypeError (lit "'str' object is not callable")).

(** Section 3 of the body *)
Definition initialize_session (E : Env) (channel : handle) : M Frame handle :=
  try_except
    (session <- enter_async_context E (RSession channel) ;;
     match initialize E session with
     | None => ret session
     | Some TimeoutError =>
         raise (HTTPException 504
           (lit "Connection timeout: Server did not respond within 30 seconds. " +++
            lit "The server may be starting up or not responding to MCP protocol."))
     | Some e => raise e
     end)
    (fun e =>
       if is_http e then raise e
       else
         call_type_parameter ;;;
         raise (HTTPException 500
           (lit "Failed to initialize MCP session: " +++ exn_str E e))).

(** A discovery call that raises leaves the list empty *)
Definition or_empty {A} (r : result (list A)) : list A :=
  match r with Ok l => l | Raise _ => [] end.

Definition register (connection_id : str) (conn : MCPConnection) (f : Frame)
  : Frame :=
  {| world := world f;
     stack := stack f;
     connections := dict_set str_eqb (connections f) connection_id conn |}.

(** The [try] block of [connect] *)
Definition connect_body (E : Env) (connection_id target type : str)
  : M Frame Summary :=
  sel <- lift (select_transport target type) ;;
  channel <- open_transport E (fst sel) (snd sel) ;;
  session <- initialize_session E channel ;;
  let fetched_tools := or_empty (list_tools E session) in
  let fetched_resources := or_empty (list_resources E session) in
  let fetched_prompts := or_empty (list_prompts E session) in
  f <- get_state ;;
  modify (register connection_id
            {| conn_name := connection_id; session := session;
               exit_stack := stack f;
               tools := fetched_tools; resources := fetched_resources;
               prompts := fetched_prompts |}) ;;;
  ret {| n_tools := len fetched_tools;
         n_resources := len fetched_resources;
         n_prompts := len fetched_prompts |}.

(** [await exit_stack.aclose()] on the local stack *)
Definition aclose_local : M Frame unit :=
  modify (fun f => {| world := aclose (stack f) (world f);
                      stack := stack f;
                      connections := connections f |}).

(** [connect] with its [except Exception] clause *)
Definition connect_frame (E : Env) (connection_id target type : str)
  : M Frame Summary :=
  try_except (connect_body E connection_id target type)
    (fun e =>
       aclose_local ;;;
       raise (HTTPException 500 (lit "Connection Failed: " +++ exn_str E e))).

(** [ConnectionManager.connect]: the stack is a fresh local of each call *)
Definition connect (E : Env) (connection_id target type : str)
  : M (World * registry) Summary :=
  fun s =>
    let (r, f) := connect_frame E connection_id target type
                    {| world := fst s; stack := []; connections := snd s |} in
    (r, (world f, connections f)).

(** [ConnectionManager.disconnect] *)
Definition disconnect (connection_id : str) (s : World * registry)
  : World * registry :=
  match dict_get str_eqb (snd s) connection_id with
  | Some conn =>
      (aclose (exit_stack conn) (fst s), dict_del str_eqb (snd s) connection_id)
  | None => s
  end.

(** [ConnectionManager.get_all_tools] *)
Definition get_all_tools (conns : registry) : list ToolDef * tool_map_t :=
  get_all_tools_from (map (fun kv => (fst kv, tools (snd kv))) conns).

(** *** [execute_tool] *)

(** A call [conn.session.call_tool(real_name, arguments=args)] *)
Record Invocation := {
  inv_session : handle;
  inv_tool : str;
  inv_args : json
}.

Definition session_call_tool (E : Env) (s : handle) (real_name : str) (args : json)
  : M (list Invocation) CallToolResult :=
  fun calls =>
    (call_tool E s real_name args,
     calls ++ [{| inv_session := s; inv_tool := real_name; inv_args := args |}]).

Definition render_content (c : Content) : str :=
  match c with
  | TextContent text => text
  | ImageContent mimeType => lit "[Image Returned: " +++ mimeType +++ lit "]"
  | EmbeddedResource uri => lit "[Resource Embedded: " +++ uri +++ lit "]"
  | OtherContent s => s
  end.

Definition output_parts (E : Env) (result : CallToolResult) : list str :=
  (match structuredContent result with
   | Some v => if json_truthy v then [json_dumps E v] else []
   | None => []
   end) ++ map render_content (content result).

Definition rule : str := times 61 60.

Definition warning_sign : str := [9888; 65039].
Definition bar_chart : str := [128202].
Definition light_bulb : str := [128161].
Definition check_mark : str := [9989].
Definition cross_mark : str := [10060].

(** The text appended after the truncated output *)
Definition truncation_banner (original_length : N) : str :=
  nl +++ nl +++
  rule +++ nl +++
  warning_sign +++ lit "  OUTPUT TRUNCATED FOR PERFORMANCE" +++ nl +++
  rule +++ nl +++
  bar_chart +++ lit " Original length: " +++
    format_thousands original_length +++ lit " characters" +++ nl +++
  bar_chart +++ lit " Displayed: " +++
    format_thousands MAX_TOOL_RESULT_LENGTH +++ lit " characters" +++ nl +++
  light_bulb +++ lit " Tip: Ask me to summarize or extract specific parts" +++ nl +++
  rule.

Definition success_marker : str := check_mark +++ lit " Success (No output)".

(** Lines 586-621: join, truncate, and the marker for an empty output *)
Definition shape_output (joined : str) : str :=
  let final_out :=
    if MAX_TOOL_RESULT_LENGTH <? len joined then
      slice_to MAX_TOOL_RESULT_LENGTH joined +++ truncation_banner (len joined)
    else joined in
  if truthy final_out then final_out else success_marker.

Definition joined_output (E : Env) (result : CallToolResult) : str :=
  join nl (output_parts E result).

Definition execute_tool (E : Env) (conns : registry)
    (unique_name : str) (args : json) (tool_map : tool_map_t)
  : M (list Invocation) str :=
  match dict_get str_eqb tool_map unique_name with
  | None => ret (lit "Error: Tool " +++ unique_name +++ lit " not found.")
  | Some info =>
      match dict_get str_eqb conns (connection_id info) with
      | None => ret (lit "Error: Connection lost.")
      | Some conn =>
          try_except
            (result <- session_call_tool E (session conn) (real_name info) args ;;
             if isError result then
               ret (lit "Tool Execution Error: " +++ repr_content E (content result))
             else
               ret (shape_output (joined_output E result)))
            (fun e => ret (cross_mark +++ lit " Tool Exception: " +++ exn_str E e))
      end
  end.

End Manager.

(* ------------------------------------------------------------------ *)
(** ** ChatDatabase: the [messages] table *)

Module Database.

(** A requested tool call [{"id", "name", "args"}] *)
Record ToolCall := {
  tc_id : str;
  tc_name : str;
  tc_args : json
}.

(** The dict handed to [add_message]; [None] is an absent key *)
Record MsgData := {
  m_id : option str;
  m_role : option str;
  m_content : option str;
  m_is_tool_result : option bool;
  m_tool_call_id : option str;
  m_thought_signature : option str;
  m_image : option json;
  m_toolCalls : option (list ToolCall)
}.

(** A row of [messages]. The columns [image_data] and [tool_calls] hold
    [json.dumps] of a value and are read back with [json.loads]; the row
    keeps the value itself. [created_at] is the clock reading of the
    insertion. *)
Record Row := {
  id : str;
  session_id : str;
  role : str;
  content : str;
  image_data : option json;
  tool_calls : option (list ToolCall);
  is_tool_result : bool;
  tool_call_id : option str;
  thought_signature : option str;
  created_at : N
}.

(** The table, in insertion order; [id] is its primary key *)
Definition Table := list Row.

Definition or_default {A} (o : option A) (d : A) : A :=
  match o with Some a => a | None => d end.

(** [json.dumps(x) if x else None] *)
Definition dump_if_truthy_image (o : option json) : option json :=
  match o with
  | Some v => if json_truthy v then Some v else None
  | None => None
  end.

Definition dump_if_truthy_calls (o : option (list ToolCall))
  : option (list ToolCall) :=
  match o with
  | Some (c :: l) => Some (c :: l)
  | _ => None
  end.

(** The tuple bound to the INSERT of [add_message]; [fresh] is the value
    of [str(uuid.uuid4())], [now] that of [datetime.now()] *)
Definition row_of (session_id : str) (msg_data : MsgData) (fresh : str) (now : N)
  : Row :=
  {| id := or_default (m_id msg_data) fresh;
     session_id := session_id;
     role := or_default (m_role msg_data) (lit "user");
     content := or_default (m_content msg_data) [];
     image_data := dump_if_truthy_image (m_image msg_data);
     tool_calls := dump_if_truthy_calls (m_toolCalls msg_data);
     is_tool_result := or_default (m_is_tool_result msg_data) false;
     tool_call_id := m_tool_call_id msg_data;
     thought_signature := m_thought_signature msg_data;
     created_at := now |}.

(** [INSERT OR REPLACE]: a row that holds the same primary key is deleted
    before the new row is inserted *)
Definition insert_or_replace (t : Table) (r : Row) : Table :=
  filter (fun r' => negb (str_eqb (id r') (id r))) t ++ [r].

(** [ChatDatabase.add_message] *)
Definition add_message (t : Table) (session_id : str) (msg_data : MsgData)
    (fresh : str) (now : N) : Table :=
  insert_or_replace t (row_of session_id msg_data fresh now).

(** [ChatDatabase.delete_session], on the [messages] table *)
Definition delete_session (t : Table) (sid : str) : Table :=
  filter (fun r => negb (str_eqb (session_id r) sid)) t.

(** A message dict as [get_messages] returns it: the keys the
    orchestrator reads *)
Record Message := {
  msg_id : str;
  msg_role : str;
  msg_content : str;
  msg_is_tool_result : bool;
  msg_tool_call_id : option str;
  msg_toolCalls : option (list ToolCall)
}.

Definition message_of_row (r : Row) : Message :=
  {| msg_id := id r;
     msg_role := role r;
     msg_content := content r;
     msg_is_tool_result := is_tool_result r;
     msg_tool_call_id := tool_call_id r;
     msg_toolCalls := tool_calls r |}.

(** [ORDER BY created_at ASC]; rows of equal time keep insertion order *)
Fixpoint insert_by_time (r : Row) (sorted : list Row) : list Row :=
  match sorted with
  | [] => [r]
  | r' :: rest =>
      if created_at r <? created_at r' then r :: sorted
      else r' :: insert_by_time r rest
  end.

Definition order_by_created_at (rows : list Row) : list Row :=
  fold_left (fun acc r => insert_by_time r acc) rows [].

(** [ChatDatabase.get_messages] *)
Definition get_messages (t : Table) (sid : str) : list Message :=
  map message_of_row
    (order_by_created_at (filter (fun r => str_eqb (session_id r) sid) t)).

End Database.

(* ------------------------------------------------------------------ *)
(** ** The streaming orchestrator: the two provider paths *)

Module Orchestrator.

Import Catalog Manager Database.

(** The lines a generator yields *)
Inductive Event :=
| EvText (content : str)
| EvToolApprovalRequest (tool : ToolCall)
| EvToolResult (tool : str) (result : str)
| EvError (message : str)
| EvDone.

(** What a generator does, in order: a line yielded to the caller, a call
    of [db.add_message], or an exception that leaves the generator
    uncaught and ends the response; nothing follows an [Uncaught] *)
Inductive Action :=
| Yield (e : Event)
| AddMessage (session_id : str) (msg_data : MsgData)
| Uncaught (e : exn).

(** A provider stream: the chunks it delivers and, when iterating it (or
    creating it) raises, the exception raised after them *)
Record Stream (A : Type) := {
  chunks : list A;
  failure : option exn
}.
Arguments chunks {A} s.
Arguments failure {A} s.

Definition dq : str := [34].

(** *** Groq: request *)

Record GroqToolCall := {
  gtc_id : str;
  gtc_name : str;
  gtc_arguments : json
}.

Inductive GroqMessage :=
| GSystem (content : str)
| GTool (tool_call_id : option str) (content : str)
| GAssistant (content : option str) (tool_calls : option (list GroqToolCall))
| GUser (content : str).

Record GroqRequest := {
  groq_messages : list GroqMessage;
  groq_tools : list ToolDef
}.

(** *** Groq: the chunks of a streamed completion *)

Record GroqFunctionDelta := {
  fn_name : option str;
  fn_arguments : option str
}.

Record GroqToolCallDelta := {
  tcd_index : N;
  tcd_id : option str;
  tcd_function : option GroqFunctionDelta
}.

Record GroqDelta := {
  delta_content : option str;
  delta_tool_calls : option (list GroqToolCallDelta)
}.

(** [chunk.choices], each choice by its [delta] *)
Record GroqChunk := {
  choices : list GroqDelta
}.

(** *** Gemini: request *)

Inductive GeminiPart :=
| PFunctionCall (name : str) (args : json)
| PFunctionResponse (name : str) (result : str)
| PText (text : str).

Record GeminiContent := {
  gc_role : str;
  gc_parts : list GeminiPart
}.

(** A [types.FunctionDeclaration] that the SDK has accepted *)
Record FunctionDeclaration := {
  fd_name : str;
  fd_description : str;
  fd_parameters : json
}.

Record GeminiRequest := {
  contents : list GeminiContent;
  config_tools : list FunctionDeclaration;
  system_instruction : str
}.

(** *** Gemini: the chunks of a streamed generation *)

(** [part.function_call]; [fc_args] is [None] when the SDK object holds
    no argument dict, and [dict(None)] raises *)
Record FunctionCall := {
  fc_name : str;
  fc_args : option json
}.

Record ResponsePart := {
  function_call : option FunctionCall;
  text : option str
}.

(** [chunk.candidates], each candidate by its [content.parts]; [None] is a
    candidate without parts, over which the [for] raises *)
Record GeminiChunk := {
  candidates : list (option (list ResponsePart))
}.

(** *** The process-wide configuration and the SDK functions *)

(** [function_declaration name description parameters] is what the
    constructor [types.FunctionDeclaration(...)] raises, if anything, and
    [part_from_function_call name args] what
    [types.Part.from_function_call(...)] raises: both validate their
    arguments *)
Record Runtime := {
  groq_async_client : option (GroqRequest -> Stream GroqChunk);
  gemini_client : option (GeminiRequest -> Stream GeminiChunk);
  ACTIVE_PROVIDER : option str;
  json_loads : str -> option json;
  dumps : json -> str;
  str_exn : exn -> str;
  function_declaration : str -> str -> json -> option exn;
  part_from_function_call : str -> json -> option exn
}.

(** [x or ""] and [if x:] for an optional string *)
Definition nonempty (o : option str) : option str :=
  match o with
  | Some s => if truthy s then Some s else None
  | None => None
  end.

(** *** Groq: history translation *)

Definition groq_tool_line (t : ToolDef) : str :=
  lit "- " +++ name t +++ lit ": " +++ description t.

Definition groq_system_prompt (tools : list ToolDef) : str :=
  lit "You are a helpful AI assistant with access to tools." +++ nl +++ nl +++
  lit "Available Tools:" +++ nl +++
  join nl (map groq_tool_line (slice_to 10 tools)) +++ nl +++ nl +++
  lit "IMPORTANT INSTRUCTIONS:" +++ nl +++
  lit "- When users ask " +++ dq +++ lit "what tools do you have" +++ dq +++
  lit " or " +++ dq +++ lit "list your tools" +++ dq +++
  lit ", simply DESCRIBE the available tools in natural language. DO NOT execute them." +++ nl +++
  lit "- Only use tools when the user specifically asks you to perform an action (e.g., " +++
  dq +++ lit "fetch the documentation" +++ dq +++ lit ", " +++
  dq +++ lit "get the data" +++ dq +++ lit ")." +++ nl +++
  lit "- If a tool returns a lot of data, summarize it concisely." +++ nl +++
  lit "- Always explain what you're doing before using a tool.".

Definition truncate_for_groq (content : str) : str :=
  if 8000 <? len content then
    slice_to 8000 content +++ nl +++ nl +++
    lit "[... Output truncated. Total length: " +++ str_of_N (len content) +++
    lit " characters]"
  else content.

Definition groq_tool_call (R : Runtime) (tc : ToolCall) : GroqToolCall :=
  {| gtc_id := tc_id tc;
     gtc_name := tc_name tc;
     gtc_arguments :=
       if is_dict (tc_args tc) then JStr (dumps R (tc_args tc))
       else if json_truthy (tc_args tc) then tc_args tc
       else JStr (lit "{}") |}.

Definition is_assistant_role (role : str) : bool :=
  str_eqb role (lit "model") || str_eqb role (lit "assistant").

(** One iteration of [for msg in raw_history] *)
Definition groq_translate (R : Runtime) (msg : Message) : list GroqMessage :=
  if msg_is_tool_result msg then
    [GTool (msg_tool_call_id msg) (truncate_for_groq (msg_content msg))]
  else if is_assistant_role (msg_role msg) then
    [GAssistant
       (if truthy (msg_content msg) then Some (msg_content msg) else None)
       (match msg_toolCalls msg with
        | Some (c :: l) => Some (map (groq_tool_call R) (c :: l))
        | _ => None
        end)]
  else if str_eqb (msg_role msg) (lit "user") then
    [GUser (msg_content msg)]
  else [].

Definition groq_history (R : Runtime) (tools : list ToolDef)
    (raw_history : list Message) : list GroqMessage :=
  (match tools with
   | [] => []
   | _ => [GSystem (groq_system_prompt tools)]
   end) ++ flat_map (groq_translate R) raw_history.

(** *** Groq: accumulation of tool-call fragments *)

Record BufferEntry := {
  b_id : str;
  b_name : str;
  b_arguments : str
}.

Definition Buffer := @dict N BufferEntry.

Definition update_entry (buffer : Buffer) (idx : N)
    (f : BufferEntry -> BufferEntry) : Buffer :=
  match dict_get N.eqb buffer idx with
  | Some e => dict_set N.eqb buffer idx (f e)
  | None => buffer
  end.

(** The body of [for tool_call in delta.tool_calls] *)
Definition accumulate (buffer : Buffer) (tool_call : GroqToolCallDelta) : Buffer :=
  let idx := tcd_index tool_call in
  let buffer :=
    if negb (dict_mem N.eqb buffer idx) then
      dict_set N.eqb buffer idx
        {| b_id := match nonempty (tcd_id tool_call) with
                   | Some i => i | None => [] end;
           b_name := []; b_arguments := [] |}
    else buffer in
  let buffer :=
    match nonempty (tcd_id tool_call) with
    | Some i =>
        update_entry buffer idx
          (fun e => {| b_id := i; b_name := b_name e;
                       b_arguments := b_arguments e |})
    | None => buffer
    end in
  match tcd_function tool_call with
  | Some fn =>
      let buffer :=
        match nonempty (fn_name fn) with
        | Some n =>
            update_entry buffer idx
              (fun e => {| b_id := b_id e; b_name := n;
                           b_arguments := b_arguments e |})
        | None => buffer
        end in
      match nonempty (fn_arguments fn) with
      | Some a =>
          update_entry buffer idx
            (fun e => {| b_id := b_id e; b_name := b_name e;
                         b_arguments := b_arguments e +++ a |})
      | None => buffer
      end
  | None => buffer
  end.

Record GroqLoop := {
  final_text : str;
  tool_calls_buffer : Buffer;
  emitted : list Action
}.

(** The body of [async for chunk in stream] *)
Definition groq_chunk (st : GroqLoop) (chunk : GroqChunk) : GroqLoop :=
  match choices chunk with
  | [] => st
  | delta :: _ =>
      let st :=
        match nonempty (delta_content delta) with
        | Some c =>
            {| final_text := final_text st +++ c;
               tool_calls_buffer := tool_calls_buffer st;
               emitted := emitted st ++ [Yield (EvText c)] |}
        | None => st
        end in
      match delta_tool_calls delta with
      | Some tcs =>
          {| final_text := final_text st;
             tool_calls_buffer := fold_left accumulate tcs (tool_calls_buffer st);
             emitted := emitted st |}
      | None => st
      end
  end.

(** [json.loads] inside [try/except: args = {}] *)
Definition completed_call (R : Runtime) (e : BufferEntry) : ToolCall :=
  {| tc_id := b_id e;
     tc_name := b_name e;
     tc_args := match json_loads R (b_arguments e) with
                | Some v => v
                | None => JObj []
                end |}.

Definition assistant_turn (role : str) (fresh : str) (content : str)
    (calls : option (list ToolCall)) : MsgData :=
  {| m_id := Some fresh; m_role := Some role; m_content := Some content;
     m_is_tool_result := None; m_tool_call_id := None;
     m_thought_signature := None; m_image := None; m_toolCalls := calls |}.

(** The code after the loop, lines 822-881 *)
Definition groq_finish (R : Runtime) (session_id fresh : str) (st : GroqLoop)
  : list Action :=
  match tool_calls_buffer st with
  | _ :: _ =>
      let tool_calls_list :=
        map (completed_call R) (dict_values (tool_calls_buffer st)) in
      emitted st ++
      [AddMessage session_id
         (assistant_turn (lit "assistant") fresh (final_text st)
            (Some tool_calls_list))] ++
      (match tool_calls_list with
       | first :: _ => [Yield (EvToolApprovalRequest first)]
       | [] => []
       end) ++
      [Yield EvDone]
  | [] =>
      emitted st ++
      (if truthy (final_text st) then
         [AddMessage session_id
            (assistant_turn (lit "assistant") fresh (final_text st) None)]
       else []) ++
      [Yield EvDone]
  end.

Definition groq_start : GroqLoop :=
  {| final_text := []; tool_calls_buffer := []; emitted := [] |}.

(** The [try] block of [stream_groq_response], given the stream *)
Definition groq_turn (R : Runtime) (session_id fresh : str)
    (stream : Stream GroqChunk) : list Action :=
  let st := fold_left groq_chunk (chunks stream) groq_start in
  match failure stream with
  | Some e => emitted st ++ [Yield (EvError (str_exn R e))]
  | None => groq_finish R session_id fresh st
  end.

(** [stream_groq_response]; [uuid n] is the n-th value of
    [str(uuid.uuid4())] drawn by the call *)
Definition stream_groq_response (R : Runtime) (conns : registry)
    (session_id : str) (raw_history : list Message) (uuid : nat -> str)
  : list Action :=
  match groq_async_client R with
  | None => [Yield (EvError (lit "Groq client not initialized"))]
  | Some create =>
      let mcp_tools := fst (get_all_tools conns) in
      let messages := groq_history R mcp_tools raw_history in
      match messages with
      | [] => []
      | _ =>
          groq_turn R session_id (uuid 0%nat)
            (create {| groq_messages := messages; groq_tools := mcp_tools |})
      end
  end.

(** *** Gemini: history translation *)

(** [type(v).__name__] of a JSON-like value *)
Definition type_name (v : json) : str :=
  match v with
  | JNull => lit "NoneType"
  | JBool _ => lit "bool"
  | JNum _ => lit "int"
  | JStr _ => lit "str"
  | JArr _ => lit "list"
  | JObj _ => lit "dict"
  end.

Definition dropped_keys : list str :=
  [lit "title"; lit "$schema"; lit "additionalProperties"; lit "default"].

(** [schema = schema.copy()], the four [del], and the default [type] *)
Definition strip_schema (fields : list (str * json)) : list (str * json) :=
  let schema :=
    fold_left (fun schema key =>
                 if dict_mem str_eqb schema key then dict_del str_eqb schema key
                 else schema) dropped_keys fields in
  if negb (dict_mem str_eqb schema (lit "type")) then
    if dict_mem str_eqb schema (lit "properties")
    then dict_set str_eqb schema (lit "type") (JStr (lit "object"))
    else dict_set str_eqb schema (lit "type") (JStr (lit "string"))
  else schema.

(** [clean_schema] of [get_tools_for_gemini], by its value. The values
    under [properties] and [items] are looked up in the fields of the
    argument, where [strip_schema] leaves them untouched, so that the
    recursion is on parts of the argument. A [properties] that is not a
    dict has no [items()]. The assignment [schema['properties'][k] = ...]
    writes into the dict that the copy shares with the schema of the
    registered tool; what later calls read from the registry is outside
    this function's value. *)
Fixpoint clean_schema (schema : json) : result json :=
  match schema with
  | JObj fields =>
      let fix clean_values (props : list (str * json))
        : result (list (str * json)) :=
        match props with
        | [] => Ok []
        | (k, v) :: rest =>
            match clean_schema v with
            | Raise e => Raise e
            | Ok v' =>
                match clean_values rest with
                | Raise e => Raise e
                | Ok rest' => Ok ((k, v') :: rest')
                end
            end
        end in
      let fix cleaned_properties (l : list (str * json)) : option (result json) :=
        match l with
        | [] => None
        | (k, v) :: rest =>
            if str_eqb (lit "properties") k then
              Some (match v with
                    | JObj props =>
                        match clean_values props with
                        | Ok props' => Ok (JObj props')
                        | Raise e => Raise e
                        end
                    | _ => Raise (AttributeError
                             (lit "'" +++ type_name v +++
                              lit "' object has no attribute 'items'"))
                    end)
            else cleaned_properties rest
        end in
      let fix cleaned_items (l : list (str * json)) : option (result json) :=
        match l with
        | [] => None
        | (k, v) :: rest =>
            if str_eqb (lit "items") k then Some (clean_schema v)
            else cleaned_items rest
        end in
      let schema := strip_schema fields in
      match cleaned_properties fields with
      | Some (Raise e) => Raise e
      | with_properties =>
          let schema :=
            match with_properties with
            | Some (Ok props) => dict_set str_eqb schema (lit "properties") props
            | _ => schema
            end in
          match cleaned_items fields with
          | Some (Raise e) => Raise e
          | Some (Ok items) => Ok (JObj (dict_set str_eqb schema (lit "items") items))
          | None => Ok (JObj schema)
          end
      end
  | _ => Ok schema
  end.

(** [get_tools_for_gemini]: the list comprehension stops at the first
    tool whose schema or declaration raises *)
Fixpoint get_tools_for_gemini (R : Runtime) (tools : list ToolDef)
  : result (list FunctionDeclaration) :=
  match tools with
  | [] => Ok []
  | tool :: rest =>
      match clean_schema (parameters tool) with
      | Raise e => Raise e
      | Ok cleaned =>
          match function_declaration R (name tool) (description tool) cleaned with
          | Some e => Raise e
          | None =>
              match get_tools_for_gemini R rest with
              | Raise e => Raise e
              | Ok declarations =>
                  Ok ({| fd_name := name tool;
                         fd_description := description tool;
                         fd_parameters := cleaned |} :: declarations)
              end
          end
      end
  end.

Definition gemini_system_instruction (tools : list FunctionDeclaration) : str :=
  match tools with
  | [] => lit "You are a helpful AI assistant."
  | _ =>
      lit "You are a helpful AI assistant with access to tools." +++ nl +++ nl +++
      lit "Available Tools: " +++
      join (lit ", ") (map fd_name (slice_to 10 tools)) +++ nl +++ nl +++
      lit "IMPORTANT INSTRUCTIONS:" +++ nl +++
      lit "- When users ask " +++ dq +++ lit "what tools do you have" +++ dq +++
      lit " or " +++ dq +++ lit "list your tools" +++ dq +++
      lit ", simply DESCRIBE the available tools. DO NOT execute them." +++ nl +++
      lit "- Only use tools when the user specifically asks you to perform an action." +++ nl +++
      lit "- If a tool returns a lot of data, summarize it concisely." +++ nl +++
      lit "- Always explain what you're doing before using a tool." +++ nl
  end.

Definition quote : char := 39.

(** The longest prefix without a quote, and what follows it *)
Fixpoint span_unquoted (s : str) : str * str :=
  match s with
  | [] => ([], [])
  | c :: s' =>
      if N.eqb c quote then ([], s)
      else let (a, b) := span_unquoted s' in (c :: a, b)
  end.

(** A match of [Tool '([^']+)' Output:] that starts at the head of [s]:
    the group. The class excludes the quote that must follow the group, so
    only the longest run can be followed by it and no shorter run needs
    trying. *)
Definition match_tool_output_here (s : str) : option str :=
  if startswith s (lit "Tool '") then
    let (group, rest) := span_unquoted (skipn 6 s) in
    if truthy group && startswith rest (lit "' Output:") then Some group
    else None
  else None.

(** [re.search(r"Tool '([^']+)' Output:", s)]: the leftmost match *)
Fixpoint re_search_tool_output (s : str) : option str :=
  match match_tool_output_here s with
  | Some g => Some g
  | None =>
      match s with
      | [] => None
      | _ :: s' => re_search_tool_output s'
      end
  end.

Definition gemini_tool_name (content : str) : str :=
  match re_search_tool_output content with
  | Some g => g
  | None => lit "unknown_tool"
  end.

Definition truncate_for_gemini (content : str) : str :=
  if 8000 <? len content then
    slice_to 8000 content +++ nl +++ nl +++
    lit "[... Output truncated. Total: " +++ str_of_N (len content) +++
    lit " chars]"
  else content.

(** [for tc in msg['toolCalls']: parts.append(Part.from_function_call(...))]:
    the first call that the SDK refuses ends the loop with its exception *)
Fixpoint function_call_parts (R : Runtime) (calls : list ToolCall)
  : result (list GeminiPart) :=
  match calls with
  | [] => Ok []
  | tc :: rest =>
      match part_from_function_call R (tc_name tc) (tc_args tc) with
      | Some e => Raise e
      | None =>
          match function_call_parts R rest with
          | Raise e => Raise e
          | Ok parts => Ok (PFunctionCall (tc_name tc) (tc_args tc) :: parts)
          end
      end
  end.

Definition gemini_parts_of (R : Runtime) (msg : Message) : result (list GeminiPart) :=
  match msg_toolCalls msg with
  | Some (c :: l) => function_call_parts R (c :: l)
  | _ =>
      if msg_is_tool_result msg then
        Ok [PFunctionResponse (gemini_tool_name (msg_content msg))
              (truncate_for_gemini (msg_content msg))]
      else if truthy (msg_content msg) then Ok [PText (msg_content msg)]
      else Ok []
  end.

(** One iteration of [for msg in raw_history] *)
Definition gemini_translate (R : Runtime) (msg : Message)
  : result (list GeminiContent) :=
  let role := if str_eqb (msg_role msg) (lit "model") then lit "model"
              else lit "user" in
  match gemini_parts_of R msg with
  | Raise e => Raise e
  | Ok [] => Ok []
  | Ok parts => Ok [{| gc_role := role; gc_parts := parts |}]
  end.

(** The loop [for msg in raw_history]; an exception of a part constructor
    leaves it *)
Fixpoint gemini_history (R : Runtime) (raw_history : list Message)
  : result (list GeminiContent) :=
  match raw_history with
  | [] => Ok []
  | msg :: rest =>
      match gemini_translate R msg with
      | Raise e => Raise e
      | Ok contents =>
          match gemini_history R rest with
          | Raise e => Raise e
          | Ok history => Ok (contents ++ history)
          end
      end
  end.

(** *** Gemini: the streamed turn *)

Record GeminiLoop := {
  g_final_text : str;
  g_emitted : list Action
}.

(** How a loop body ends: it falls through to the next iteration, the
    generator returns, or an exception leaves the loop *)
Inductive Flow :=
| Continue (st : GeminiLoop)
| Returned (st : GeminiLoop)
| Failed (e : exn) (st : GeminiLoop).

(** The body of [for part in cand.content.parts]; [call_id] and [fresh]
    are the two identifiers drawn for a function call *)
Definition gemini_part (session_id call_id fresh : str)
    (st : GeminiLoop) (part : ResponsePart) : Flow :=
  match function_call part with
  | Some fc =>
      match fc_args fc with
      | None =>
          Failed (TypeError (lit "'NoneType' object is not iterable")) st
      | Some a =>
          let tool_data :=
            {| tc_id := call_id; tc_name := fc_name fc; tc_args := a |} in
          Returned
            {| g_final_text := g_final_text st;
               g_emitted := g_emitted st ++
                 [Yield (EvToolApprovalRequest tool_data);
                  AddMessage session_id
                    (assistant_turn (lit "model") fresh (g_final_text st)
                       (Some [tool_data]));
                  Yield EvDone] |}
      end
  | None =>
      match nonempty (text part) with
      | Some t =>
          Continue {| g_final_text := g_final_text st +++ t;
                      g_emitted := g_emitted st ++ [Yield (EvText t)] |}
      | None => Continue st
      end
  end.

Fixpoint gemini_parts (session_id call_id fresh : str)
    (st : GeminiLoop) (parts : list ResponsePart) : Flow :=
  match parts with
  | [] => Continue st
  | p :: rest =>
      match gemini_part session_id call_id fresh st p with
      | Continue st' => gemini_parts session_id call_id fresh st' rest
      | stop => stop
      end
  end.

(** The body of [async for chunk in response_stream] *)
Definition gemini_chunk (session_id call_id fresh : str)
    (st : GeminiLoop) (chunk : GeminiChunk) : Flow :=
  match candidates chunk with
  | [] => Continue st
  | None :: _ =>
      Failed (TypeError (lit "'NoneType' object is not iterable")) st
  | Some parts :: _ => gemini_parts session_id call_id fresh st parts
  end.

Fixpoint gemini_chunks (session_id call_id fresh : str)
    (st : GeminiLoop) (cs : list GeminiChunk) : Flow :=
  match cs with
  | [] => Continue st
  | c :: rest =>
      match gemini_chunk session_id call_id fresh st c with
      | Continue st' => gemini_chunks session_id call_id fresh st' rest
      | stop => stop
      end
  end.

Definition gemini_start : GeminiLoop :=
  {| g_final_text := []; g_emitted := [] |}.

(** The [try] block of [stream_gemini_response], given the stream. A
    generator that returned inside the loop never sees what the stream
    would have delivered or raised later. *)
Definition gemini_turn (R : Runtime) (session_id : str) (uuid : nat -> str)
    (stream : Stream GeminiChunk) : list Action :=
  match gemini_chunks session_id (uuid 0%nat) (uuid 1%nat) gemini_start
          (chunks stream) with
  | Returned st => g_emitted st
  | Failed e st => g_emitted st ++ [Yield (EvError (str_exn R e))]
  | Continue st =>
      match failure stream with
      | Some e => g_emitted st ++ [Yield (EvError (str_exn R e))]
      | None =>
          g_emitted st ++
          (if truthy (g_final_text st) then
             [AddMessage session_id
                (assistant_turn (lit "model") (uuid 0%nat) (g_final_text st) None)]
           else []) ++
          [Yield EvDone]
      end
  end.

(** [stream_gemini_response]. The tool declarations and the history are
    built before the [try]: an exception there leaves the generator
    before it has yielded anything. *)
Definition stream_gemini_response (R : Runtime) (conns : registry)
    (session_id : str) (raw_history : list Message) (uuid : nat -> str)
  : list Action :=
  match gemini_client R with
  | None => [Yield (EvError (lit "Gemini client not initialized"))]
  | Some generate =>
      let mcp_tools := fst (get_all_tools conns) in
      match get_tools_for_gemini R mcp_tools with
      | Raise e => [Uncaught e]
      | Ok gemini_tools =>
          match gemini_history R raw_history with
          | Raise e => [Uncaught e]
          | Ok [] => []
          | Ok history =>
              gemini_turn R session_id uuid
                (generate {| contents := history;
                             config_tools := gemini_tools;
                             system_instruction :=
                               gemini_system_instruction gemini_tools |})
          end
      end
  end.

(** [stream_llm_response] *)
Definition stream_llm_response (R : Runtime) (conns : registry)
    (session_id : str) (raw_history : list Message) (provider : option str)
    (uuid : nat -> str) : list Action :=
  let provider := match provider with
                  | Some p => Some p
                  | None => ACTIVE_PROVIDER R
                  end in
  match provider with
  | Some p =>
      if str_eqb p (lit "groq") then
        stream_groq_response R conns session_id raw_history uuid
      else if str_eqb p (lit "gemini") then
        stream_gemini_response R conns session_id raw_history uuid
      else [Yield (EvError (lit "No LLM provider available"))]
  | None => [Yield (EvError (lit "No LLM provider available"))]
  end.

(** The lines of a run, without the database calls *)
Definition events (actions : list Action) : list Event :=
  flat_map (fun a => match a with Yield e => [e] | _ => [] end) actions.

(** The database calls of a run *)
Definition persisted (actions : list Action) : list (str * MsgData) :=
  flat_map (fun a => match a with
                     | AddMessage s m => [(s, m)]
                     | _ => []
                     end) actions.

End Orchestrator.

(* ------------------------------------------------------------------ *)
(** ** The endpoints that call into the core *)

Module Endpoints.

Import Catalog Manager Database Orchestrator.

(** The kind correction of [connect_mcp], lines 1266-1280: the value of
    [req.type] handed to [manager.connect] *)
Definition connect_mcp_type (target type : str) : str :=
  if endswith target (lit ".py") || negb (is_http_url target) then
    if negb (str_eqb type (lit "stdio")) then lit "stdio" else type
  else if contains (lit "gitmcp.io") target then
    if negb (str_eqb type (lit "sse")) then lit "sse" else type
  else type.

(** [connect_mcp]: both [except] clauses re-raise *)
Definition connect_mcp (E : Env) (id target type : str)
  : M (World * registry) Summary :=
  connect E id target (connect_mcp_type target type).

(** The transport the endpoint ends up with *)
Definition connect_mcp_transport (target type : str) : result (Transport * str) :=
  select_transport target (connect_mcp_type target type).

Record ExecuteToolRequest := {
  req_session_id : str;
  req_tool_call_id : str;
  req_tool_name : str;
  req_tool_args : json
}.

(** The dict that [execute_tool_endpoint] hands to [db.add_message] *)
Definition tool_result_turn (req : ExecuteToolRequest) (result_text fresh : str)
  : MsgData :=
  {| m_id := Some fresh;
     m_role := Some (lit "user");
     m_content := Some (lit "Tool '" +++ req_tool_name req +++
                        lit "' Output:" +++ nl +++ result_text);
     m_is_tool_result := Some true;
     m_tool_call_id := Some (req_tool_call_id req);
     m_thought_signature := None; m_image := None; m_toolCalls := None |}.

Record ToolRun := {
  run_calls : list Invocation;
  run_table : Table;
  run_actions : list Action
}.

(** [execute_tool_endpoint] with its generator run to the end. [uuid 0] is
    the id of the tool-result turn, [uuid 1] the unused default computed
    inside [add_message]; the stream draws from [uuid 2] on. An exception
    of [execute_tool] would leave the endpoint before anything is stored. *)
Definition execute_tool_endpoint (E : Env) (R : Runtime) (conns : registry)
    (t : Table) (req : ExecuteToolRequest) (uuid : nat -> str) (now : N)
  : result ToolRun :=
  let tool_map := snd (get_all_tools conns) in
  match execute_tool E conns (req_tool_name req) (req_tool_args req) tool_map [] with
  | (Raise e, _) => Raise e
  | (Ok result_text, calls) =>
      let turn := tool_result_turn req result_text (uuid 0%nat) in
      let t' := add_message t (req_session_id req) turn (uuid 1%nat) now in
      Ok {| run_calls := calls;
            run_table := t';
            run_actions :=
              AddMessage (req_session_id req) turn ::
              Yield (EvToolResult (req_tool_name req) result_text) ::
              stream_llm_response R conns (req_session_id req)
                (get_messages t' (req_session_id req)) None
                (fun n => uuid (2 + n)%nat) |}
  end.

(** [save_message]: the client's dict goes to [add_message] as it is *)
Definition save_message (t : Table) (session_id : str) (message : MsgData)
    (fresh : str) (now : N) : Table :=
  add_message t session_id message fresh now.

(** The first statement of [chat_endpoint] that touches the store *)
Definition chat_endpoint_store (t : Table) (session_id : str)
    (new_message : MsgData) (fresh : str) (now : N) : Table :=
  add_message t session_id new_message fresh now.

End Endpoints.

(* ------------------------------------------------------------------ *)
(** ** Concrete collaborators and inputs, for the examples *)

Module Demo.

Import Catalog Manager Database Orchestrator Endpoints.

(** [str(e)]: an [HTTPException] prints its status code before its
    detail *)
Definition message_of (e : exn) : str :=
  match e with
  | HTTPException status detail => str_of_N status +++ lit ": " +++ detail
  | ValueError m => m
  | TypeError m => m
  | FileNotFoundError m => m
  | AttributeError m => m
  | TimeoutError => []
  | OtherError m => m
  end.

(** An SDK that accepts every declaration, and every function call whose
    arguments are a dict *)
Definition accepts_declaration (name description : str) (parameters : json)
  : option exn := None.

Definition refuses_non_dict (name : str) (args : json) : option exn :=
  if is_dict args then None
  else Some (ValueError (lit "1 validation error for FunctionCall")).

Definition search_tool : Tool :=
  {| tool_name := lit "search-index.v2";
     tool_description := Some (lit "Full-text search");
     tool_inputSchema := JObj [] |}.

(** A server whose contexts open unless [refuse] says otherwise, and whose
    tool calls answer [answer] *)
Definition server (refuse : handle -> option exn) (answer : result CallToolResult)
  : Env :=
  {| cwd := lit "/srv";
     path_isabs := fun p => startswith p (lit "/");
     path_join := join (lit "/");
     path_basename := fun p => p;
     path_dirname := fun p => p;
     path_exists := fun _ => true;
     path_abspath := fun p => p;
     sys_executable := lit "/usr/bin/python3";
     is_windows := false;
     os_environ := [];
     which := fun _ => None;
     shlex_split := fun s _ => Ok [s];
     enter_outcome := fun h _ => refuse h;
     initialize := fun _ => None;
     list_tools := fun _ => Ok [search_tool];
     list_resources := fun _ => Ok [];
     list_prompts := fun _ => Ok [];
     call_tool := fun _ _ _ => answer;
     exn_str := message_of;
     json_dumps := fun _ => lit "{}";
     repr_content := fun _ => lit "[]" |}.

Definition text_result (s : str) : CallToolResult :=
  {| Mcp.isError := false; Mcp.content := [TextContent s];
     Mcp.structuredContent := None |}.

Definition docs_conn : MCPConnection :=
  {| conn_name := lit "docs"; session := 2%nat; exit_stack := [2; 1; 0]%nat;
     tools := [search_tool]; resources := []; prompts := [] |}.

Definition conns : registry := [(lit "docs", docs_conn)].

Definition search_def : ToolDef := tool_def (lit "docs") search_tool.

Definition long_text : str := repeat 120 (N.to_nat 8001).

Definition world0 : World := {| attempts := []; live := [] |}.

(** The second context that is entered fails to open *)
Definition second_fails (h : handle) : option exn :=
  if Nat.eqb h 1 then Some (OtherError (lit "spawn failed")) else None.

Definition connected_world : World :=
  {| attempts := [RSession 1%nat;
                  RStdio {| command := lit "/usr/bin/python3";
                            args := [lit "/srv/server.py"];
                            env := [(lit "PYTHONUNBUFFERED", lit "1")] |};
                  RStdio {| command := lit "/usr/bin/python3";
                            args := [lit "/srv/server.py"];
                            env := [(lit "PYTHONUNBUFFERED", lit "1")] |}];
     live := [(2%nat, RSession 1%nat);
              (1%nat, RStdio {| command := lit "/usr/bin/python3";
                                args := [lit "/srv/server.py"];
                                env := [(lit "PYTHONUNBUFFERED", lit "1")] |});
              (0%nat, RStdio {| command := lit "/usr/bin/python3";
                                args := [lit "/srv/server.py"];
                                env := [(lit "PYTHONUNBUFFERED", lit "1")] |})] |}.

Definition turn (mid content : str) : MsgData :=
  {| m_id := Some mid; m_role := Some (lit "user"); m_content := Some content;
     m_is_tool_result := None; m_tool_call_id := None;
     m_thought_signature := None; m_image := None; m_toolCalls := None |}.

(** A table that holds one turn of session [s1] *)
Definition one_turn : Table :=
  add_message [] (lit "s1") (turn (lit "m1") (lit "first")) (lit "u0") 1.

Definition no_providers : Runtime :=
  {| groq_async_client := None; gemini_client := None;
     ACTIVE_PROVIDER := None;
     json_loads := fun _ => None;
     dumps := fun _ => lit "{}";
     str_exn := message_of;
     function_declaration := accepts_declaration;
     part_from_function_call := refuses_non_dict |}.

Definition search_request : ExecuteToolRequest :=
  {| req_session_id := lit "s1"; req_tool_call_id := lit "call_7";
     req_tool_name := lit "docs__search_index_v2";
     req_tool_args := JObj [] |}.

Definition search_call : FunctionCall :=
  {| fc_name := lit "search"; fc_args := Some (JObj []) |}.

Definition fetch_call : FunctionCall :=
  {| fc_name := lit "fetch"; fc_args := Some (JObj []) |}.

Definition call_part (fc : FunctionCall) : ResponsePart :=
  {| function_call := Some fc; text := None |}.

Definition text_part (t : str) : ResponsePart :=
  {| function_call := None; text := Some t |}.

(** A Gemini stream: a text, two function calls, then one more text *)
Definition two_calls : Stream GeminiChunk :=
  {| chunks :=
       [ {| candidates :=
              [Some [text_part (lit "Looking"); call_part search_call;
                     call_part fetch_call]] |};
         {| candidates := [Some [text_part (lit "tail")]] |} ];
     failure := None |}.

Definition fragment (idx : N) (cid name arguments : option str)
  : GroqToolCallDelta :=
  {| tcd_index := idx; tcd_id := cid;
     tcd_function := Some {| fn_name := name; fn_arguments := arguments |} |}.

Definition groq_text (t : str) : GroqChunk :=
  {| choices := [{| delta_content := Some t; delta_tool_calls := None |}] |}.

Definition groq_calls (l : list GroqToolCallDelta) : GroqChunk :=
  {| choices := [{| delta_content := None; delta_tool_calls := Some l |}] |}.

(** A Groq stream: a text, the call of index 1 announced before that of
    index 0, the arguments of call 1 in two fragments, one more text *)
Definition two_fragmented_calls : Stream GroqChunk :=
  {| chunks :=
       [ groq_text (lit "Looking");
         groq_calls [fragment 1 (Some (lit "call_b")) (Some (lit "fetch")) None];
         groq_calls [fragment 0 (Some (lit "call_a")) (Some (lit "search"))
                       (Some (lit "{}"))];
         groq_calls [fragment 1 None None (Some (lit "{url:"))];
         groq_calls [fragment 1 None None (Some (lit "1}"))];
         groq_text (lit "tail") ];
     failure := None |}.

(** A [json.loads] that accepts the text of an empty object only *)
Definition loads_empty_object (s : str) : option json :=
  if str_eqb s (lit "{}") then Some (JObj []) else None.

Definition text_stream {A} (c : A) : Stream A :=
  {| chunks := [c]; failure := None |}.

(** Both providers configured; each answers any request with one text *)
Definition both_providers : Runtime :=
  {| groq_async_client := Some (fun _ => text_stream (groq_text (lit "Hi")));
     gemini_client :=
       Some (fun _ => text_stream
                        {| candidates := [Some [text_part (lit "Hi")]] |});
     ACTIVE_PROVIDER := Some (lit "groq");
     json_loads := loads_empty_object;
     dumps := fun _ => lit "{}";
     str_exn := message_of;
     function_declaration := accepts_declaration;
     part_from_function_call := refuses_non_dict |}.

(** Both providers configured; each answers with tool calls *)
Definition tool_providers : Runtime :=
  {| groq_async_client := Some (fun _ => two_fragmented_calls);
     gemini_client := Some (fun _ => two_calls);
     ACTIVE_PROVIDER := Some (lit "groq");
     json_loads := loads_empty_object;
     dumps := fun _ => lit "{}";
     str_exn := message_of;
     function_declaration := accepts_declaration;
     part_from_function_call := refuses_non_dict |}.

Definition hello : Message :=
  message_of_row (row_of (lit "s1") (turn (lit "m1") (lit "hello")) (lit "u0") 1).

Definition uuids (n : nat) : str := lit "uuid-" +++ str_of_N (N.of_nat n).

(** A user turn without content, as [chat_endpoint] stores it for a
    message whose content is the empty string *)
Definition blank_turn : Message :=
  message_of_row (row_of (lit "s1") (turn (lit "m1") []) (lit "u0") 1).

Definition quoted_request : ExecuteToolRequest :=
  {| req_session_id := lit "s1"; req_tool_call_id := lit "call_8";
     req_tool_name := lit "it's";
     req_tool_args := JObj [] |}.

Definition script_params : StdioServerParameters :=
  {| command := lit "/usr/bin/python3";
     args := [lit "/srv/server.py"];
     env := [(lit "PYTHONUNBUFFERED", lit "1")] |}.

End Demo.

(* ------------------------------------------------------------------ *)
(** ** Predicates used in the statements *)

Module Spec.

Import Catalog Manager Database Orchestrator Endpoints.

(** The local exit stack holds exactly what was opened on top of the
    resources [base] that were open before the attempt *)
Definition tracks (base : list (handle * Resource)) (f : Frame) : Prop :=
  exists entries,
    live (world f) = entries ++ base /\ map fst entries = stack f.

(** A step that keeps the stack in step with the open resources and does
    not touch the registry *)
Definition keeps {A} (m : M Frame A) : Prop :=
  forall base f r f',
    m f = (r, f') -> tracks base f ->
    tracks base f' /\ connections f' = connections f.

(** A step that may write the registry, but not when it raises *)
Definition registers_last {A} (m : M Frame A) : Prop :=
  forall base f r f',
    m f = (r, f') -> tracks base f ->
    tracks base f' /\ (forall e, r = Raise e -> connections f' = connections f).

(** A relayed text delta *)
Definition text_yield (a : Action) : Prop := exists c, a = Yield (EvText c).

(** The text relayed by a run, deltas concatenated *)
Definition relayed (actions : list Action) : str :=
  flat_map (fun a => match a with Yield (EvText c) => c | _ => [] end) actions.

(** A Groq chunk whose first choice carries tool-call fragments *)
Definition groq_chunk_has_call (c : GroqChunk) : bool :=
  match choices c with
  | delta :: _ =>
      match delta_tool_calls delta with
      | Some (_ :: _) => true
      | _ => false
      end
  | [] => false
  end.

(** The Groq stream delivered at least one tool-call fragment *)
Definition groq_has_call (cs : list GroqChunk) : bool :=
  existsb groq_chunk_has_call cs.

(** What the Gemini stream holds up to its first function call: no call
    at all, a first call, or before any call a candidate without parts *)
Inductive Scan :=
| NoCall
| Call (fc : FunctionCall)
| Broken.

Fixpoint scan_parts (parts : list ResponsePart) : Scan :=
  match parts with
  | [] => NoCall
  | p :: rest =>
      match function_call p with
      | Some fc => Call fc
      | None => scan_parts rest
      end
  end.

Fixpoint scan_chunks (cs : list GeminiChunk) : Scan :=
  match cs with
  | [] => NoCall
  | c :: rest =>
      match candidates c with
      | [] => scan_chunks rest
      | None :: _ => Broken
      | Some parts :: _ =>
          match scan_parts parts with
          | NoCall => scan_chunks rest
          | found => found
          end
      end
  end.

(** Every function call that the first candidates of a Gemini stream
    deliver *)
Definition gemini_stream_calls (cs : list GeminiChunk) : list FunctionCall :=
  flat_map
    (fun c =>
       match candidates c with
       | Some parts :: _ =>
           flat_map (fun p => match function_call p with
                              | Some fc => [fc]
                              | None => []
                              end) parts
       | _ => []
       end) cs.

(** The Gemini loop state after some more text deltas *)
Definition extend (st : GeminiLoop) (texts : list Action) : GeminiLoop :=
  {| g_final_text := g_final_text st +++ relayed texts;
     g_emitted := g_emitted st ++ texts |}.

(** The loop state when the generator returns at a function call *)
Definition with_call (session_id call_id fresh : str) (st : GeminiLoop)
    (fc : FunctionCall) (a : json) : GeminiLoop :=
  let tool_data := {| tc_id := call_id; tc_name := fc_name fc; tc_args := a |} in
  {| g_final_text := g_final_text st;
     g_emitted := g_emitted st ++
       [Yield (EvToolApprovalRequest tool_data);
        AddMessage session_id
          (assistant_turn (lit "model") fresh (g_final_text st) (Some [tool_data]));
        Yield EvDone] |}.

(** How the Gemini loop ends, from what the stream holds and the text
    deltas relayed on the way *)
Definition outcome (session_id call_id fresh : str) (st : GeminiLoop)
    (texts : list Action) (found : Scan) : Flow :=
  match found with
  | NoCall => Continue (extend st texts)
  | Call fc =>
      match fc_args fc with
      | Some a => Returned (with_call session_id call_id fresh (extend st texts) fc a)
      | None =>
          Failed (TypeError (lit "'NoneType' object is not iterable"))
            (extend st texts)
      end
  | Broken =>
      Failed (TypeError (lit "'NoneType' object is not iterable"))
        (extend st texts)
  end.

(** The kinds of canonical event *)
Inductive Shape :=
| SText
| SToolApprovalRequest
| SToolResult
| SError
| SDone.

Definition shape (e : Event) : Shape :=
  match e with
  | EvText _ => SText
  | EvToolApprovalRequest _ => SToolApprovalRequest
  | EvToolResult _ _ => SToolResult
  | EvError _ => SError
  | EvDone => SDone
  end.

Definition shapes (actions : list Action) : list Shape :=
  map shape (events actions).




(** *** What a provider stream delivers *)

(** The lines that relay text deltas *)
Definition text_events (texts : list str) : list Action :=
  map (fun t => Yield (EvText t)) texts.

(** The text delta of a Groq chunk: the content of its first choice, when
    there is one and it is not empty *)
Definition chunk_text (c : GroqChunk) : list str :=
  match choices c with
  | delta :: _ =>
      match nonempty (delta_content delta) with
      | Some t => [t]
      | None => []
      end
  | [] => []
  end.

(** The text deltas of a Groq stream, in arrival order *)
Definition groq_deltas (cs : list GroqChunk) : list str :=
  flat_map chunk_text cs.

(** The tool-call fragments that a Groq stream delivers, in arrival order *)
Definition stream_fragments (cs : list GroqChunk) : list GroqToolCallDelta :=
  flat_map (fun c => match choices c with
                     | delta :: _ =>
                         match delta_tool_calls delta with
                         | Some tcs => tcs
                         | None => []
                         end
                     | [] => []
                     end) cs.

(** The identifier, the name and the argument text that a fragment
    carries *)
Definition fragment_id (tc : GroqToolCallDelta) : option str :=
  nonempty (tcd_id tc).

Definition fragment_name (tc : GroqToolCallDelta) : option str :=
  match tcd_function tc with
  | Some fn => nonempty (fn_name fn)
  | None => None
  end.

Definition fragment_arguments (tc : GroqToolCallDelta) : str :=
  match tcd_function tc with
  | Some fn => match nonempty (fn_arguments fn) with Some a => a | None => [] end
  | None => []
  end.

(** The fragments of one stream index, in arrival order *)
Definition fragments_of (idx : N) (tcs : list GroqToolCallDelta)
  : list GroqToolCallDelta :=
  filter (fun tc => N.eqb (tcd_index tc) idx) tcs.

(** The indices of a list of fragments, each at its first appearance *)
Fixpoint first_seen (seen : list N) (tcs : list GroqToolCallDelta) : list N :=
  match tcs with
  | [] => []
  | tc :: rest =>
      if existsb (N.eqb (tcd_index tc)) seen then first_seen seen rest
      else tcd_index tc :: first_seen (seen ++ [tcd_index tc]) rest
  end.

(** The last value that a list of optional values holds *)
Fixpoint last_some {A} (l : list (option A)) : option A :=
  match l with
  | [] => None
  | x :: rest =>
      match last_some rest with
      | Some y => Some y
      | None => x
      end
  end.

(** The tool call that the fragments of index [idx] add up to: the last
    identifier and the last name that a fragment carried (empty when none
    did), and the argument texts, concatenated and parsed; a text that
    [json.loads] rejects stands for no arguments *)
Definition assembled_call (R : Runtime) (fragments : list GroqToolCallDelta)
    (idx : N) : ToolCall :=
  let own := fragments_of idx fragments in
  {| tc_id := or_default (last_some (map fragment_id own)) [];
     tc_name := or_default (last_some (map fragment_name own)) [];
     tc_args := match json_loads R (flat_map fragment_arguments own) with
                | Some v => v
                | None => JObj []
                end |}.

(** The tool calls of a Groq stream, in the order in which their indices
    first appear *)
Definition accumulated_calls (R : Runtime) (cs : list GroqChunk) : list ToolCall :=
  map (assembled_call R (stream_fragments cs))
      (first_seen [] (stream_fragments cs)).

(** The texts of the parts that come before the first function call *)
Fixpoint part_texts (parts : list ResponsePart) : list str :=
  match parts with
  | [] => []
  | p :: rest =>
      match function_call p with
      | Some _ => []
      | None =>
          match nonempty (text p) with
          | Some t => t :: part_texts rest
          | None => part_texts rest
          end
      end
  end.

(** The text deltas of a Gemini stream up to its first function call or
    its first candidate without parts *)
Fixpoint texts_before_call (cs : list GeminiChunk) : list str :=
  match cs with
  | [] => []
  | c :: rest =>
      match candidates c with
      | [] => texts_before_call rest
      | None :: _ => []
      | Some parts :: _ =>
          part_texts parts ++
          match scan_parts parts with
          | NoCall => texts_before_call rest
          | _ => []
          end
      end
  end.


(** The turn that a provider path stores *)
Definition stored_reply (role fresh content : str) (calls : option (list ToolCall))
  : MsgData :=
  {| m_id := Some fresh; m_role := Some role; m_content := Some content;
     m_is_tool_result := None; m_tool_call_id := None;
     m_thought_signature := None; m_image := None; m_toolCalls := calls |}.

(** The exception of the first function call that the SDK refuses *)
Fixpoint first_refusal (R : Runtime) (calls : list ToolCall) : option exn :=
  match calls with
  | [] => None
  | tc :: rest =>
      match part_from_function_call R (tc_name tc) (tc_args tc) with
      | Some e => Some e
      | None => first_refusal R rest
      end
  end.

(** What [dict(None)] raises *)
Definition none_not_iterable : exn :=
  TypeError (lit "'NoneType' object is not iterable").


(** *** The regular expression of the Gemini translation *)

(** [content] holds, after [pre], a match of [Tool '([^']+)' Output:]
    whose group is [group] *)
Definition tool_output_match (content pre group : str) : Prop :=
  exists post,
    content = pre +++ lit "Tool '" +++ group +++ lit "' Output:" +++ post /\
    group <> [] /\ ~ In quote group.

(** *** Thousands separators *)

(** A digit string with a comma before every group of three digits,
    counted from the right *)
Fixpoint separated (digits : str) : str :=
  match digits with
  | [] => []
  | d :: rest =>
      d :: (if negb (Nat.eqb (List.length rest) 0) &&
               Nat.eqb (List.length rest mod 3) 0
            then [44] else []) ++ separated rest
  end.

(** The decimal numeral of [n] with thousands separators *)
Definition thousands (n : N) : str := separated (str_of_N n).

(** The banner that follows a truncated result of [original_length]
    characters *)
Definition banner (original_length : N) : str :=
  nl +++ nl +++
  repeat 61 60 +++ nl +++
  [9888; 65039] +++ lit "  OUTPUT TRUNCATED FOR PERFORMANCE" +++ nl +++
  repeat 61 60 +++ nl +++
  [128202] +++ lit " Original length: " +++ thousands original_length +++
    lit " characters" +++ nl +++
  [128202] +++ lit " Displayed: 8,000 characters" +++ nl +++
  [128161] +++ lit " Tip: Ask me to summarize or extract specific parts" +++ nl +++
  repeat 61 60.

End Spec.

(* ------------------------------------------------------------------ *)
(** ** More of the service: reads, shutdown, providers, chat, sessions *)

Module Service.

Import Catalog Manager Database Orchestrator Endpoints.

(** *** [read_resource] and [get_prompt] *)

(** An item of [result.contents]: one with a [text] attribute, one with a
    [blob] attribute (and its optional [mimeType]), or one with neither *)
Inductive ResourceContents :=
| TextResourceContents (text : str)
| BlobResourceContents (mimeType : option str)
| OtherContents.

(** A call made on a session *)
Inductive SessionCall :=
| ReadResource (session : handle) (uri : str)
| GetPrompt (session : handle) (name : str) (arguments : option (list (str * str))).

(** The two session methods; a prompt message is given by the [text] of
    its content, [None] when the content has no such attribute *)
Record Sdk := {
  session_read_resource : handle -> str -> result (list ResourceContents);
  session_get_prompt :
    handle -> str -> option (list (str * str)) -> result (list (option str))
}.

(** [f"{x}"] for an optional string *)
Definition format_optional (o : option str) : str :=
  match o with Some s => s | None => lit "None" end.

(** The body of [for item in result.contents] *)
Definition render_resource (item : ResourceContents) : list str :=
  match item with
  | TextResourceContents text => [text]
  | BlobResourceContents mimeType =>
      [lit "[Binary Blob: " +++ format_optional mimeType +++ lit "]"]
  | OtherContents => []
  end.

Definition call_read_resource (S : Sdk) (s : handle) (uri : str)
  : M (list SessionCall) (list ResourceContents) :=
  fun calls => (session_read_resource S s uri, calls ++ [ReadResource s uri]).

(** [ConnectionManager.read_resource] *)
Definition read_resource (S : Sdk) (conns : registry) (connection_id uri : str)
  : M (list SessionCall) str :=
  match dict_get str_eqb conns connection_id with
  | None => raise (ValueError (lit "Connection not found"))
  | Some conn =>
      result <- call_read_resource S (session conn) uri ;;
      ret (join (nl +++ nl) (flat_map render_resource result))
  end.

Definition call_get_prompt (S : Sdk) (s : handle) (name : str)
    (args : option (list (str * str)))
  : M (list SessionCall) (list (option str)) :=
  fun calls => (session_get_prompt S s name args, calls ++ [GetPrompt s name args]).

(** [ConnectionManager.get_prompt] *)
Definition get_prompt (S : Sdk) (conns : registry) (connection_id name : str)
    (args : option (list (str * str))) : M (list SessionCall) str :=
  match dict_get str_eqb conns connection_id with
  | None => raise (ValueError (lit "Connection not found"))
  | Some conn =>
      result <- call_get_prompt S (session conn) name args ;;
      ret (join nl
             (flat_map (fun content => match content with
                                       | Some text => [text]
                                       | None => []
                                       end) result))
  end.

(** The endpoint [read_resource]: [except Exception as e: raise
    HTTPException(status_code=500, detail=str(e))] *)
Definition read_resource_endpoint (E : Env) (S : Sdk) (conns : registry)
    (connection_id uri : str) : M (list SessionCall) str :=
  try_except (read_resource S conns connection_id uri)
    (fun e => raise (HTTPException 500 (exn_str E e))).

(** The endpoint [get_prompt] *)
Definition get_prompt_endpoint (E : Env) (S : Sdk) (conns : registry)
    (connection_id name : str) (args : option (list (str * str)))
  : M (list SessionCall) str :=
  try_except (get_prompt S conns connection_id name args)
    (fun e => raise (HTTPException 500 (exn_str E e))).

(** *** [shutdown_event] *)

(** [for conn_id in list(manager.connections.keys()): await
    manager.disconnect(conn_id)] *)
Definition shutdown_event (s : World * registry) : World * registry :=
  fold_left (fun s conn_id => disconnect conn_id s) (map fst (snd s)) s.

(** *** The active provider *)

(** Whether [groq_client] and [gemini_client] were initialised, and
    [ACTIVE_PROVIDER] *)
Record Providers := {
  groq_client : bool;
  gemini_ready : bool;
  active_provider : option str
}.

(** The module-level choice: Groq when its client exists, else Gemini when
    its client exists, else none *)
Definition startup (groq gemini : bool) : Providers :=
  {| groq_client := groq;
     gemini_ready := gemini;
     active_provider :=
       if groq then Some (lit "groq")
       else if gemini then Some (lit "gemini")
       else None |}.

(** [switch_provider] *)
Definition switch_provider (p : Providers) (provider : str) : result Providers :=
  if str_eqb provider (lit "groq") && groq_client p then
    Ok {| groq_client := groq_client p; gemini_ready := gemini_ready p;
          active_provider := Some (lit "groq") |}
  else if str_eqb provider (lit "gemini") && gemini_ready p then
    Ok {| groq_client := groq_client p; gemini_ready := gemini_ready p;
          active_provider := Some (lit "gemini") |}
  else
    Raise (HTTPException 400
             (lit "Provider '" +++ provider +++ lit "' not available")).

(** *** [chat_endpoint] *)

Record ChatRun := {
  chat_table : Table;
  chat_title_task : bool;
  chat_actions : list Action
}.

(** [chat_endpoint] with its streamed response run to the end. [provider]
    is the value of [request.config.get("provider") if request.config else
    None]; [uuid 0] is the default identifier computed inside
    [add_message], and the stream draws from [uuid 1] on. The title task
    is only recorded as scheduled. *)
Definition chat_endpoint (R : Runtime) (conns : registry) (t : Table)
    (session_id : str) (new_message : MsgData) (provider : option str)
    (uuid : nat -> str) (now : N) : result ChatRun :=
  match nonempty (ACTIVE_PROVIDER R) with
  | None =>
      Raise (HTTPException 500
        (lit "No LLM provider initialized. Please set GROQ_API_KEY or " +++
         lit "GOOGLE_API_KEY/GOOGLE_CLOUD_PROJECT."))
  | Some _ =>
      let t' := add_message t session_id new_message (uuid 0%nat) now in
      let raw_history := get_messages t' session_id in
      Ok {| chat_table := t';
            chat_title_task := len raw_history <=? 1;
            chat_actions :=
              stream_llm_response R conns session_id raw_history provider
                (fun n => uuid (1 + n)%nat) |}
  end.

(** *** The [sessions] table *)

Record SessionRow := {
  s_id : str;
  s_title : str;
  s_created_at : N
}.

Record Db := {
  db_sessions : list SessionRow;
  db_messages : Table
}.

(** [ChatDatabase.create_session]: a plain INSERT, which fails on an
    identifier that is already a primary key *)
Definition create_session (db : Db) (title fresh : str) (now : N)
  : result (Db * str) :=
  if existsb (fun r => str_eqb (s_id r) fresh) (db_sessions db) then
    Raise (OtherError (lit "UNIQUE constraint failed: sessions.id"))
  else
    Ok ({| db_sessions := db_sessions db ++
                          [{| s_id := fresh; s_title := title;
                              s_created_at := now |}];
           db_messages := db_messages db |}, fresh).

(** [ChatDatabase.delete_session]: both DELETE statements *)
Definition delete_session (db : Db) (sid : str) : Db :=
  {| db_sessions :=
       filter (fun r => negb (str_eqb (s_id r) sid)) (db_sessions db);
     db_messages := Database.delete_session (db_messages db) sid |}.

(** [ChatDatabase.update_session_title] *)
Definition update_session_title (db : Db) (sid title : str) : Db :=
  {| db_sessions :=
       map (fun r => if str_eqb (s_id r) sid
                     then {| s_id := s_id r; s_title := title;
                             s_created_at := s_created_at r |}
                     else r) (db_sessions db);
     db_messages := db_messages db |}.

(** [ORDER BY created_at DESC], read backwards off the index on
    [created_at]: of rows of equal time the one inserted later comes
    first *)
Fixpoint insert_newest_first (r : SessionRow) (sorted : list SessionRow)
  : list SessionRow :=
  match sorted with
  | [] => [r]
  | r' :: rest =>
      if s_created_at r' <=? s_created_at r then r :: sorted
      else r' :: insert_newest_first r rest
  end.

(** [ChatDatabase.get_sessions] *)
Definition get_sessions (db : Db) : list SessionRow :=
  fold_left (fun acc r => insert_newest_first r acc) (db_sessions db) [].

End Service.

(* ------------------------------------------------------------------ *)
(** ** Predicates for the statements about the rest of the service *)

Module Props.

Import Catalog Manager Database Orchestrator Endpoints Spec Service.

(** The tools of the registry with their connection ids, in catalog order *)
Definition catalog_pairs (conns : registry) : list (str * Tool) :=
  flat_map (fun kv => map (pair (fst kv)) (tools (snd kv))) conns.

Definition pair_name (ct : str * Tool) : str :=
  sanitized_name (fst ct) (tool_name (snd ct)).

Definition pair_info (ct : str * Tool) : ToolInfo :=
  {| connection_id := fst ct; real_name := tool_name (snd ct) |}.

(** The last tool, in catalog order, whose catalog name is [k] *)
Definition last_named (k : str) (pairs : list (str * Tool)) : option (str * Tool) :=
  find (fun ct => str_eqb k (pair_name ct)) (rev pairs).

(** The argument text gathered so far under a stream index *)
Definition entry_arguments (buffer : Buffer) (idx : N) : str :=
  match dict_get N.eqb buffer idx with
  | Some e => b_arguments e
  | None => []
  end.

(** The identifier and the name gathered so far under a stream index *)
Definition entry_id (buffer : Buffer) (idx : N) : str :=
  match dict_get N.eqb buffer idx with
  | Some e => b_id e
  | None => []
  end.

Definition entry_name (buffer : Buffer) (idx : N) : str :=
  match dict_get N.eqb buffer idx with
  | Some e => b_name e
  | None => []
  end.

(** What [connect] raises for an exception of [session.initialize()] *)
Definition initialize_cause (e : exn) : exn :=
  match e with
  | TimeoutError =>
      HTTPException 504
        (lit "Connection timeout: Server did not respond within 30 seconds. " +++
         lit "The server may be starting up or not responding to MCP protocol.")
  | HTTPException _ _ => e
  | _ => TypeError (lit "'str' object is not callable")
  end.

(** The active provider, when there is one, names a provider whose client
    exists *)
Definition active_is_ready (p : Providers) : Prop :=
  match active_provider p with
  | None => True
  | Some a =>
      (a = lit "groq" /\ groq_client p = true) \/
      (a = lit "gemini" /\ gemini_ready p = true)
  end.

Definition row_time_le (a b : Row) : Prop := created_at a <= created_at b.

(** The row that [add_message] writes *)
Definition stored_turn (session_id : str) (msg_data : MsgData) (fresh : str)
    (now : N) : Message :=
  message_of_row (row_of session_id msg_data fresh now).

(** The line that a request gets when its provider cannot serve it *)
Definition unavailable_detail (provider : str) : str :=
  if str_eqb provider (lit "groq") then lit "Groq client not initialized"
  else if str_eqb provider (lit "gemini") then lit "Gemini client not initialized"
  else lit "No LLM provider available".

(** The tool-result message that the execution endpoint stores, as
    [get_messages] returns it *)
Definition stored_tool_result (req : ExecuteToolRequest) (result_text fresh : str)
    (now : N) : Message :=
  message_of_row
    (row_of (req_session_id req) (tool_result_turn req result_text fresh) fresh now).

(** The head that the execution endpoint puts before a result *)
Definition output_prefix (tool : str) : str :=
  lit "Tool '" +++ tool +++ lit "' Output:" +++ nl.

End Props.

(* ------------------------------------------------------------------ *)
(** ** More concrete inputs, for the examples of the second part *)

Module Samples.

Import Catalog Manager Database Orchestrator Endpoints Spec Service Props.

(** The server of [Demo.server] whose three discovery calls raise *)
Definition silent_server : Env :=
  let E := Demo.server (fun _ => None) (Raise TimeoutError) in
  {| cwd := cwd E; path_isabs := path_isabs E; path_join := path_join E;
     path_basename := path_basename E; path_dirname := path_dirname E;
     path_exists := path_exists E; path_abspath := path_abspath E;
     sys_executable := sys_executable E; is_windows := is_windows E;
     os_environ := os_environ E; which := which E;
     shlex_split := shlex_split E;
     enter_outcome := enter_outcome E;
     initialize := initialize E;
     list_tools := fun _ => Raise (OtherError (lit "Method not found"));
     list_resources := fun _ => Raise (OtherError (lit "Method not found"));
     list_prompts := fun _ => Raise (OtherError (lit "Method not found"));
     call_tool := call_tool E;
     exn_str := exn_str E; json_dumps := json_dumps E;
     repr_content := repr_content E |}.

(** The server of [Demo.server] whose [session.initialize()] raises [e] *)
Definition refusing_server (e : exn) : Env :=
  let E := Demo.server (fun _ => None) (Raise TimeoutError) in
  {| cwd := cwd E; path_isabs := path_isabs E; path_join := path_join E;
     path_basename := path_basename E; path_dirname := path_dirname E;
     path_exists := path_exists E; path_abspath := path_abspath E;
     sys_executable := sys_executable E; is_windows := is_windows E;
     os_environ := os_environ E; which := which E;
     shlex_split := shlex_split E;
     enter_outcome := enter_outcome E;
     initialize := fun _ => Some e;
     list_tools := list_tools E;
     list_resources := list_resources E;
     list_prompts := list_prompts E;
     call_tool := call_tool E;
     exn_str := exn_str E; json_dumps := json_dumps E;
     repr_content := repr_content E |}.

Definition plain_server : Env := Demo.server (fun _ => None) (Raise TimeoutError).

(** The server of [Demo.server] on a disk where no path exists *)
Definition empty_disk : Env :=
  let E := Demo.server (fun _ => None) (Raise TimeoutError) in
  {| cwd := cwd E; path_isabs := path_isabs E; path_join := path_join E;
     path_basename := path_basename E; path_dirname := path_dirname E;
     path_exists := fun _ => false; path_abspath := path_abspath E;
     sys_executable := sys_executable E; is_windows := is_windows E;
     os_environ := os_environ E; which := which E;
     shlex_split := shlex_split E;
     enter_outcome := enter_outcome E;
     initialize := initialize E;
     list_tools := list_tools E;
     list_resources := list_resources E;
     list_prompts := list_prompts E;
     call_tool := call_tool E;
     exn_str := exn_str E; json_dumps := json_dumps E;
     repr_content := repr_content E |}.

Definition bare_conn : MCPConnection :=
  {| conn_name := lit "docs"; session := 2%nat; exit_stack := [2; 1; 0]%nat;
     tools := []; resources := []; prompts := [] |}.

(** A Groq stream that relays one text and then raises *)
Definition broken_groq_stream : Stream GroqChunk :=
  {| chunks := [Demo.groq_text (lit "Partial")];
     failure := Some (OtherError (lit "rate limit")) |}.

(** A Gemini stream that relays one text and then raises *)
Definition broken_gemini_stream : Stream GeminiChunk :=
  {| chunks := [{| candidates := [Some [Demo.text_part (lit "Partial")]] |}];
     failure := Some (OtherError (lit "quota")) |}.

Definition failing_providers : Runtime :=
  {| groq_async_client := Some (fun _ => broken_groq_stream);
     gemini_client := Some (fun _ => broken_gemini_stream);
     ACTIVE_PROVIDER := Some (lit "groq");
     json_loads := Demo.loads_empty_object;
     dumps := fun _ => lit "{}";
     str_exn := Demo.message_of;
     function_declaration := Demo.accepts_declaration;
     part_from_function_call := Demo.refuses_non_dict |}.

(** Only the Groq client was initialised *)
Definition groq_only : Runtime :=
  {| groq_async_client :=
       Some (fun _ => Demo.text_stream (Demo.groq_text (lit "Hi")));
     gemini_client := None;
     ACTIVE_PROVIDER := Some (lit "groq");
     json_loads := Demo.loads_empty_object;
     dumps := fun _ => lit "{}";
     str_exn := Demo.message_of;
     function_declaration := Demo.accepts_declaration;
     part_from_function_call := Demo.refuses_non_dict |}.

(** Two sessions with three messages *)
Definition two_sessions : Db :=
  {| db_sessions :=
       [{| s_id := lit "s1"; s_title := lit "New Chat"; s_created_at := 1 |};
        {| s_id := lit "s2"; s_title := lit "New Chat"; s_created_at := 2 |}];
     db_messages :=
       [row_of (lit "s1") (Demo.turn (lit "m1") (lit "hello")) (lit "u0") 3;
        row_of (lit "s2") (Demo.turn (lit "m2") (lit "hi")) (lit "u1") 4;
        row_of (lit "s1") (Demo.turn (lit "m3") (lit "bye")) (lit "u2") 5] |}.

(** Both providers configured, with an SDK that refuses every tool
    declaration *)
Definition strict_declarations : Runtime :=
  {| groq_async_client := groq_async_client Demo.both_providers;
     gemini_client := gemini_client Demo.both_providers;
     ACTIVE_PROVIDER := Some (lit "gemini");
     json_loads := Demo.loads_empty_object;
     dumps := fun _ => lit "{}";
     str_exn := Demo.message_of;
     function_declaration :=
       fun _ _ _ => Some (ValueError (lit "1 validation error for Schema"));
     part_from_function_call := Demo.refuses_non_dict |}.

(** A turn of the assistant that asks for one call whose arguments are a
    list, as [get_messages] returns it *)
Definition list_args_turn : Message :=
  message_of_row
    (row_of (lit "s1")
       (stored_reply (lit "assistant") (lit "m2") []
          (Some [{| tc_id := lit "call_a"; tc_name := lit "search";
                    tc_args := JArr [] |}]))
       (lit "u1") 2).

End Samples.

(* ================================================================== *)
(** * Properties *)

Import Catalog Manager Database Orchestrator Endpoints Spec.

(** ** Strings and dictionaries *)

Lemma len_app {A} (a b : list A) : len (a ++ b) = len a + len b.
Proof. unfold len. rewrite length_app. lia. Qed.

Lemma len_slice_to_le {A} (n : N) (s : list A) : len (slice_to n s) <= n.
Proof.
  unfold len, slice_to. rewrite length_firstn. lia.
Qed.

Lemma len_slice_to_exact {A} (n : N) (s : list A) :
  n <= len s -> len (slice_to n s) = n.
Proof.
  unfold len, slice_to. intros H. rewrite length_firstn. lia.
Qed.

Lemma slice_to_all {A} (n : N) (s : list A) : len s <= n -> slice_to n s = s.
Proof.
  unfold len, slice_to. intros H. apply firstn_all2. lia.
Qed.

Lemma forallb_firstn {A} (p : A -> bool) (n : nat) (l : list A) :
  forallb p l = true -> forallb p (firstn n l) = true.
Proof.
  revert n. induction l as [|x l IH]; intros [|n] H; simpl in *; auto.
  apply andb_true_iff in H as [Hx Hl]. rewrite Hx. simpl. auto.
Qed.

Lemma str_eqb_refl (s : str) : str_eqb s s = true.
Proof. induction s as [|c s IH]; simpl; auto. rewrite N.eqb_refl. exact IH. Qed.

Lemma str_eqb_eq (a b : str) : str_eqb a b = true <-> a = b.
Proof.
  split.
  - revert b. induction a as [|x a IH]; intros [|y b] H; simpl in H;
      try discriminate; auto.
    apply andb_true_iff in H as [Hx Hr]. apply N.eqb_eq in Hx.
    f_equal; auto.
  - intros ->. apply str_eqb_refl.
Qed.

(** ** The catalog projection *)

Lemma re_sub_nonword_word (raw : str) :
  forallb is_word (re_sub_nonword raw) = true.
Proof.
  unfold re_sub_nonword. induction raw as [|c raw IH]; simpl; auto.
  rewrite IH, andb_true_r. destruct (is_word c) eqn:Hc; auto.
Qed.

Lemma isalpha_word (c : char) : isalpha c = true -> is_word c = true.
Proof.
  unfold isalpha, is_word. intros H. apply orb_true_iff in H as [H|H];
    rewrite H; simpl; auto. rewrite orb_true_r. reflexivity.
Qed.

Lemma re_sub_nonword_raw_name (conn_id tool : str) :
  exists c rest, re_sub_nonword (raw_name conn_id tool) = c :: rest.
Proof.
  unfold raw_name, re_sub_nonword. destruct conn_id; simpl; eauto.
Qed.

(** Before the cut the name starts with a letter and holds word
    characters only *)
Lemma prefixed_shape (conn_id tool : str) :
  exists c rest,
    prefixed (raw_name conn_id tool) = c :: rest /\
    isalpha c = true /\ forallb is_word rest = true.
Proof.
  unfold prefixed.
  destruct (re_sub_nonword_raw_name conn_id tool) as (c & rest & E).
  pose proof (re_sub_nonword_word (raw_name conn_id tool)) as W.
  rewrite E in *. simpl in W.
  destruct (isalpha c) eqn:Hc; simpl.
  - exists c, rest. apply andb_true_iff in W as [_ W]. auto.
  - exists 97, (lit "ction_" +++ c :: rest). repeat split. simpl.
    exact W.
Qed.

Lemma sanitized_name_matches (conn_id tool : str) :
  matches_name_pattern (sanitized_name conn_id tool) = true.
Proof.
  unfold sanitized_name, sanitize.
  destruct (prefixed_shape conn_id tool) as (c & rest & E & Ha & Hw).
  rewrite E.
  assert (S : slice_to 63 (c :: rest) = c :: firstn 62 rest) by reflexivity.
  pose proof (len_slice_to_le 63 (c :: rest)) as L.
  rewrite S in *. unfold matches_name_pattern.
  rewrite Ha, (forallb_firstn _ _ _ Hw). simpl.
  apply N.leb_le. exact L.
Qed.

Lemma re_sub_nonword_len (raw : str) : len (re_sub_nonword raw) = len raw.
Proof. unfold len, re_sub_nonword. rewrite length_map. reflexivity. Qed.

Lemma prefixed_len_ge (raw : str) : len (re_sub_nonword raw) <= len (prefixed raw).
Proof.
  unfold prefixed. destruct (re_sub_nonword raw) as [|c r]; [lia|].
  destruct (isalpha c); simpl negb; cbv iota; [lia|].
  rewrite len_app. lia.
Qed.

Lemma fold_add_tool (conn_id : str) (ts : list Tool) (acc : list ToolDef * tool_map_t) :
  fst (fold_left (add_tool conn_id) ts acc) = fst acc ++ map (tool_def conn_id) ts.
Proof.
  revert acc. induction ts as [|t ts IH]; intros [all tm]; simpl.
  - rewrite app_nil_r. reflexivity.
  - rewrite IH. simpl. rewrite <- app_assoc. reflexivity.
Qed.

Lemma get_all_tools_from_defs (conns : list (str * list Tool)) (acc : list ToolDef * tool_map_t) :
  fst (fold_left
         (fun acc '(conn_id, tools) => fold_left (add_tool conn_id) tools acc)
         conns acc)
  = fst acc ++ flat_map (fun kv => map (tool_def (fst kv)) (snd kv)) conns.
Proof.
  revert acc. induction conns as [|[id ts] conns IH]; intros acc; simpl.
  - rewrite app_nil_r. reflexivity.
  - rewrite IH, fold_add_tool, <- app_assoc. reflexivity.
Qed.

(** The catalog is the list of the definitions of every tool of every
    registered connection, in registry order *)
Lemma get_all_tools_defs (conns : registry) :
  fst (get_all_tools conns)
  = flat_map (fun kv => map (tool_def (fst kv)) (tools (snd kv))) conns.
Proof.
  unfold get_all_tools, get_all_tools_from.
  rewrite get_all_tools_from_defs. simpl.
  induction conns as [|[id c] conns IH]; simpl; auto.
  rewrite IH. reflexivity.
Qed.

(** C4. Every name of the catalog that [get_all_tools] returns belongs to
    a tool of a registered connection, matches
    [[A-Za-z][A-Za-z0-9_]{0,62}], and is exactly 63 characters long
    whenever the sanitized form of [connectionId + "__" + originalName]
    (with or without the [action_] prefix) is longer than 63. *)
Theorem get_all_tools_names_wellformed (conns : registry) (d : ToolDef) :
  In d (fst (get_all_tools conns)) ->
  exists conn_id conn tool,
    In (conn_id, conn) conns /\ In tool (tools conn) /\
    name d = sanitized_name conn_id (tool_name tool) /\
    matches_name_pattern (name d) = true /\
    (63 < len (re_sub_nonword (raw_name conn_id (tool_name tool))) ->
     len (name d) = 63) /\
    (63 < len (prefixed (raw_name conn_id (tool_name tool))) ->
     len (name d) = 63).
Proof.
  rewrite get_all_tools_defs. intros H.
  apply in_flat_map in H as ([id c] & Hc & Hd). simpl in Hd.
  apply in_map_iff in Hd as (t & <- & Ht).
  exists id, c, t. repeat split; auto.
  - apply sanitized_name_matches.
  - intros L. simpl. unfold sanitized_name, sanitize.
    apply len_slice_to_exact.
    pose proof (prefixed_len_ge (raw_name id (tool_name t))). lia.
  - intros L. simpl. unfold sanitized_name, sanitize.
    apply len_slice_to_exact. lia.
Qed.

Example sanitized_name_docs :
  sanitized_name (lit "docs") (lit "search-index.v2") = lit "docs__search_index_v2".
Proof. reflexivity. Qed.

Example sanitized_name_digit_first :
  sanitized_name (lit "9lives") (lit "get") = lit "action_9lives__get".
Proof. reflexivity. Qed.

Lemma get_all_tools_names_wellformed_witness :
  exists conn_id conn tool,
    In (conn_id, conn) Demo.conns /\ In tool (tools conn) /\
    name Demo.search_def = sanitized_name conn_id (tool_name tool) /\
    matches_name_pattern (name Demo.search_def) = true /\
    (63 < len (re_sub_nonword (raw_name conn_id (tool_name tool))) ->
     len (name Demo.search_def) = 63) /\
    (63 < len (prefixed (raw_name conn_id (tool_name tool))) ->
     len (name Demo.search_def) = 63).
Proof.
  apply (get_all_tools_names_wellformed Demo.conns Demo.search_def).
  simpl. left. reflexivity.
Defined.

(** ** [execute_tool]: the shape of a successful result *)

Example format_thousands_8001 : format_thousands 8001 = lit "8,001".
Proof. reflexivity. Qed.

Example format_thousands_max : format_thousands MAX_TOOL_RESULT_LENGTH = lit "8,000".
Proof. reflexivity. Qed.

Example format_thousands_million : format_thousands 1234567 = lit "1,234,567".
Proof. reflexivity. Qed.

Example format_thousands_small : format_thousands 999 = lit "999".
Proof. reflexivity. Qed.

(** Three digits more at the end put one comma before them *)
Lemma separated_app3 (x : str) (a b c : char) :
  x <> [] -> separated (x ++ [a; b; c]) = separated x ++ 44 :: [a; b; c].
Proof.
  induction x as [|e x IH]; intros Hx; [contradiction|].
  destruct x as [|e' x].
  - reflexivity.
  - remember (e' :: x) as y eqn:Hy.
    assert (Hlen : exists k, List.length y = S k)
      by (subst y; eexists; reflexivity).
    destruct Hlen as (k & Hk).
    change ((e :: y) ++ [a; b; c]) with (e :: (y ++ [a; b; c])).
    cbn [separated]. rewrite IH by (subst y; discriminate).
    rewrite length_app, Hk. cbn [List.length].
    replace (S k + 3)%nat with (S k + 1 * 3)%nat by lia.
    rewrite Nat.Div0.mod_add.
    replace (Nat.eqb (S k + 1 * 3) 0) with false
      by (symmetry; apply Nat.eqb_neq; lia).
    cbn [Nat.eqb negb andb app].
    destruct (Nat.eqb (S k mod 3) 0); cbn [app]; rewrite <- ?app_assoc;
      reflexivity.
Qed.

Lemma group3_separated (n : nat) :
  forall l, (List.length l < n)%nat -> rev (group3 l) = separated (rev l).
Proof.
  induction n as [|n IH]; intros l Hlen; [inversion Hlen|].
  destruct l as [|a [|b [|c [|d rest]]]]; try reflexivity.
  change (group3 (a :: b :: c :: d :: rest))
    with (a :: b :: c :: 44 :: group3 (d :: rest)).
  replace (rev (a :: b :: c :: 44 :: group3 (d :: rest)))
    with (rev (group3 (d :: rest)) ++ [44; c; b; a])
    by (cbn [rev]; rewrite <- !app_assoc; reflexivity).
  replace (rev (a :: b :: c :: d :: rest))
    with (rev (d :: rest) ++ [c; b; a])
    by (cbn [rev]; rewrite <- !app_assoc; reflexivity).
  rewrite separated_app3.
  - rewrite IH; [reflexivity|]. simpl in Hlen. simpl. lia.
  - cbn [rev]. destruct (rev rest); discriminate.
Qed.

(** The format option [,] puts a comma before every group of three
    digits counted from the right *)
Lemma format_thousands_separated (n : N) : format_thousands n = thousands n.
Proof.
  unfold format_thousands, thousands.
  rewrite (group3_separated (S (List.length (rev (str_of_N n))))) by lia.
  rewrite rev_involutive. reflexivity.
Qed.

Example thousands_of_million : thousands 1234567 = lit "1,234,567".
Proof. reflexivity. Qed.

Example thousands_of_hundred_thousand : thousands 100000 = lit "100,000".
Proof. reflexivity. Qed.

(** The text appended after a truncated output is the banner with both
    lengths *)
Lemma truncation_banner_text (n : N) : truncation_banner n = banner n.
Proof.
  unfold truncation_banner, banner. rewrite !format_thousands_separated.
  reflexivity.
Qed.

Lemma truncated_nonempty (joined : str) (n : N) :
  exists c r, slice_to MAX_TOOL_RESULT_LENGTH joined +++ truncation_banner n = c :: r.
Proof.
  destruct (slice_to MAX_TOOL_RESULT_LENGTH joined) as [|c r].
  - unfold truncation_banner. simpl. eauto.
  - simpl. eauto.
Qed.

Lemma shape_output_truncated (joined : str) :
  MAX_TOOL_RESULT_LENGTH < len joined ->
  shape_output joined =
    slice_to MAX_TOOL_RESULT_LENGTH joined +++ truncation_banner (len joined).
Proof.
  intros H. unfold shape_output. apply N.ltb_lt in H. rewrite H.
  destruct (truncated_nonempty joined (len joined)) as (c & r & ->).
  reflexivity.
Qed.

Lemma shape_output_nonempty (joined : str) : shape_output joined <> [].
Proof.
  destruct (N.ltb_spec MAX_TOOL_RESULT_LENGTH (len joined)) as [H|H].
  - rewrite shape_output_truncated by exact H.
    destruct (truncated_nonempty joined (len joined)) as (c & r & ->).
    discriminate.
  - unfold shape_output. apply N.ltb_ge in H. rewrite H.
    destruct joined; simpl; discriminate.
Qed.

Lemma shape_output_within (joined : str) :
  len joined <= MAX_TOOL_RESULT_LENGTH -> joined <> [] ->
  shape_output joined = joined.
Proof.
  intros H NE. unfold shape_output.
  apply N.ltb_ge in H. rewrite H. destruct joined; [contradiction|reflexivity].
Qed.

Lemma shape_output_empty : shape_output [] = success_marker.
Proof. reflexivity. Qed.

(** The successful path of [execute_tool] returns the shaped output after
    one call of the tool *)
Lemma execute_tool_success (E : Env) (conns : registry) (unique_name : str)
    (args : json) (tool_map : tool_map_t) (info : ToolInfo)
    (conn : MCPConnection) (result : CallToolResult) (calls : list Invocation) :
  dict_get str_eqb tool_map unique_name = Some info ->
  dict_get str_eqb conns (connection_id info) = Some conn ->
  call_tool E (session conn) (real_name info) args = Ok result ->
  isError result = false ->
  execute_tool E conns unique_name args tool_map calls =
    (Ok (shape_output (joined_output E result)),
     calls ++ [{| inv_session := session conn; inv_tool := real_name info;
                  inv_args := args |}]).
Proof.
  intros Hi Hc Hr He. unfold execute_tool. rewrite Hi, Hc.
  unfold try_except, bind, session_call_tool. rewrite Hr, He. reflexivity.
Qed.

(** C3. A successful execution returns, for a concatenated result of more
    than 8000 characters, its first 8000 characters followed by the banner
    that states the original length and the displayed length, both written
    with thousands separators; a result of exactly 8000 characters
    unchanged; the success marker for an empty result; and never the empty
    string. *)
Theorem execute_tool_truncates (E : Env) (conns : registry) (unique_name : str)
    (args : json) (tool_map : tool_map_t) (info : ToolInfo)
    (conn : MCPConnection) (result : CallToolResult) (calls : list Invocation) :
  dict_get str_eqb tool_map unique_name = Some info ->
  dict_get str_eqb conns (connection_id info) = Some conn ->
  call_tool E (session conn) (real_name info) args = Ok result ->
  isError result = false ->
  exists out calls',
    execute_tool E conns unique_name args tool_map calls = (Ok out, calls') /\
    out <> [] /\
    (8000 < len (joined_output E result) ->
     out = slice_to 8000 (joined_output E result) +++
           banner (len (joined_output E result)) /\
     len (slice_to 8000 (joined_output E result)) = 8000) /\
    (len (joined_output E result) = 8000 -> out = joined_output E result) /\
    (joined_output E result = [] ->
     out = [9989] +++ lit " Success (No output)").
Proof.
  intros Hi Hc Hr He.
  eexists _, _. split; [apply (execute_tool_success E conns unique_name args
    tool_map info conn result calls Hi Hc Hr He)|].
  split; [apply shape_output_nonempty|]. split; [|split].
  - intros L. split.
    + rewrite <- truncation_banner_text. apply shape_output_truncated. exact L.
    + apply len_slice_to_exact. lia.
  - intros L. apply shape_output_within.
    + unfold MAX_TOOL_RESULT_LENGTH. lia.
    + intros Z. rewrite Z in L. discriminate.
  - intros Z. rewrite Z. apply shape_output_empty.
Qed.

Lemma execute_tool_truncates_witness :
  exists out calls',
    execute_tool (Demo.server (fun _ => None) (Ok (Demo.text_result Demo.long_text)))
      Demo.conns (lit "docs__search_index_v2") (JObj [])
      (snd (get_all_tools Demo.conns)) [] = (Ok out, calls') /\
    out = slice_to 8000 Demo.long_text +++ banner 8001.
Proof.
  destruct (execute_tool_truncates
              (Demo.server (fun _ => None) (Ok (Demo.text_result Demo.long_text)))
              Demo.conns (lit "docs__search_index_v2") (JObj [])
              (snd (get_all_tools Demo.conns))
              {| connection_id := lit "docs";
                 real_name := lit "search-index.v2" |}
              Demo.docs_conn (Demo.text_result Demo.long_text) [])
    as (out & calls' & Hrun & _ & Hcut & _).
  - reflexivity.
  - reflexivity.
  - reflexivity.
  - reflexivity.
  - exists out, calls'. split; [exact Hrun|].
    apply Hcut. vm_compute. reflexivity.
Defined.

Example banner_of_8001 :
  banner 8001
  = nl +++ nl +++ repeat 61 60 +++ nl +++
    [9888; 65039] +++ lit "  OUTPUT TRUNCATED FOR PERFORMANCE" +++ nl +++
    repeat 61 60 +++ nl +++
    [128202] +++ lit " Original length: 8,001 characters" +++ nl +++
    [128202] +++ lit " Displayed: 8,000 characters" +++ nl +++
    [128161] +++ lit " Tip: Ask me to summarize or extract specific parts" +++ nl +++
    repeat 61 60.
Proof. reflexivity. Qed.

Example execute_tool_exactly_max :
  execute_tool (Demo.server (fun _ => None)
                  (Ok (Demo.text_result (repeat 120 (N.to_nat 8000)))))
    Demo.conns (lit "docs__search_index_v2") (JObj [])
    (snd (get_all_tools Demo.conns)) []
  = (Ok (repeat 120 (N.to_nat 8000)),
     [{| inv_session := 2%nat; inv_tool := lit "search-index.v2";
         inv_args := JObj [] |}]).
Proof. vm_compute. reflexivity. Qed.

Example execute_tool_empty_output :
  execute_tool (Demo.server (fun _ => None) (Ok (Demo.text_result [])))
    Demo.conns (lit "docs__search_index_v2") (JObj [])
    (snd (get_all_tools Demo.conns)) []
  = (Ok success_marker,
     [{| inv_session := 2%nat; inv_tool := lit "search-index.v2";
         inv_args := JObj [] |}]).
Proof. reflexivity. Qed.

(** ** [execute_tool]: failures are text *)

(** C6. [execute_tool] returns a text for every input and never raises.
    For a name absent from the lookup map, and for a name whose connection
    is not registered, the text is the error message and no tool is
    invoked; an exception of the call and a remote execution error are
    returned as error text too. *)
Theorem execute_tool_never_raises (E : Env) (conns : registry)
    (unique_name : str) (args : json) (tool_map : tool_map_t)
    (calls : list Invocation) :
  exists out calls',
    execute_tool E conns unique_name args tool_map calls = (Ok out, calls') /\
    out <> [] /\
    (dict_get str_eqb tool_map unique_name = None ->
     out = lit "Error: Tool " +++ unique_name +++ lit " not found." /\
     calls' = calls) /\
    (forall info,
       dict_get str_eqb tool_map unique_name = Some info ->
       dict_get str_eqb conns (connection_id info) = None ->
       out = lit "Error: Connection lost." /\ calls' = calls) /\
    (forall info conn,
       dict_get str_eqb tool_map unique_name = Some info ->
       dict_get str_eqb conns (connection_id info) = Some conn ->
       match call_tool E (session conn) (real_name info) args with
       | Raise e => out = cross_mark +++ lit " Tool Exception: " +++ exn_str E e
       | Ok result =>
           if isError result
           then out = lit "Tool Execution Error: " +++
                      repr_content E (Mcp.content result)
           else out = shape_output (joined_output E result)
       end).
Proof.
  unfold execute_tool.
  destruct (dict_get str_eqb tool_map unique_name) as [info|] eqn:Hi.
  - destruct (dict_get str_eqb conns (connection_id info)) as [conn|] eqn:Hc.
    + unfold try_except, bind, session_call_tool, ret.
      destruct (call_tool E (session conn) (real_name info) args)
        as [result|e] eqn:Hr.
      * destruct (isError result) eqn:He.
        -- eexists _, _. split; [reflexivity|]. split; [discriminate|].
           split; [discriminate|]. split.
           ++ intros i Ei Ec. inversion Ei; subst. congruence.
           ++ intros i c Ei Ec. inversion Ei; subst.
              rewrite Hc in Ec. inversion Ec; subst. rewrite Hr, He.
              reflexivity.
        -- eexists _, _. split; [reflexivity|].
           split; [apply shape_output_nonempty|].
           split; [discriminate|]. split.
           ++ intros i Ei Ec. inversion Ei; subst. congruence.
           ++ intros i c Ei Ec. inversion Ei; subst.
              rewrite Hc in Ec. inversion Ec; subst. rewrite Hr, He.
              reflexivity.
      * eexists _, _. split; [reflexivity|]. split; [discriminate|].
        split; [discriminate|]. split.
        -- intros i Ei Ec. inversion Ei; subst. congruence.
        -- intros i c Ei Ec. inversion Ei; subst.
           rewrite Hc in Ec. inversion Ec; subst. rewrite Hr. reflexivity.
    + eexists _, _. split; [reflexivity|]. split; [discriminate|].
      split; [discriminate|]. split.
      * intros i Ei Ec. auto.
      * intros i c Ei Ec. inversion Ei; subst. congruence.
  - eexists _, _. split; [reflexivity|]. split; [discriminate|].
    split; [auto|]. split; intros; discriminate.
Qed.

Lemma execute_tool_never_raises_witness :
  exists out calls',
    execute_tool (Demo.server (fun _ => None) (Raise TimeoutError))
      Demo.conns (lit "nope") (JObj []) (snd (get_all_tools Demo.conns)) []
    = (Ok out, calls') /\
    out = lit "Error: Tool nope not found." /\ calls' = [].
Proof.
  destruct (execute_tool_never_raises
              (Demo.server (fun _ => None) (Raise TimeoutError))
              Demo.conns (lit "nope") (JObj [])
              (snd (get_all_tools Demo.conns)) [])
    as (out & calls' & Hrun & _ & Hunknown & _).
  exists out, calls'. split; [exact Hrun|]. apply Hunknown. reflexivity.
Defined.

Example execute_tool_unknown_name :
  execute_tool (Demo.server (fun _ => None) (Raise TimeoutError))
    Demo.conns (lit "nope") (JObj []) (snd (get_all_tools Demo.conns)) []
  = (Ok (lit "Error: Tool nope not found."), []).
Proof. reflexivity. Qed.

Example execute_tool_connection_gone :
  execute_tool (Demo.server (fun _ => None) (Raise TimeoutError))
    [] (lit "docs__search_index_v2") (JObj [])
    (snd (get_all_tools Demo.conns)) []
  = (Ok (lit "Error: Connection lost."), []).
Proof. reflexivity. Qed.

Example execute_tool_transport_exception :
  execute_tool (Demo.server (fun _ => None) (Raise (OtherError (lit "closed"))))
    Demo.conns (lit "docs__search_index_v2") (JObj [])
    (snd (get_all_tools Demo.conns)) []
  = (Ok (cross_mark +++ lit " Tool Exception: closed"),
     [{| inv_session := 2%nat; inv_tool := lit "search-index.v2";
         inv_args := JObj [] |}]).
Proof. reflexivity. Qed.

(** ** [connect]: failure releases what the attempt opened *)

Create HintDb frame.

Lemma keeps_ret {A} (a : A) : keeps (ret a).
Proof. intros base f r f' H T. inversion H; subst. auto. Qed.

Lemma keeps_raise {A} (e : exn) : keeps (@raise Frame A e).
Proof. intros base f r f' H T. inversion H; subst. auto. Qed.

Lemma keeps_lift {A} (x : result A) : keeps (lift x).
Proof. intros base f r f' H T. inversion H; subst. auto. Qed.

Lemma keeps_get_state : keeps (@get_state Frame).
Proof. intros base f r f' H T. inversion H; subst. auto. Qed.

Lemma keeps_bind {A B} (m : M Frame A) (k : A -> M Frame B) :
  keeps m -> (forall a, keeps (k a)) -> keeps (bind m k).
Proof.
  intros Hm Hk base f r f' H T. unfold bind in H.
  destruct (m f) as [[a|e] f1] eqn:E1.
  - destruct (Hm base f _ _ E1 T) as [T1 C1].
    destruct (Hk a base f1 _ _ H T1) as [T2 C2].
    split; [exact T2|congruence].
  - inversion H; subst. exact (Hm base f _ _ E1 T).
Qed.

Lemma keeps_try_except {A} (m : M Frame A) (h : exn -> M Frame A) :
  keeps m -> (forall e, keeps (h e)) -> keeps (try_except m h).
Proof.
  intros Hm Hh base f r f' H T. unfold try_except in H.
  destruct (m f) as [[a|e] f1] eqn:E1.
  - inversion H; subst. exact (Hm base f _ _ E1 T).
  - destruct (Hm base f _ _ E1 T) as [T1 C1].
    destruct (Hh e base f1 _ _ H T1) as [T2 C2].
    split; [exact T2|congruence].
Qed.

Lemma keeps_enter (E : Env) (r : Resource) : keeps (enter_async_context E r).
Proof.
  intros base f res f' H (entries & L & S). unfold enter_async_context in H.
  destruct (enter_outcome E (List.length (attempts (world f))) r);
    inversion H; subst; clear H; simpl; split; auto.
  - exists entries. auto.
  - exists ((List.length (attempts (world f)), r) :: entries). simpl.
    rewrite L, S. auto.
Qed.

#[local] Hint Resolve keeps_ret keeps_raise keeps_lift keeps_get_state
  keeps_enter : frame.

Lemma keeps_open_transport (E : Env) (t : Transport) (target : str) :
  keeps (open_transport E t target).
Proof.
  destruct t; simpl.
  - apply keeps_bind; auto with frame. intros params.
    apply keeps_bind; auto with frame.
    apply keeps_try_except; auto with frame.
  - apply keeps_try_except; auto with frame.
  - apply keeps_try_except; auto with frame.
Qed.

Lemma keeps_initialize_session (E : Env) (channel : handle) :
  keeps (initialize_session E channel).
Proof.
  unfold initialize_session. apply keeps_try_except.
  - apply keeps_bind; auto with frame. intros s.
    destruct (initialize E s) as [[]|]; auto with frame.
  - intros e. destruct (is_http e); auto with frame.
    apply keeps_bind; auto with frame.
    unfold call_type_parameter. auto with frame.
Qed.

Lemma registers_last_bind {A B} (m : M Frame A) (k : A -> M Frame B) :
  keeps m -> (forall a, registers_last (k a)) -> registers_last (bind m k).
Proof.
  intros Hm Hk base f r f' H T. unfold bind in H.
  destruct (m f) as [[a|e] f1] eqn:E1.
  - destruct (Hm base f _ _ E1 T) as [T1 C1].
    destruct (Hk a base f1 _ _ H T1) as [T2 C2].
    split; [exact T2|]. intros e Er. rewrite (C2 e Er). exact C1.
  - inversion H; subst. destruct (Hm base f _ _ E1 T). auto.
Qed.

(** The registration is the last effect of the [try] block, and nothing
    after it raises *)
Lemma registers_last_register {A} (connection_id : str) (conn : MCPConnection) (a : A) :
  registers_last (modify (register connection_id conn) ;;; ret a).
Proof.
  intros base f r f' H (entries & L & S). unfold bind, modify, ret in H.
  inversion H; subst; clear H. split.
  - exists entries. simpl. auto.
  - intros e Er. discriminate.
Qed.

Lemma registers_last_connect_body (E : Env) (connection_id target type : str) :
  registers_last (connect_body E connection_id target type).
Proof.
  unfold connect_body.
  apply registers_last_bind; auto with frame. intros sel.
  apply registers_last_bind; [apply keeps_open_transport|]. intros channel.
  apply registers_last_bind; [apply keeps_initialize_session|]. intros s.
  apply registers_last_bind; auto with frame. intros f.
  apply registers_last_register.
Qed.

Lemma release_head (h : handle) (r : Resource) (l : list (handle * Resource)) :
  release h ((h, r) :: l) = l.
Proof. simpl. rewrite Nat.eqb_refl. reflexivity. Qed.

(** Closing a stack that tracks the open resources leaves the base *)
Lemma aclose_tracked (entries base : list (handle * Resource)) :
  fold_left (fun l h => release h l) (map fst entries) (entries ++ base) = base.
Proof.
  induction entries as [|[h r] entries IH]; simpl; auto.
  rewrite Nat.eqb_refl. exact IH.
Qed.

(** C1. When [connect] fails, at whatever step, the registry is what it was
    before the call and so are the open resources: everything the attempt
    opened has been closed by the time the error (an HTTP 500) is raised. *)
Theorem connect_failure_releases (E : Env) (connection_id target type : str)
    (w w' : World) (conns conns' : registry) (e : exn) :
  connect E connection_id target type (w, conns) = (Raise e, (w', conns')) ->
  conns' = conns /\ live w' = live w /\
  exists cause,
    e = HTTPException 500 (lit "Connection Failed: " +++ exn_str E cause).
Proof.
  unfold connect, connect_frame, try_except. simpl.
  destruct (connect_body E connection_id target type
              {| world := w; stack := []; connections := conns |})
    as [[summary|cause] f1] eqn:Body.
  - intros H. inversion H.
  - pose proof (registers_last_connect_body E connection_id target type
                  (live w) _ _ _ Body) as Inv.
    destruct Inv as [(entries & L & S) C]; [exists []; simpl; auto|].
    specialize (C cause eq_refl). simpl in C.
    unfold bind, aclose_local, modify, raise. intros H.
    inversion H; subst; clear H. simpl.
    repeat split; eauto.
    rewrite <- S, L. apply aclose_tracked.
Qed.

Lemma connect_failure_releases_witness :
  snd (snd (connect (Demo.server Demo.second_fails (Raise TimeoutError))
              (lit "docs") (lit "server.py") (lit "stdio") (Demo.world0, [])))
    = [] /\
  live {| attempts := [RStdio Demo.script_params; RStdio Demo.script_params];
          live := [] |} = live Demo.world0.
Proof.
  destruct (connect_failure_releases
              (Demo.server Demo.second_fails (Raise TimeoutError))
              (lit "docs") (lit "server.py") (lit "stdio")
              Demo.world0
              {| attempts := [RStdio Demo.script_params; RStdio Demo.script_params];
                 live := [] |}
              [] []
              (HTTPException 500 (lit "Connection Failed: spawn failed")))
    as (Hc & Hl & _).
  - reflexivity.
  - split; [reflexivity | exact Hl].
Defined.

Example connect_unknown_kind_fails :
  connect (Demo.server (fun _ => None) (Raise TimeoutError))
    (lit "docs") (lit "https://example.org/mcp") (lit "websocket")
    (Demo.world0, Demo.conns)
  = (Raise (HTTPException 500
       (lit "Connection Failed: Unknown connection type: websocket")),
     (Demo.world0, Demo.conns)).
Proof. reflexivity. Qed.

(** ** [connect] over stdio: the client context is entered twice *)

Lemma dict_get_set_same {V} (d : @dict str V) (k : str) (v : V) :
  dict_get str_eqb (dict_set str_eqb d k v) k = Some v.
Proof.
  induction d as [|[k' v'] d IH]; simpl.
  - rewrite str_eqb_refl. reflexivity.
  - destruct (str_eqb k k') eqn:Ek; simpl; rewrite Ek; auto.
Qed.



Example connect_stdio_second_launch_fails :
  connect (Demo.server Demo.second_fails (Raise TimeoutError))
    (lit "docs") (lit "server.py") (lit "stdio") (Demo.world0, [])
  = (Raise (HTTPException 500 (lit "Connection Failed: spawn failed")),
     ({| attempts := [RStdio Demo.script_params; RStdio Demo.script_params];
         live := [] |}, [])).
Proof. reflexivity. Qed.

(** ** Transport selection for local scripts *)

Lemma transport_of_stdio : transport_of (lit "stdio") = Some Stdio.
Proof. reflexivity. Qed.

Lemma normalize_py (target type : str) :
  endswith target (lit ".py") = true ->
  contains (lit "gitmcp.io") target = false ->
  normalize target type =
    Ok (if negb (str_eqb type (lit "stdio") || str_eqb type (lit "sse"))
        then lit "stdio" else type, target).
Proof.
  intros Hpy Hgit. unfold normalize. rewrite Hgit, Hpy. simpl.
  destruct (negb _); reflexivity.
Qed.

Lemma connect_mcp_type_py (target type : str) :
  endswith target (lit ".py") = true ->
  connect_mcp_type target type = lit "stdio".
Proof.
  intros Hpy. unfold connect_mcp_type. rewrite Hpy. simpl.
  destruct (str_eqb type (lit "stdio")) eqn:Et; simpl; auto.
  apply str_eqb_eq in Et. exact Et.
Qed.

(** C5, as the code has it. A target that ends in [.py] and does not
    contain [gitmcp.io] is connected over stdio by the endpoint
    ([connect_mcp], then [ConnectionManager.connect]) whatever kind the
    caller supplies, [sse] included, and by [ConnectionManager.connect]
    itself for every supplied kind other than [sse]. A target that contains
    [gitmcp.io] is connected over sse, with any kind and also when it ends
    in [.py]. *)
Theorem py_target_selects_stdio (target type : str) :
  endswith target (lit ".py") = true ->
  (contains (lit "gitmcp.io") target = false ->
   connect_mcp_transport target type = Ok (Stdio, target) /\
   (str_eqb type (lit "sse") = false ->
    select_transport target type = Ok (Stdio, target))) /\
  (contains (lit "gitmcp.io") target = true ->
   exists target',
     select_transport target type = Ok (Sse, target') /\
     connect_mcp_transport target type = Ok (Sse, target')).
Proof.
  intros Hpy. split.
  - intros Hgit. split.
    + unfold connect_mcp_transport. rewrite (connect_mcp_type_py _ _ Hpy).
      unfold select_transport. rewrite (normalize_py _ _ Hpy Hgit).
      reflexivity.
    + intros Hsse. unfold select_transport.
      rewrite (normalize_py _ _ Hpy Hgit), Hsse, orb_false_r.
      destruct (str_eqb type (lit "stdio")) eqn:Et; simpl.
      * apply str_eqb_eq in Et. subst type. reflexivity.
      * reflexivity.
  - intros Hgit. unfold connect_mcp_transport, select_transport, normalize.
    rewrite Hgit. eexists. split; reflexivity.
Qed.

Lemma py_target_selects_stdio_witness :
  connect_mcp_transport (lit "tools_server.py") (lit "sse")
    = Ok (Stdio, lit "tools_server.py") /\
  select_transport (lit "tools_server.py") (lit "http")
    = Ok (Stdio, lit "tools_server.py").
Proof.
  destruct (py_target_selects_stdio (lit "tools_server.py") (lit "sse"))
    as [H _]; [reflexivity|].
  destruct (py_target_selects_stdio (lit "tools_server.py") (lit "http"))
    as [H' _]; [reflexivity|].
  split.
  - apply H. reflexivity.
  - apply H'; reflexivity.
Defined.

(** C5 as stated fails: this target ends in [.py], the caller asks for
    stdio, and both [ConnectionManager.connect] and the endpoint pick the
    event-stream transport. *)
Lemma py_target_on_gitmcp_selects_sse :
  endswith (lit "https://gitmcp.io/acme/tool.py") (lit ".py") = true /\
  select_transport (lit "https://gitmcp.io/acme/tool.py") (lit "stdio")
    = Ok (Sse, lit "https://gitmcp.io/acme/tool.py/sse") /\
  connect_mcp_transport (lit "https://gitmcp.io/acme/tool.py") (lit "stdio")
    = Ok (Sse, lit "https://gitmcp.io/acme/tool.py/sse") /\
  ~ (forall target type,
       endswith target (lit ".py") = true ->
       exists target', select_transport target type = Ok (Stdio, target')).
Proof.
  repeat split; try reflexivity.
  intros H.
  destruct (H (lit "https://gitmcp.io/acme/tool.py") (lit "stdio") eq_refl)
    as (t & Ht).
  discriminate Ht.
Qed.

Example connect_gitmcp_py_opens_sse :
  live (fst (snd (connect (Demo.server (fun _ => None) (Raise TimeoutError))
                    (lit "git") (lit "https://gitmcp.io/acme/tool.py")
                    (lit "stdio") (Demo.world0, []))))
  = [(1%nat, RSession 0%nat);
     (0%nat, RSse (lit "https://gitmcp.io/acme/tool.py/sse"))].
Proof. reflexivity. Qed.

(** The manager alone, asked for sse on a local script, keeps sse; the
    endpoint corrects the kind first *)
Example manager_keeps_sse_for_script :
  select_transport (lit "tools_server.py") (lit "sse")
    = Ok (Sse, lit "tools_server.py") /\
  connect_mcp_transport (lit "tools_server.py") (lit "sse")
    = Ok (Stdio, lit "tools_server.py").
Proof. split; reflexivity. Qed.

(** ** The store: [add_message] is an upsert *)

Lemma filter_all {A} (p : A -> bool) (l : list A) :
  (forall x, In x l -> p x = true) -> filter p l = l.
Proof.
  induction l as [|x l IH]; simpl; intros H; auto.
  rewrite (H x) by auto. f_equal. apply IH. auto.
Qed.

Lemma in_insert_by_time (r x : Row) (sorted : list Row) :
  In x (insert_by_time r sorted) <-> x = r \/ In x sorted.
Proof.
  induction sorted as [|r' rest IH]; simpl.
  - intuition.
  - destruct (created_at r <? created_at r'); simpl; rewrite ?IH; intuition.
Qed.

Lemma in_order_by_fold (x : Row) (rows acc : list Row) :
  In x (fold_left (fun acc r => insert_by_time r acc) rows acc)
  <-> In x rows \/ In x acc.
Proof.
  revert acc. induction rows as [|r rows IH]; intros acc; simpl.
  - intuition.
  - rewrite IH, in_insert_by_time. intuition.
Qed.

Lemma in_order_by_created_at (x : Row) (rows : list Row) :
  In x (order_by_created_at rows) <-> In x rows.
Proof.
  unfold order_by_created_at. rewrite in_order_by_fold. simpl. intuition.
Qed.

Lemma in_get_messages (t : Table) (sid : str) (m : Message) :
  In m (get_messages t sid) <->
  exists r, In r t /\ session_id r = sid /\ message_of_row r = m.
Proof.
  unfold get_messages. rewrite in_map_iff. split.
  - intros (r & Hm & Hr). apply -> in_order_by_created_at in Hr.
    apply filter_In in Hr as [Hr Hs]. apply str_eqb_eq in Hs. eauto.
  - intros (r & Hr & Hs & Hm). exists r. split; auto.
    apply <- in_order_by_created_at. apply filter_In. split; auto.
    apply str_eqb_eq. exact Hs.
Qed.

(** Turns stored under other ids are never touched, new id or not *)
Lemma add_message_keeps_other_ids (t : Table) (sid : str) (msg_data : MsgData)
    (fresh : str) (now : N) (r : Row) :
  In r t -> id r <> id (row_of sid msg_data fresh now) ->
  In r (add_message t sid msg_data fresh now).
Proof.
  intros Hr Hid. unfold add_message, insert_or_replace.
  apply in_or_app. left. apply filter_In. split; auto.
  apply negb_true_iff.
  destruct (str_eqb (id r) (id (row_of sid msg_data fresh now))) eqn:Eq; auto.
  apply str_eqb_eq in Eq. contradiction.
Qed.

(** C8 as stated fails: the message endpoint stores the client's dict under
    the client's id, and a second message with the id of a stored turn
    replaces that turn. *)
Lemma save_message_replaces_turn :
  map msg_content (get_messages Demo.one_turn (lit "s1")) = [lit "first"] /\
  map msg_content
    (get_messages
       (save_message Demo.one_turn (lit "s1")
          (Demo.turn (lit "m1") (lit "second")) (lit "u1") 2)
       (lit "s1")) = [lit "second"] /\
  ~ (forall t sid msg_data fresh now r,
       In r t -> In r (save_message t sid msg_data fresh now)).
Proof.
  split; [reflexivity|]. split; [reflexivity|].
  intros H.
  specialize (H Demo.one_turn (lit "s1") (Demo.turn (lit "m1") (lit "second"))
                (lit "u1") 2
                (row_of (lit "s1") (Demo.turn (lit "m1") (lit "first")) (lit "u0") 1)
                (or_introl eq_refl)).
  destruct H as [H|[]]. discriminate H.
Qed.

(** The same id in another session: the turn leaves its session *)
Example save_message_takes_turn_from_other_session :
  get_messages
    (save_message Demo.one_turn (lit "s2")
       (Demo.turn (lit "m1") (lit "elsewhere")) (lit "u1") 2)
    (lit "s1") = [].
Proof. reflexivity. Qed.

(** ** Tool-result turns and their translation *)

Lemma execute_tool_total (E : Env) (conns : registry) (unique_name : str)
    (args : json) (tool_map : tool_map_t) (calls : list Invocation) :
  exists out calls',
    execute_tool E conns unique_name args tool_map calls = (Ok out, calls').
Proof.
  unfold execute_tool.
  destruct (dict_get str_eqb tool_map unique_name) as [info|]; [|eexists _, _; reflexivity].
  destruct (dict_get str_eqb conns (connection_id info)) as [conn|]; [|eexists _, _; reflexivity].
  unfold try_except, bind, session_call_tool, ret.
  destruct (call_tool E (session conn) (real_name info) args) as [result|e];
    [destruct (isError result)|]; eexists _, _; reflexivity.
Qed.

Lemma span_unquoted_app (group rest : str) :
  ~ In quote group ->
  span_unquoted (group +++ quote :: rest) = (group, quote :: rest).
Proof.
  induction group as [|c group IH]; intros Hq.
  - reflexivity.
  - simpl. destruct (N.eqb c quote) eqn:Ec.
    + apply N.eqb_eq in Ec. exfalso. apply Hq. left. auto.
    + rewrite IH; [reflexivity|]. intros Hin. apply Hq. right. exact Hin.
Qed.

Lemma re_search_here (s g : str) :
  match_tool_output_here s = Some g -> re_search_tool_output s = Some g.
Proof.
  intros H. destruct s as [|c s]; [discriminate H|].
  cbn [re_search_tool_output]. rewrite H. reflexivity.
Qed.

(** The regular expression finds the name at the head of a content that
    the endpoint built *)
Lemma gemini_tool_name_recovered (tool_name result_text : str) :
  tool_name <> [] -> ~ In quote tool_name ->
  gemini_tool_name
    (lit "Tool '" +++ tool_name +++ lit "' Output:" +++ nl +++ result_text)
  = tool_name.
Proof.
  intros Hne Hq. unfold gemini_tool_name.
  rewrite (re_search_here _ tool_name); [reflexivity|].
  unfold match_tool_output_here.
  assert (Shape :
    lit "Tool '" +++ tool_name +++ lit "' Output:" +++ nl +++ result_text
    = 84 :: 111 :: 111 :: 108 :: 32 :: 39 ::
      (tool_name +++ quote :: (lit " Output:" +++ nl +++ result_text)))
    by reflexivity.
  rewrite Shape.
  assert (Head : forall rest,
    startswith (84 :: 111 :: 111 :: 108 :: 32 :: 39 :: rest) (lit "Tool '")
    = true) by reflexivity.
  rewrite Head. cbn [skipn]. rewrite (span_unquoted_app _ _ Hq).
  destruct tool_name; [contradiction|]. reflexivity.
Qed.

Lemma startswith_spec (s p : str) :
  startswith s p = true <-> exists r, s = p ++ r.
Proof.
  revert s. induction p as [|c p IH]; intros s; simpl.
  - split; eauto.
  - destruct s as [|d s].
    + split; [discriminate|]. intros (r & H). discriminate H.
    + rewrite andb_true_iff, IH, N.eqb_eq. split.
      * intros [-> (r & ->)]. exists r. reflexivity.
      * intros (r & H). inversion H. eauto.
Qed.

Lemma span_unquoted_spec (s a b : str) :
  span_unquoted s = (a, b) -> s = a ++ b /\ ~ In quote a.
Proof.
  revert a b. induction s as [|c s IH]; intros a b H; simpl in H.
  - inversion H; subst. split; [reflexivity|intros []].
  - destruct (N.eqb c quote) eqn:Ec.
    + inversion H; subst. split; [reflexivity|intros []].
    + destruct (span_unquoted s) as [a' b'] eqn:Es. inversion H; subst.
      destruct (IH a' b eq_refl) as (Hs & Hq).
      split; [simpl; f_equal; exact Hs|].
      intros [Hc|Hin]; [|exact (Hq Hin)].
      subst c. rewrite N.eqb_refl in Ec. discriminate Ec.
Qed.

(** The matcher at the head of a text finds exactly the matches that
    start there *)
Lemma match_here_spec (s g : str) :
  match_tool_output_here s = Some g <-> tool_output_match s [] g.
Proof.
  unfold match_tool_output_here, tool_output_match. split.
  - destruct (startswith s (lit "Tool '")) eqn:Hs; [|discriminate].
    apply startswith_spec in Hs as (r & ->).
    change (skipn 6 (lit "Tool '" ++ r)) with r.
    destruct (span_unquoted r) as [group rest] eqn:Hr.
    destruct (truthy group && startswith rest (lit "' Output:")) eqn:Hc;
      [|discriminate].
    intros H. inversion H; subst group.
    apply andb_true_iff in Hc as [Hg Hrest].
    apply startswith_spec in Hrest as (post & ->).
    apply span_unquoted_spec in Hr as (-> & Hq).
    exists post. split; [reflexivity|]. split; [|exact Hq].
    intros ->. discriminate Hg.
  - intros (post & -> & Hne & Hq).
    assert (Head : forall rest,
      startswith (84 :: 111 :: 111 :: 108 :: 32 :: 39 :: rest) (lit "Tool '")
      = true) by reflexivity.
    change ([] +++ lit "Tool '" +++ g +++ lit "' Output:" +++ post)
      with (84 :: 111 :: 111 :: 108 :: 32 :: 39 ::
            (g +++ quote :: (lit " Output:" +++ post))).
    rewrite Head. cbn [skipn]. rewrite (span_unquoted_app _ _ Hq).
    destruct g; [contradiction|]. reflexivity.
Qed.

(** [re.search] returns the leftmost match *)
Lemma re_search_leftmost (content pre g : str) :
  tool_output_match content pre g ->
  (forall pre' g', tool_output_match content pre' g' ->
                   (List.length pre <= List.length pre')%nat) ->
  re_search_tool_output content = Some g.
Proof.
  revert content. induction pre as [|c pre IH]; intros content Hm Hleft.
  - apply re_search_here. apply match_here_spec. exact Hm.
  - destruct Hm as (post & Hc & Hne & Hq). subst content.
    change ((c :: pre) +++ lit "Tool '" +++ g +++ lit "' Output:" +++ post)
      with (c :: (pre +++ lit "Tool '" +++ g +++ lit "' Output:" +++ post))
      in *.
    cbn [re_search_tool_output].
    destruct (match_tool_output_here
                (c :: (pre +++ lit "Tool '" +++ g +++ lit "' Output:" +++ post)))
      as [g0|] eqn:Hh.
    + apply match_here_spec in Hh. specialize (Hleft [] g0 Hh).
      simpl in Hleft. lia.
    + apply IH.
      * exists post. repeat split; auto.
      * intros pre' g' (post' & Hc' & Hne' & Hq').
        assert (Hm' : tool_output_match
                        (c :: (pre +++ lit "Tool '" +++ g +++ lit "' Output:" +++ post))
                        (c :: pre') g').
        { exists post'. split; [|split; assumption].
          rewrite Hc'. reflexivity. }
        specialize (Hleft _ _ Hm'). simpl in Hleft. lia.
Qed.

(** ... and nothing when the pattern matches nowhere *)
Lemma re_search_nowhere (content : str) :
  (forall pre g, ~ tool_output_match content pre g) ->
  re_search_tool_output content = None.
Proof.
  induction content as [|c content IH]; intros H.
  - cbn [re_search_tool_output].
    destruct (match_tool_output_here []) as [g|] eqn:Hh; [|reflexivity].
    apply match_here_spec in Hh. destruct (H _ _ Hh).
  - cbn [re_search_tool_output].
    destruct (match_tool_output_here (c :: content)) as [g|] eqn:Hh.
    + apply match_here_spec in Hh. destruct (H _ _ Hh).
    + apply IH. intros pre g (post & Hc & Hne & Hq).
      apply (H (c :: pre) g). exists post. split; [|split; assumption].
      rewrite Hc. reflexivity.
Qed.

(** A name of the catalog is not empty and holds no quote *)
Lemma name_pattern_unquoted (s : str) :
  matches_name_pattern s = true -> s <> [] /\ ~ In quote s.
Proof.
  unfold matches_name_pattern. destruct s as [|c rest]; [discriminate|].
  intros H. apply andb_true_iff in H as [H _].
  apply andb_true_iff in H as [Hc Hrest].
  split; [discriminate|]. intros [Hq|Hq].
  - subst c. discriminate Hc.
  - rewrite forallb_forall in Hrest. specialize (Hrest _ Hq). discriminate Hrest.
Qed.

(** C10, as the code has it. The endpoint always stores one tool-result
    turn, whose result text is what [execute_tool] returned, and
    [get_messages] returns it with role [user], the tool-result flag, the
    originating call id and the content [Tool '<name>' Output:], a newline
    and the result text. Groq's translation turns it into a [tool]
    message with that call id. Gemini's translation turns it into a
    function response of role [user] named by the leftmost match of the
    regular expression in the content, wherever it starts: that is the
    tool name when the name is not empty and holds no quote character, as
    every name of the catalog is, and it is [unknown_tool] when the
    pattern matches nowhere in the content. *)
Theorem tool_result_turn_persisted (E : Env) (R : Runtime) (conns : registry)
    (t : Table) (req : ExecuteToolRequest) (uuid : nat -> str) (now : N) :
  exists run result_text,
    execute_tool E conns (req_tool_name req) (req_tool_args req)
      (snd (get_all_tools conns)) [] = (Ok result_text, run_calls run) /\
    execute_tool_endpoint E R conns t req uuid now = Ok run /\
    let content := lit "Tool '" +++ req_tool_name req +++ lit "' Output:" +++
                   nl +++ result_text in
    let turn :=
      {| m_id := Some (uuid 0%nat); m_role := Some (lit "user");
         m_content := Some content; m_is_tool_result := Some true;
         m_tool_call_id := Some (req_tool_call_id req);
         m_thought_signature := None; m_image := None; m_toolCalls := None |} in
    let m := message_of_row
               (row_of (req_session_id req) turn (uuid 1%nat) now) in
    hd_error (run_actions run) = Some (AddMessage (req_session_id req) turn) /\
    nth_error (run_actions run) 1
      = Some (Yield (EvToolResult (req_tool_name req) result_text)) /\
    run_table run = add_message t (req_session_id req) turn (uuid 1%nat) now /\
    In m (get_messages (run_table run) (req_session_id req)) /\
    msg_id m = uuid 0%nat /\
    msg_role m = lit "user" /\
    msg_is_tool_result m = true /\
    msg_tool_call_id m = Some (req_tool_call_id req) /\
    msg_content m = content /\
    groq_translate R m =
      [GTool (Some (req_tool_call_id req)) (truncate_for_groq content)] /\
    gemini_translate R m =
      Ok [{| gc_role := lit "user";
             gc_parts := [PFunctionResponse (gemini_tool_name content)
                            (truncate_for_gemini content)] |}] /\
    (req_tool_name req <> [] -> ~ In quote (req_tool_name req) ->
     gemini_tool_name content = req_tool_name req) /\
    (forall d, In d (fst (get_all_tools conns)) -> req_tool_name req = name d ->
               gemini_tool_name content = req_tool_name req) /\
    (forall text pre group,
       tool_output_match text pre group ->
       (forall pre' group', tool_output_match text pre' group' ->
                            (List.length pre <= List.length pre')%nat) ->
       gemini_tool_name text = group) /\
    (forall text, (forall pre group, ~ tool_output_match text pre group) ->
                  gemini_tool_name text = lit "unknown_tool").
Proof.
  unfold execute_tool_endpoint.
  destruct (execute_tool_total E conns (req_tool_name req) (req_tool_args req)
              (snd (get_all_tools conns)) []) as (out & calls' & Hrun).
  rewrite Hrun. eexists _, out. refine (conj _ (conj eq_refl _)); [reflexivity|].
  cbn zeta.
  split; [reflexivity|]. split; [reflexivity|]. split; [reflexivity|]. split.
  { apply in_get_messages.
    exists (row_of (req_session_id req)
              (tool_result_turn req out (uuid 0%nat)) (uuid 1%nat) now).
    split; [|split; reflexivity].
    cbn [run_table]. unfold add_message, insert_or_replace.
    apply in_or_app. right. left. reflexivity. }
  split; [reflexivity|]. split; [reflexivity|]. split; [reflexivity|].
  split; [reflexivity|]. split; [reflexivity|]. split; [reflexivity|].
  split; [reflexivity|].
  split; [|split; [|split]].
  - intros Hne Hq. apply (gemini_tool_name_recovered _ _ Hne Hq).
  - intros d Hd Hname.
    destruct (name_pattern_unquoted (req_tool_name req)) as [Hne Hq].
    { rewrite Hname. rewrite get_all_tools_defs in Hd.
      apply in_flat_map in Hd as ([id c] & _ & Hd). simpl in Hd.
      apply in_map_iff in Hd as (tl & <- & _). apply sanitized_name_matches. }
    apply (gemini_tool_name_recovered _ _ Hne Hq).
  - intros text pre group Hm Hleft. unfold gemini_tool_name.
    rewrite (re_search_leftmost _ _ _ Hm Hleft). reflexivity.
  - intros text H. unfold gemini_tool_name.
    rewrite (re_search_nowhere _ H). reflexivity.
Qed.

Lemma tool_result_turn_persisted_witness :
  exists run result_text,
    execute_tool_endpoint (Demo.server (fun _ => None) (Ok (Demo.text_result (lit "3 hits"))))
      Demo.no_providers Demo.conns [] Demo.search_request Demo.uuids 5 = Ok run /\
    gemini_tool_name
      (lit "Tool '" +++ req_tool_name Demo.search_request +++ lit "' Output:" +++
       nl +++ result_text)
    = lit "docs__search_index_v2".
Proof.
  destruct (tool_result_turn_persisted
              (Demo.server (fun _ => None) (Ok (Demo.text_result (lit "3 hits"))))
              Demo.no_providers Demo.conns [] Demo.search_request Demo.uuids 5)
    as (run & result_text & _ & Hrun & H).
  exists run, result_text. split; [exact Hrun|].
  cbn zeta in H.
  destruct H as (_ & _ & _ & _ & _ & _ & _ & _ & _ & _ & _ & Hname & _).
  apply Hname.
  - discriminate.
  - intros Hin. simpl in Hin.
    repeat (destruct Hin as [Hin|Hin]; [discriminate Hin|]). exact Hin.
Defined.

Example tool_result_is_what_the_tool_returned :
  option_map (fun a => nth_error a 1%nat)
    (match execute_tool_endpoint
             (Demo.server (fun _ => None) (Ok (Demo.text_result (lit "3 hits"))))
             Demo.no_providers Demo.conns [] Demo.search_request Demo.uuids 5 with
     | Ok run => Some (run_actions run)
     | Raise _ => None
     end)
  = Some (Some (Yield (EvToolResult (lit "docs__search_index_v2") (lit "3 hits")))).
Proof. reflexivity. Qed.

(** C10 as stated fails for a tool name that holds a quote character: the
    endpoint stores the turn with the prefix in place, and Gemini's
    translation names the function response [unknown_tool]. The second
    part shows that the expression is not tied to the prefix: a
    tool-result content without the prefix still yields a name when the
    pattern occurs further on. *)
Lemma gemini_loses_quoted_tool_name :
  startswith
    (msg_content
       (message_of_row
          (row_of (lit "s1")
             (tool_result_turn Demo.quoted_request (lit "ok") (lit "u0"))
             (lit "u1") 5)))
    (lit "Tool 'it's' Output:") = true /\
  gemini_translate Demo.no_providers
    (message_of_row
       (row_of (lit "s1")
          (tool_result_turn Demo.quoted_request (lit "ok") (lit "u0"))
          (lit "u1") 5))
  = Ok [{| gc_role := lit "user";
           gc_parts := [PFunctionResponse (lit "unknown_tool")
                          (lit "Tool 'it's' Output:" +++ nl +++ lit "ok")] |}] /\
  startswith (lit "see Tool 'x' Output: y") (lit "Tool '") = false /\
  gemini_tool_name (lit "see Tool 'x' Output: y") = lit "x".
Proof. repeat split. Qed.

Example tool_result_turn_for_gemini :
  gemini_translate Demo.no_providers
    (message_of_row
       (row_of (lit "s1")
          (tool_result_turn Demo.search_request (lit "3 hits") (lit "u0"))
          (lit "u1") 5))
  = Ok [{| gc_role := lit "user";
           gc_parts := [PFunctionResponse (lit "docs__search_index_v2")
                          (lit "Tool 'docs__search_index_v2' Output:" +++ nl +++
                           lit "3 hits")] |}].
Proof. reflexivity. Qed.

Example tool_result_turn_for_groq :
  groq_translate Demo.no_providers
    (message_of_row
       (row_of (lit "s1")
          (tool_result_turn Demo.search_request (lit "3 hits") (lit "u0"))
          (lit "u1") 5))
  = [GTool (Some (lit "call_7"))
       (lit "Tool 'docs__search_index_v2' Output:" +++ nl +++ lit "3 hits")].
Proof. reflexivity. Qed.

Example gemini_tool_name_fallback :
  gemini_tool_name (lit "3 hits") = lit "unknown_tool".
Proof. reflexivity. Qed.

(** ** The Groq path: accumulation and the end of the turn *)

Lemma relayed_snoc (l : list Action) (c : str) :
  relayed (l ++ [Yield (EvText c)]) = relayed l +++ c.
Proof. unfold relayed. rewrite flat_map_app. simpl. rewrite app_nil_r. reflexivity. Qed.

Lemma relayed_app (a b : list Action) : relayed (a ++ b) = relayed a +++ relayed b.
Proof. unfold relayed. apply flat_map_app. Qed.

Lemma dict_set_nonempty {K V} (keq : K -> K -> bool) (d : @dict K V) (k : K) (v : V) :
  dict_set keq d k v <> [].
Proof.
  destruct d as [|[k' v'] d]; simpl; [discriminate|].
  destruct (keq k k'); discriminate.
Qed.

Lemma update_entry_nonempty (b : Buffer) (idx : N) (f : BufferEntry -> BufferEntry) :
  b <> [] -> update_entry b idx f <> [].
Proof.
  unfold update_entry. destruct (dict_get N.eqb b idx); auto.
  intros _. apply dict_set_nonempty.
Qed.

(** A fragment always leaves an entry in the buffer *)
Lemma accumulate_nonempty (b : Buffer) (tc : GroqToolCallDelta) :
  accumulate b tc <> [].
Proof.
  unfold accumulate.
  match goal with
  | |- context [if negb (dict_mem N.eqb b ?i) then ?x else b] =>
      set (b1 := if negb (dict_mem N.eqb b i) then x else b)
  end.
  assert (H1 : b1 <> []).
  { subst b1. destruct (dict_mem N.eqb b (tcd_index tc)) eqn:Hm; simpl.
    - intros ->. discriminate Hm.
    - apply dict_set_nonempty. }
  clearbody b1.
  destruct (nonempty (tcd_id tc)), (tcd_function tc) as [fn|];
    try destruct (nonempty (fn_name fn));
    try destruct (nonempty (fn_arguments fn));
    auto using update_entry_nonempty.
Qed.

Lemma fold_accumulate_nonempty (tcs : list GroqToolCallDelta) (b : Buffer) :
  b <> [] \/ tcs <> [] -> fold_left accumulate tcs b <> [].
Proof.
  revert b. induction tcs as [|tc tcs IH]; intros b [H|H]; simpl; auto;
    try (exfalso; apply H; reflexivity);
    apply IH; left; apply accumulate_nonempty.
Qed.

Lemma groq_chunk_keeps_buffer (st : GroqLoop) (c : GroqChunk) :
  tool_calls_buffer st <> [] -> tool_calls_buffer (groq_chunk st c) <> [].
Proof.
  intros H. unfold groq_chunk. destruct (choices c) as [|delta ds]; auto.
  destruct (nonempty (delta_content delta)), (delta_tool_calls delta);
    simpl; auto; apply fold_accumulate_nonempty; auto.
Qed.

Lemma groq_chunk_fills_buffer (st : GroqLoop) (c : GroqChunk) :
  groq_chunk_has_call c = true -> tool_calls_buffer (groq_chunk st c) <> [].
Proof.
  unfold groq_chunk_has_call, groq_chunk. intros H.
  destruct (choices c) as [|delta ds]; [discriminate H|].
  destruct (delta_tool_calls delta) as [[|tc tcs]|]; try discriminate H.
  destruct (nonempty (delta_content delta)); cbn [tool_calls_buffer];
    apply fold_accumulate_nonempty; right; discriminate.
Qed.

Lemma groq_chunk_same_buffer (st : GroqLoop) (c : GroqChunk) :
  groq_chunk_has_call c = false ->
  tool_calls_buffer (groq_chunk st c) = tool_calls_buffer st.
Proof.
  unfold groq_chunk_has_call, groq_chunk. intros H.
  destruct (choices c) as [|delta ds]; auto.
  destruct (delta_tool_calls delta) as [[|tc tcs]|]; try discriminate H;
    destruct (nonempty (delta_content delta)); reflexivity.
Qed.

Lemma groq_fold_keeps_buffer (cs : list GroqChunk) (st : GroqLoop) :
  tool_calls_buffer st <> [] ->
  tool_calls_buffer (fold_left groq_chunk cs st) <> [].
Proof.
  revert st. induction cs as [|c cs IH]; intros st H; simpl; auto.
  apply IH. apply groq_chunk_keeps_buffer. exact H.
Qed.

Lemma groq_fold_fills_buffer (cs : list GroqChunk) (st : GroqLoop) :
  groq_has_call cs = true ->
  tool_calls_buffer (fold_left groq_chunk cs st) <> [].
Proof.
  revert st. induction cs as [|c cs IH]; intros st H; simpl in *.
  - discriminate.
  - destruct (groq_chunk_has_call c) eqn:Hc.
    + apply groq_fold_keeps_buffer. apply groq_chunk_fills_buffer. exact Hc.
    + apply IH. exact H.
Qed.

Lemma groq_fold_same_buffer (cs : list GroqChunk) (st : GroqLoop) :
  groq_has_call cs = false ->
  tool_calls_buffer (fold_left groq_chunk cs st) = tool_calls_buffer st.
Proof.
  revert st. induction cs as [|c cs IH]; intros st H; simpl in *; auto.
  apply orb_false_iff in H as [Hc H].
  rewrite IH by exact H. apply groq_chunk_same_buffer. exact Hc.
Qed.

(** The loop yields text events only, and [final_text] is their text *)
Lemma groq_chunk_texts (st : GroqLoop) (c : GroqChunk) :
  Forall text_yield (emitted st) /\ final_text st = relayed (emitted st) ->
  Forall text_yield (emitted (groq_chunk st c)) /\
  final_text (groq_chunk st c) = relayed (emitted (groq_chunk st c)).
Proof.
  intros [Ht Hf]. unfold groq_chunk. destruct (choices c) as [|delta ds]; auto.
  destruct (nonempty (delta_content delta)) as [t|],
           (delta_tool_calls delta); simpl; auto;
    (split; [apply Forall_app; split; auto; repeat constructor; exists t; reflexivity
            | rewrite relayed_snoc, Hf; reflexivity]).
Qed.

Lemma groq_fold_texts (cs : list GroqChunk) (st : GroqLoop) :
  Forall text_yield (emitted st) /\ final_text st = relayed (emitted st) ->
  Forall text_yield (emitted (fold_left groq_chunk cs st)) /\
  final_text (fold_left groq_chunk cs st)
    = relayed (emitted (fold_left groq_chunk cs st)).
Proof.
  revert st. induction cs as [|c cs IH]; intros st H; simpl; auto.
  apply IH. apply groq_chunk_texts. exact H.
Qed.

(** What [groq_turn] does after the text events of the loop *)
Lemma groq_turn_spec (R : Runtime) (session_id fresh : str) (stream : Stream GroqChunk) :
  let st := fold_left groq_chunk (chunks stream) groq_start in
  Forall text_yield (emitted st) /\
  final_text st = relayed (emitted st) /\
  match failure stream with
  | Some e =>
      groq_turn R session_id fresh stream
        = emitted st ++ [Yield (EvError (str_exn R e))]
  | None =>
      if groq_has_call (chunks stream) then
        exists first rest,
          map (completed_call R) (dict_values (tool_calls_buffer st))
            = first :: rest /\
          groq_turn R session_id fresh stream
            = emitted st ++
              [AddMessage session_id
                 (assistant_turn (lit "assistant") fresh (final_text st)
                    (Some (first :: rest)));
               Yield (EvToolApprovalRequest first);
               Yield EvDone]
      else
        groq_turn R session_id fresh stream
          = emitted st ++
            (if truthy (final_text st) then
               [AddMessage session_id
                  (assistant_turn (lit "assistant") fresh (final_text st) None)]
             else []) ++
            [Yield EvDone]
  end.
Proof.
  intros st.
  destruct (groq_fold_texts (chunks stream) groq_start) as [Ht Hf];
    [split; [constructor|reflexivity]|].
  split; [exact Ht|]. split; [exact Hf|].
  unfold groq_turn. fold st. destruct (failure stream) as [e|]; [reflexivity|].
  unfold groq_finish.
  destruct (groq_has_call (chunks stream)) eqn:Hc.
  - pose proof (groq_fold_fills_buffer (chunks stream) groq_start Hc) as Hb.
    fold st in Hb. destruct (tool_calls_buffer st) as [|[k e] b]; [contradiction|].
    simpl. eexists _, _. split; reflexivity.
  - pose proof (groq_fold_same_buffer (chunks stream) groq_start Hc) as Hb.
    fold st in Hb. rewrite Hb. reflexivity.
Qed.

(** ** The Gemini path: the loop stops at the first function call *)

Lemma extend_nil (st : GeminiLoop) : extend st [] = st.
Proof. destruct st. unfold extend. simpl. rewrite !app_nil_r. reflexivity. Qed.

Lemma extend_extend (st : GeminiLoop) (a b : list Action) :
  extend (extend st a) b = extend st (a ++ b).
Proof.
  unfold extend. simpl. rewrite relayed_app, <- !app_assoc. reflexivity.
Qed.

Lemma extend_one (st : GeminiLoop) (t : str) :
  {| g_final_text := g_final_text st +++ t;
     g_emitted := g_emitted st ++ [Yield (EvText t)] |}
  = extend st [Yield (EvText t)].
Proof. unfold extend. simpl. rewrite app_nil_r. reflexivity. Qed.

Lemma outcome_extend (session_id call_id fresh : str) (st : GeminiLoop)
    (a b : list Action) (found : Scan) :
  outcome session_id call_id fresh (extend st a) b found
  = outcome session_id call_id fresh st (a ++ b) found.
Proof. unfold outcome. rewrite extend_extend. reflexivity. Qed.

Lemma gemini_parts_spec (session_id call_id fresh : str) (parts : list ResponsePart) :
  forall st, exists texts,
    Forall text_yield texts /\
    gemini_parts session_id call_id fresh st parts
    = outcome session_id call_id fresh st texts (scan_parts parts).
Proof.
  induction parts as [|p rest IH]; intros st.
  - exists []. split; [constructor|]. simpl. rewrite extend_nil. reflexivity.
  - cbn [gemini_parts scan_parts]. unfold gemini_part.
    destruct (function_call p) as [fc|].
    + exists []. split; [constructor|]. unfold outcome.
      rewrite extend_nil. destruct (fc_args fc); reflexivity.
    + destruct (nonempty (text p)) as [t|].
      * rewrite extend_one.
        destruct (IH (extend st [Yield (EvText t)])) as (texts & Ht & Heq).
        exists (Yield (EvText t) :: texts). split.
        -- constructor; [exists t; reflexivity|exact Ht].
        -- rewrite Heq. apply outcome_extend.
      * apply IH.
Qed.

Lemma gemini_chunks_spec (session_id call_id fresh : str) (cs : list GeminiChunk) :
  forall st, exists texts,
    Forall text_yield texts /\
    gemini_chunks session_id call_id fresh st cs
    = outcome session_id call_id fresh st texts (scan_chunks cs).
Proof.
  induction cs as [|c rest IH]; intros st.
  - exists []. split; [constructor|]. simpl. rewrite extend_nil. reflexivity.
  - cbn [gemini_chunks scan_chunks]. unfold gemini_chunk.
    destruct (candidates c) as [|[parts|] others].
    + apply IH.
    + destruct (gemini_parts_spec session_id call_id fresh parts st)
        as (texts & Ht & Heq).
      rewrite Heq. destruct (scan_parts parts) as [|fc|] eqn:Hs.
      * cbn [outcome].
        destruct (IH (extend st texts)) as (texts' & Ht' & Heq').
        exists (texts ++ texts'). split; [apply Forall_app; auto|].
        rewrite Heq'. apply outcome_extend.
      * exists texts. split; [exact Ht|].
        cbn [outcome]. destruct (fc_args fc); reflexivity.
      * exists texts. split; [exact Ht|]. reflexivity.
    + exists []. split; [constructor|]. cbn [outcome]. rewrite extend_nil.
      reflexivity.
Qed.

(** What [gemini_turn] does after the text events of the loop *)
Lemma gemini_turn_spec (R : Runtime) (session_id : str) (uuid : nat -> str)
    (stream : Stream GeminiChunk) :
  exists texts,
    Forall text_yield texts /\
    gemini_turn R session_id uuid stream = texts ++
      match scan_chunks (chunks stream) with
      | Call fc =>
          match fc_args fc with
          | Some a =>
              let tool_data := {| tc_id := uuid 0%nat; tc_name := fc_name fc;
                                  tc_args := a |} in
              [Yield (EvToolApprovalRequest tool_data);
               AddMessage session_id
                 (assistant_turn (lit "model") (uuid 1%nat) (relayed texts)
                    (Some [tool_data]));
               Yield EvDone]
          | None =>
              [Yield (EvError (str_exn R
                 (TypeError (lit "'NoneType' object is not iterable"))))]
          end
      | Broken =>
          [Yield (EvError (str_exn R
             (TypeError (lit "'NoneType' object is not iterable"))))]
      | NoCall =>
          match failure stream with
          | Some e => [Yield (EvError (str_exn R e))]
          | None =>
              (if truthy (relayed texts) then
                 [AddMessage session_id
                    (assistant_turn (lit "model") (uuid 0%nat) (relayed texts)
                       None)]
               else []) ++ [Yield EvDone]
          end
      end.
Proof.
  destruct (gemini_chunks_spec session_id (uuid 0%nat) (uuid 1%nat)
              (chunks stream) gemini_start) as (texts & Ht & Heq).
  exists texts. split; [exact Ht|]. unfold gemini_turn. rewrite Heq.
  destruct (scan_chunks (chunks stream)) as [|fc|]; cbn [outcome].
  - destruct (failure stream); reflexivity.
  - destruct (fc_args fc); reflexivity.
  - reflexivity.
Qed.

(** ** A streamed turn that produced a tool call *)

Lemma events_app (a b : list Action) : events (a ++ b) = events a ++ events b.
Proof. unfold events. apply flat_map_app. Qed.

Lemma persisted_app (a b : list Action) :
  persisted (a ++ b) = persisted a ++ persisted b.
Proof. unfold persisted. apply flat_map_app. Qed.

Lemma persisted_texts (l : list Action) : Forall text_yield l -> persisted l = [].
Proof.
  induction 1 as [|a l (c & ->) _ IH]; [reflexivity|]. simpl. exact IH.
Qed.

Lemma shapes_app (a b : list Action) : shapes (a ++ b) = shapes a ++ shapes b.
Proof. unfold shapes. rewrite events_app. apply map_app. Qed.

Lemma shapes_texts (l : list Action) :
  Forall text_yield l -> shapes l = repeat SText (List.length l).
Proof.
  induction 1 as [|a l (c & ->) _ IH]; [reflexivity|].
  unfold shapes in *. simpl. rewrite IH. reflexivity.
Qed.

Lemma stream_groq_response_reaches (R : Runtime) (conns : registry)
    (session_id : str) (raw_history : list Message) (uuid : nat -> str)
    (create : GroqRequest -> Stream GroqChunk) :
  groq_async_client R = Some create ->
  groq_history R (fst (get_all_tools conns)) raw_history <> [] ->
  stream_groq_response R conns session_id raw_history uuid
  = groq_turn R session_id (uuid 0%nat)
      (create {| groq_messages :=
                   groq_history R (fst (get_all_tools conns)) raw_history;
                 groq_tools := fst (get_all_tools conns) |}).
Proof.
  intros Hc Hne. unfold stream_groq_response. rewrite Hc.
  destruct (groq_history R (fst (get_all_tools conns)) raw_history);
    [contradiction|reflexivity].
Qed.

Lemma stream_gemini_response_reaches (R : Runtime) (conns : registry)
    (session_id : str) (raw_history : list Message) (uuid : nat -> str)
    (generate : GeminiRequest -> Stream GeminiChunk)
    (declarations : list FunctionDeclaration) (history : list GeminiContent) :
  gemini_client R = Some generate ->
  get_tools_for_gemini R (fst (get_all_tools conns)) = Ok declarations ->
  gemini_history R raw_history = Ok history ->
  history <> [] ->
  stream_gemini_response R conns session_id raw_history uuid
  = gemini_turn R session_id uuid
      (generate {| contents := history;
                   config_tools := declarations;
                   system_instruction :=
                     gemini_system_instruction declarations |}).
Proof.
  intros Hc Hd Hh Hne. unfold stream_gemini_response. rewrite Hc, Hd, Hh.
  destruct history; [contradiction|reflexivity].
Qed.

(** The Groq path on a stream of fragments: the call announced first is
    the one surfaced, every call is persisted, arguments that do not parse
    become the empty object, and the text after the calls is relayed *)
Example groq_turn_fragmented_calls :
  groq_turn Demo.tool_providers (lit "s1") (lit "u") Demo.two_fragmented_calls
  = [ Yield (EvText (lit "Looking"));
      Yield (EvText (lit "tail"));
      AddMessage (lit "s1")
        (assistant_turn (lit "assistant") (lit "u") (lit "Lookingtail")
           (Some [ {| tc_id := lit "call_b"; tc_name := lit "fetch";
                      tc_args := JObj [] |};
                   {| tc_id := lit "call_a"; tc_name := lit "search";
                      tc_args := JObj [] |} ]));
      Yield (EvToolApprovalRequest
               {| tc_id := lit "call_b"; tc_name := lit "fetch";
                  tc_args := JObj [] |});
      Yield EvDone ].
Proof. reflexivity. Qed.

Example groq_fragments_are_concatenated :
  map b_arguments
    (dict_values
       (tool_calls_buffer
          (fold_left groq_chunk (chunks Demo.two_fragmented_calls) groq_start)))
  = [lit "{url:1}"; lit "{}"].
Proof. reflexivity. Qed.

(** C2 as stated fails on the Gemini path: this stream ends without an
    exception and delivers two function calls and a later text, yet the
    path stops at the first call; the persisted turn lists one call and
    the later text is never relayed. *)
Lemma gemini_turn_stops_at_first_call :
  failure Demo.two_calls = None /\
  map fc_name (gemini_stream_calls (chunks Demo.two_calls))
    = [lit "search"; lit "fetch"] /\
  events (gemini_turn Demo.tool_providers (lit "s1") Demo.uuids Demo.two_calls)
    = [ EvText (lit "Looking");
        EvToolApprovalRequest
          {| tc_id := lit "uuid-0"; tc_name := lit "search";
             tc_args := JObj [] |};
        EvDone ] /\
  map (fun sm => option_map (map tc_name) (m_toolCalls (snd sm)))
    (persisted
       (gemini_turn Demo.tool_providers (lit "s1") Demo.uuids Demo.two_calls))
    = [Some [lit "search"]].
Proof. repeat split. Qed.

(** ** The event sequences of the two provider paths *)


(** The shapes of a Groq turn: text events, then an ending that the
    stream decides *)
Lemma groq_turn_shapes (R : Runtime) (session_id fresh : str)
    (stream : Stream GroqChunk) :
  exists n tail,
    shapes (groq_turn R session_id fresh stream) = repeat SText n ++ tail /\
    In tail [[SError]; [SDone]; [SToolApprovalRequest; SDone]] /\
    (failure stream = None ->
     tail = if groq_has_call (chunks stream)
            then [SToolApprovalRequest; SDone] else [SDone]).
Proof.
  destruct (groq_turn_spec R session_id fresh stream) as (Ht & _ & Hrun).
  set (st := fold_left groq_chunk (chunks stream) groq_start) in *.
  exists (List.length (emitted st)).
  destruct (failure stream) as [e|].
  - exists [SError]. rewrite Hrun, shapes_app, (shapes_texts _ Ht).
    split; [reflexivity|]. split; [simpl; auto|]. discriminate.
  - destruct (groq_has_call (chunks stream)).
    + destruct Hrun as (first & rest & _ & Hrun).
      exists [SToolApprovalRequest; SDone].
      rewrite Hrun, shapes_app, (shapes_texts _ Ht).
      split; [reflexivity|]. split; [simpl; auto|]. reflexivity.
    + exists [SDone]. rewrite Hrun, shapes_app, (shapes_texts _ Ht).
      split; [destruct (truthy (final_text st)); reflexivity|].
      split; [simpl; auto|]. reflexivity.
Qed.

(** The shapes of a Gemini turn *)
Lemma gemini_turn_shapes (R : Runtime) (session_id : str) (uuid : nat -> str)
    (stream : Stream GeminiChunk) :
  exists n tail,
    shapes (gemini_turn R session_id uuid stream) = repeat SText n ++ tail /\
    In tail [[SError]; [SDone]; [SToolApprovalRequest; SDone]] /\
    (failure stream = None ->
     match scan_chunks (chunks stream) with
     | NoCall => tail = [SDone]
     | Call fc => fc_args fc <> None -> tail = [SToolApprovalRequest; SDone]
     | Broken => tail = [SError]
     end).
Proof.
  destruct (gemini_turn_spec R session_id uuid stream) as (texts & Ht & Hrun).
  exists (List.length texts). rewrite Hrun, shapes_app, (shapes_texts _ Ht).
  destruct (scan_chunks (chunks stream)) as [|fc|].
  - destruct (failure stream) as [e|].
    + exists [SError]. split; [reflexivity|]. split; [simpl; auto|]. discriminate.
    + exists [SDone].
      split; [destruct (truthy (relayed texts)); reflexivity|].
      split; [simpl; auto|]. reflexivity.
  - destruct (fc_args fc) as [a|].
    + exists [SToolApprovalRequest; SDone].
      split; [reflexivity|]. split; [simpl; auto|]. reflexivity.
    + exists [SError]. split; [reflexivity|]. split; [simpl; auto|].
      intros _ H. exfalso. apply H. reflexivity.
  - exists [SError]. split; [reflexivity|]. split; [simpl; auto|]. reflexivity.
Qed.


(** The difference does not depend on what the providers answer: on that
    history the Gemini path never reaches its provider, and the Groq path
    always emits at least one event *)
Lemma blank_turn_splits_any_providers (R : Runtime) (uuid : nat -> str)
    (create : GroqRequest -> Stream GroqChunk)
    (generate : GeminiRequest -> Stream GeminiChunk) :
  groq_async_client R = Some create ->
  gemini_client R = Some generate ->
  shapes (stream_gemini_response R [] (lit "s1") [Demo.blank_turn] uuid) = [] /\
  shapes (stream_groq_response R [] (lit "s1") [Demo.blank_turn] uuid) <> [].
Proof.
  intros Hc Hg. split.
  - unfold stream_gemini_response. rewrite Hg. cbn [get_all_tools_from
      get_all_tools fst map fold_left get_tools_for_gemini].
    reflexivity.
  - rewrite (stream_groq_response_reaches _ _ _ _ _ _ Hc) by discriminate.
    destruct (groq_turn_shapes R (lit "s1") (uuid 0%nat)
      (create {| groq_messages :=
                   groq_history R (fst (get_all_tools [])) [Demo.blank_turn];
                 groq_tools := fst (get_all_tools []) |}))
      as (n & tail & Hs & Hin & _).
    rewrite Hs. destruct n; [|discriminate].
    simpl in *. destruct Hin as [<-|[<-|[<-|[]]]]; discriminate.
Qed.

(** ** The store and the orchestrator's turns *)

Lemma persisted_groq_turn (R : Runtime) (session_id fresh : str)
    (stream : Stream GroqChunk) (s : str) (m : MsgData) :
  In (s, m) (persisted (groq_turn R session_id fresh stream)) ->
  s = session_id /\ m_id m = Some fresh.
Proof.
  destruct (groq_turn_spec R session_id fresh stream) as (Ht & _ & Hrun).
  destruct (failure stream) as [e|].
  - rewrite Hrun, persisted_app, (persisted_texts _ Ht). intros [].
  - destruct (groq_has_call (chunks stream)).
    + destruct Hrun as (first & rest & _ & Hrun).
      rewrite Hrun, persisted_app, (persisted_texts _ Ht).
      intros [H|[]]. inversion H. auto.
    + rewrite Hrun, persisted_app, (persisted_texts _ Ht).
      destruct (truthy _); simpl; [intros [H|[]]; inversion H; auto|intros []].
Qed.

Lemma persisted_gemini_turn (R : Runtime) (session_id : str) (uuid : nat -> str)
    (stream : Stream GeminiChunk) (s : str) (m : MsgData) :
  In (s, m) (persisted (gemini_turn R session_id uuid stream)) ->
  s = session_id /\ (m_id m = Some (uuid 0%nat) \/ m_id m = Some (uuid 1%nat)).
Proof.
  destruct (gemini_turn_spec R session_id uuid stream) as (texts & Ht & Hrun).
  rewrite Hrun, persisted_app, (persisted_texts _ Ht).
  destruct (scan_chunks (chunks stream)) as [|fc|].
  - destruct (failure stream); [intros []|].
    destruct (truthy _); simpl; [intros [H|[]]; inversion H; auto|intros []].
  - destruct (fc_args fc); [intros [H|[]]; inversion H; auto|intros []].
  - intros [].
Qed.

(** Every turn that a streamed response stores belongs to the session of
    the call and carries an identifier drawn from [uuid4] during the call *)
Lemma persisted_stream_llm_response (R : Runtime) (conns : registry)
    (session_id : str) (raw_history : list Message) (provider : option str)
    (uuid : nat -> str) (s : str) (m : MsgData) :
  In (s, m)
     (persisted (stream_llm_response R conns session_id raw_history provider uuid)) ->
  s = session_id /\ (m_id m = Some (uuid 0%nat) \/ m_id m = Some (uuid 1%nat)).
Proof.
  unfold stream_llm_response.
  destruct (match provider with Some p => Some p | None => ACTIVE_PROVIDER R end)
    as [p|]; [|intros [] ].
  destruct (str_eqb p (lit "groq")).
  - unfold stream_groq_response.
    destruct (groq_async_client R) as [create|]; [|intros []].
    destruct (groq_history R (fst (get_all_tools conns)) raw_history)
      as [|g l]; [intros []|].
    intros H. apply persisted_groq_turn in H as [-> H]. auto.
  - destruct (str_eqb p (lit "gemini")); [|intros []].
    unfold stream_gemini_response.
    destruct (gemini_client R) as [generate|]; [|intros []].
    destruct (get_tools_for_gemini R (fst (get_all_tools conns)));
      [|intros []].
    destruct (gemini_history R raw_history) as [[|g l]|]; try (intros []).
    apply persisted_gemini_turn.
Qed.

(** C8, as the code has it. [add_message] stores a turn under its message
    id. When no stored turn has that id, the turn is appended: the table
    is the old table followed by the new row, and every message that
    [get_messages] returned before, for any session, is returned unchanged
    afterwards. The turns that the orchestrator stores carry an identifier
    drawn from [uuid4] during the call. *)
Theorem add_message_appends_new_id (t : Table) (sid : str) (msg_data : MsgData)
    (fresh : str) (now : N) :
  (forall r, In r t -> id r <> id (row_of sid msg_data fresh now)) ->
  add_message t sid msg_data fresh now = t ++ [row_of sid msg_data fresh now] /\
  (forall r, In r t -> In r (add_message t sid msg_data fresh now)) /\
  (forall s m, In m (get_messages t s) ->
               In m (get_messages (add_message t sid msg_data fresh now) s)) /\
  (forall R conns session_id raw_history provider uuid s m,
     In (s, m)
        (persisted
           (stream_llm_response R conns session_id raw_history provider uuid)) ->
     s = session_id /\
     (m_id m = Some (uuid 0%nat) \/ m_id m = Some (uuid 1%nat))).
Proof.
  intros Hnew.
  assert (Happ : add_message t sid msg_data fresh now
                 = t ++ [row_of sid msg_data fresh now]).
  { unfold add_message, insert_or_replace. f_equal. apply filter_all.
    intros r Hr. apply negb_true_iff.
    destruct (str_eqb (id r) (id (row_of sid msg_data fresh now))) eqn:Eq; auto.
    apply str_eqb_eq in Eq. exfalso. exact (Hnew r Hr Eq). }
  split; [exact Happ|]. split; [|split].
  - intros r Hr. rewrite Happ. apply in_or_app. auto.
  - intros s m Hm. apply in_get_messages in Hm as (r & Hr & Hs & Hm).
    apply in_get_messages. exists r. rewrite Happ. split; auto.
    apply in_or_app. auto.
  - intros R conns session_id raw_history provider uuid.
    apply persisted_stream_llm_response.
Qed.

Lemma add_message_appends_new_id_witness :
  add_message Demo.one_turn (lit "s1") (Demo.turn (lit "m2") (lit "second"))
    (lit "u1") 2
  = Demo.one_turn ++
    [row_of (lit "s1") (Demo.turn (lit "m2") (lit "second")) (lit "u1") 2].
Proof.
  apply (add_message_appends_new_id Demo.one_turn (lit "s1")
           (Demo.turn (lit "m2") (lit "second")) (lit "u1") 2).
  intros r [<-|[]]. discriminate.
Defined.

(** The chat endpoint stores the client's message the same way *)
Example chat_endpoint_replaces_turn :
  map msg_content
    (get_messages
       (chat_endpoint_store Demo.one_turn (lit "s1")
          (Demo.turn (lit "m1") (lit "edited")) (lit "u1") 2)
       (lit "s1")) = [lit "edited"].
Proof. reflexivity. Qed.

(* ================================================================== *)
(** * More properties: the rest of the manager, the store and the
      orchestrator *)

Import Service Props.

(** ** Dictionaries keyed by strings *)

Lemma str_eqb_sym (a b : str) : str_eqb a b = str_eqb b a.
Proof.
  destruct (str_eqb a b) eqn:E1, (str_eqb b a) eqn:E2; auto.
  - apply str_eqb_eq in E1. subst. rewrite str_eqb_refl in E2. discriminate.
  - apply str_eqb_eq in E2. subst. rewrite str_eqb_refl in E1. discriminate.
Qed.

Lemma str_eqb_neq (a b : str) : str_eqb a b = false <-> a <> b.
Proof.
  split.
  - intros H ->. rewrite str_eqb_refl in H. discriminate.
  - intros H. destruct (str_eqb a b) eqn:E; auto.
    apply str_eqb_eq in E. contradiction.
Qed.

Lemma dict_get_set {V} (d : @dict str V) (key k : str) (v : V) :
  dict_get str_eqb (dict_set str_eqb d key v) k
  = if str_eqb k key then Some v else dict_get str_eqb d k.
Proof.
  induction d as [|[k' v'] d IH]; simpl.
  - reflexivity.
  - destruct (str_eqb key k') eqn:Ek; simpl.
    + apply str_eqb_eq in Ek. subst k'. destruct (str_eqb k key); reflexivity.
    + rewrite IH. destruct (str_eqb k k') eqn:Ek'; auto.
      apply str_eqb_eq in Ek'. subst k'. rewrite str_eqb_sym, Ek. reflexivity.
Qed.

Lemma dict_get_none {V} (d : @dict str V) (k : str) :
  dict_get str_eqb d k = None <-> ~ In k (map fst d).
Proof.
  induction d as [|[k' v'] d IH]; simpl.
  - intuition.
  - destruct (str_eqb k k') eqn:Ek.
    + apply str_eqb_eq in Ek. subst. split; [discriminate|]. intros H.
      exfalso. apply H. auto.
    + apply str_eqb_neq in Ek. rewrite IH. intuition.
Qed.

Lemma dict_del_set_absent {V} (d : @dict str V) (k : str) (v : V) :
  dict_get str_eqb d k = None ->
  dict_del str_eqb (dict_set str_eqb d k v) k = d.
Proof.
  induction d as [|[k' v'] d IH]; simpl; intros H.
  - rewrite str_eqb_refl. reflexivity.
  - destruct (str_eqb k k') eqn:Ek; [discriminate|]. simpl. rewrite Ek.
    f_equal. auto.
Qed.

Lemma dict_get_del_other {V} (d : @dict str V) (k k' : str) :
  str_eqb k' k = false ->
  dict_get str_eqb (dict_del str_eqb d k) k' = dict_get str_eqb d k'.
Proof.
  intros Hk. induction d as [|[k0 v0] d IH]; simpl; auto.
  destruct (str_eqb k k0) eqn:Ek; simpl.
  - apply str_eqb_eq in Ek. subst k0. rewrite Hk. reflexivity.
  - rewrite IH. reflexivity.
Qed.

Lemma dict_get_del_same {V} (d : @dict str V) (k : str) :
  NoDup (map fst d) -> dict_get str_eqb (dict_del str_eqb d k) k = None.
Proof.
  induction d as [|[k0 v0] d IH]; simpl; intros N; auto.
  inversion N as [|? ? Hnin N']; subst.
  destruct (str_eqb k k0) eqn:Ek; simpl.
  - apply str_eqb_eq in Ek. subst k0. apply dict_get_none. exact Hnin.
  - rewrite Ek. auto.
Qed.

Lemma dict_set_keys_present {V} (d : @dict str V) (k : str) (v v0 : V) :
  dict_get str_eqb d k = Some v0 ->
  map fst (dict_set str_eqb d k v) = map fst d.
Proof.
  induction d as [|[k' v'] d IH]; simpl; intros H; [discriminate|].
  destruct (str_eqb k k') eqn:Ek; simpl; [reflexivity|]. f_equal. auto.
Qed.

(** ** [_find_script] *)

Lemma first_existing_spec (E : Env) (paths : list (option str)) :
  match first_existing E paths with
  | Some p =>
      exists before c after,
        paths = before ++ Some c :: after /\
        truthy c && path_exists E c = true /\
        p = path_abspath E c /\
        (forall c', In (Some c') before -> truthy c' && path_exists E c' = false)
  | None =>
      forall c, In (Some c) paths -> truthy c && path_exists E c = false
  end.
Proof.
  induction paths as [|[c|] rest IH]; simpl.
  - intros c [].
  - destruct (truthy c && path_exists E c) eqn:Hc.
    + exists [], c, rest. repeat split; auto. intros c' [].
    + destruct (first_existing E rest) as [p|].
      * destruct IH as (before & c0 & after & -> & H0 & Hp & Hb).
        exists (Some c :: before), c0, after. repeat split; auto.
        intros c' [H|H]; [inversion H; subst; auto|auto].
      * intros c' [H|H]; [inversion H; subst; auto|auto].
  - destruct (first_existing E rest) as [p|].
    + destruct IH as (before & c0 & after & -> & H0 & Hp & Hb).
      exists (None :: before), c0, after. repeat split; auto.
      intros c' [H|H]; [discriminate H|auto].
    + intros c' [H|H]; [discriminate H|auto].
Qed.

(** X1. [_find_script] returns the absolute form of the first candidate
    of its search list that names an existing file, and raises
    [FileNotFoundError] exactly when no candidate exists. *)
Theorem find_script_first_candidate (E : Env) (script_name : str) :
  match _find_script E script_name with
  | Ok p =>
      exists before c after,
        search_paths E script_name = before ++ Some c :: after /\
        truthy c && path_exists E c = true /\
        p = path_abspath E c /\
        (forall c', In (Some c') before -> truthy c' && path_exists E c' = false)
  | Raise e =>
      (exists m, e = FileNotFoundError m) /\
      forall c, In (Some c) (search_paths E script_name) ->
                truthy c && path_exists E c = false
  end.
Proof.
  unfold _find_script.
  pose proof (first_existing_spec E (search_paths E script_name)) as H.
  destruct (first_existing E (search_paths E script_name)) as [p|].
  - exact H.
  - split; [eexists; reflexivity|exact H].
Qed.

(** ** [connect]: what a success leaves behind *)

Lemma bind_ok {S A B} (m : M S A) (k : A -> M S B) (f f' : S) (b : B) :
  bind m k f = (Ok b, f') ->
  exists a f1, m f = (Ok a, f1) /\ k a f1 = (Ok b, f').
Proof.
  unfold bind. destruct (m f) as [[a|e] f1]; intros H; [eauto|discriminate].
Qed.

Lemma initialize_session_ok (E : Env) (channel s : handle) (f f' : Frame) :
  initialize_session E channel f = (Ok s, f') ->
  s = List.length (attempts (world f)) /\
  stack f' = s :: stack f /\
  live (world f') = (s, RSession channel) :: live (world f) /\
  initialize E s = None.
Proof.
  unfold initialize_session, try_except, bind, enter_async_context.
  destruct (enter_outcome E (List.length (attempts (world f))) (RSession channel))
    as [e|].
  - destruct (is_http e); unfold call_type_parameter, bind, raise;
      intros H; discriminate H.
  - destruct (initialize E (List.length (attempts (world f)))) as [e|] eqn:Hi.
    + destruct e; cbv beta iota delta [raise is_http bind call_type_parameter];
        intros H; discriminate H.
    + unfold ret. intros H. inversion H; subst; clear H. simpl. auto.
Qed.

(** The frame and the result of a [try] block that ran to its end *)
Lemma connect_body_ok (E : Env) (connection_id target type : str)
    (base : list (handle * Resource)) (f f' : Frame) (summary : Summary) :
  connect_body E connection_id target type f = (Ok summary, f') ->
  tracks base f ->
  exists conn entries channel,
    connections f' = dict_set str_eqb (connections f) connection_id conn /\
    live (world f') = (session conn, RSession channel) :: entries ++ base /\
    exit_stack conn = session conn :: map fst entries /\
    conn_name conn = connection_id /\
    initialize E (session conn) = None /\
    tools conn = or_empty (list_tools E (session conn)) /\
    resources conn = or_empty (list_resources E (session conn)) /\
    prompts conn = or_empty (list_prompts E (session conn)) /\
    summary = {| n_tools := len (tools conn);
                 n_resources := len (resources conn);
                 n_prompts := len (prompts conn) |}.
Proof.
  unfold connect_body. intros H T.
  apply bind_ok in H as (sel & f1 & H1 & H).
  apply bind_ok in H as (channel & f2 & H2 & H).
  apply bind_ok in H as (s & f3 & H3 & H).
  destruct (keeps_lift _ base _ _ _ H1 T) as [T1 C1].
  destruct (keeps_open_transport _ _ _ base _ _ _ H2 T1) as [(entries & L2 & S2) C2].
  destruct (initialize_session_ok _ _ _ _ _ H3) as (_ & Hs & Hl & Hi).
  destruct (keeps_initialize_session _ _ base _ _ _ H3 (ex_intro _ entries (conj L2 S2)))
    as [_ C3].
  unfold bind, get_state, modify, register, ret in H.
  inversion H; subst; clear H. simpl.
  eexists _, entries, channel. cbn [connections world live session exit_stack
    conn_name tools resources prompts].
  split; [rewrite C3, C2, C1; reflexivity|].
  split; [rewrite Hl, L2; reflexivity|].
  split; [rewrite Hs, S2; reflexivity|].
  split; [reflexivity|]. split; [exact Hi|]. repeat split; reflexivity.
Qed.

(** [connect] that returns: the frame of its [try] block, seen from outside *)
Lemma connect_ok (E : Env) (connection_id target type : str)
    (w w' : World) (conns conns' : registry) (summary : Summary) :
  connect E connection_id target type (w, conns) = (Ok summary, (w', conns')) ->
  exists conn entries channel,
    conns' = dict_set str_eqb conns connection_id conn /\
    live w' = (session conn, RSession channel) :: entries ++ live w /\
    exit_stack conn = session conn :: map fst entries /\
    initialize E (session conn) = None /\
    tools conn = or_empty (list_tools E (session conn)) /\
    resources conn = or_empty (list_resources E (session conn)) /\
    prompts conn = or_empty (list_prompts E (session conn)) /\
    summary = {| n_tools := len (tools conn);
                 n_resources := len (resources conn);
                 n_prompts := len (prompts conn) |}.
Proof.
  unfold connect, connect_frame, try_except. simpl.
  destruct (connect_body E connection_id target type
              {| world := w; stack := []; connections := conns |})
    as [[s|cause] f1] eqn:Body.
  - intros H. inversion H; subst; clear H.
    destruct (connect_body_ok _ _ _ _ (live w) _ _ _ Body)
      as (conn & entries & channel & Hc & Hl & Hs & _ & Hi & Ht & Hr & Hp & Hsum);
      [exists []; simpl; auto|].
    simpl in Hc. exists conn, entries, channel. repeat split; assumption.
  - unfold bind, aclose_local, modify, raise. intros H. discriminate H.
Qed.

(** X2. A successful [connect], over any transport, writes exactly one
    registry entry, under the given id. The entry's exit stack holds the
    session on top of what the attempt opened, all of it open on top of
    what was open before; a discovery call that raises leaves that list
    empty without failing the connection; and the returned counts are the
    lengths of the stored lists. *)
Theorem connect_registers_session (E : Env) (connection_id target type : str)
    (w w' : World) (conns conns' : registry) (summary : Summary) :
  connect E connection_id target type (w, conns) = (Ok summary, (w', conns')) ->
  exists conn entries channel,
    conns' = dict_set str_eqb conns connection_id conn /\
    dict_get str_eqb conns' connection_id = Some conn /\
    (forall k, str_eqb k connection_id = false ->
               dict_get str_eqb conns' k = dict_get str_eqb conns k) /\
    live w' = (session conn, RSession channel) :: entries ++ live w /\
    exit_stack conn = session conn :: map fst entries /\
    initialize E (session conn) = None /\
    tools conn = or_empty (list_tools E (session conn)) /\
    resources conn = or_empty (list_resources E (session conn)) /\
    prompts conn = or_empty (list_prompts E (session conn)) /\
    summary = {| n_tools := len (tools conn);
                 n_resources := len (resources conn);
                 n_prompts := len (prompts conn) |}.
Proof.
  intros H.
  destruct (connect_ok _ _ _ _ _ _ _ _ _ H)
    as (conn & entries & channel & Hc & Hl & Hs & Hi & Ht & Hr & Hp & Hsum).
  exists conn, entries, channel. rewrite Hc.
  split; [reflexivity|]. split; [apply dict_get_set_same|].
  split; [intros k Hk; rewrite dict_get_set, Hk; reflexivity|].
  repeat split; assumption.
Qed.

Lemma connect_registers_session_witness :
  exists conn,
    dict_get str_eqb [(lit "docs", Samples.bare_conn)] (lit "docs") = Some conn /\
    tools conn = [] /\
    initialize Samples.silent_server (session conn) = None.
Proof.
  destruct (connect_registers_session Samples.silent_server
              (lit "docs") (lit "server.py") (lit "stdio")
              Demo.world0 Demo.connected_world
              [] [(lit "docs", Samples.bare_conn)]
              {| n_tools := 0; n_resources := 0; n_prompts := 0 |})
    as (conn & entries & channel & _ & Hget & _ & _ & _ & Hi & Ht & _).
  - reflexivity.
  - exists conn. split; [exact Hget|]. split; [|exact Hi].
    rewrite Ht. reflexivity.
Defined.

(** X3. A connection made under an id that was not registered and then
    disconnected leaves the registry as it was and nothing of the attempt
    open. *)
Theorem connect_then_disconnect (E : Env) (connection_id target type : str)
    (w w' : World) (conns conns' : registry) (summary : Summary) :
  connect E connection_id target type (w, conns) = (Ok summary, (w', conns')) ->
  dict_get str_eqb conns connection_id = None ->
  live (fst (disconnect connection_id (w', conns'))) = live w /\
  snd (disconnect connection_id (w', conns')) = conns.
Proof.
  intros H Habs.
  destruct (connect_ok _ _ _ _ _ _ _ _ _ H)
    as (conn & entries & channel & Hc & Hl & Hs & _).
  unfold disconnect. cbn [fst snd]. rewrite Hc, dict_get_set_same.
  cbn [fst snd aclose live]. split.
  - rewrite Hs, Hl. cbn [fold_left]. rewrite release_head.
    apply aclose_tracked.
  - apply dict_del_set_absent. exact Habs.
Qed.

Lemma connect_then_disconnect_witness :
  live (fst (disconnect (lit "docs") (Demo.connected_world, Demo.conns)))
    = live Demo.world0 /\
  snd (disconnect (lit "docs") (Demo.connected_world, Demo.conns)) = [].
Proof.
  apply (connect_then_disconnect Samples.plain_server
           (lit "docs") (lit "server.py") (lit "stdio")
           Demo.world0 Demo.connected_world [] Demo.conns
           {| n_tools := 1; n_resources := 0; n_prompts := 0 |});
    reflexivity.
Defined.

(** X4. [connect] under an id that is already registered replaces the
    entry without closing the session it held: everything that was open
    before the call is still open after it, the registry keeps its size,
    and once the id is disconnected the registry has no entry for it
    while all that was open before the second [connect] - the replaced
    session's resources among it - remains open. *)
Theorem connect_replaces_without_closing (E : Env) (connection_id target type : str)
    (w w' : World) (conns conns' : registry) (summary : Summary)
    (old : MCPConnection) :
  connect E connection_id target type (w, conns) = (Ok summary, (w', conns')) ->
  dict_get str_eqb conns connection_id = Some old ->
  NoDup (map fst conns) ->
  (exists opened, live w' = opened ++ live w) /\
  map fst conns' = map fst conns /\
  live (fst (disconnect connection_id (w', conns'))) = live w /\
  dict_get str_eqb (snd (disconnect connection_id (w', conns'))) connection_id
    = None.
Proof.
  intros H Hold Hnd.
  destruct (connect_ok _ _ _ _ _ _ _ _ _ H)
    as (conn & entries & channel & Hc & Hl & Hs & _).
  assert (Hkeys : map fst conns' = map fst conns).
  { rewrite Hc. apply (dict_set_keys_present _ _ _ _ Hold). }
  split; [exists ((session conn, RSession channel) :: entries); exact Hl|].
  split; [exact Hkeys|].
  assert (Hget : dict_get str_eqb conns' connection_id = Some conn).
  { rewrite Hc. apply dict_get_set_same. }
  unfold disconnect. cbn [fst snd]. rewrite Hget.
  cbn [fst snd aclose live]. split.
  - rewrite Hs, Hl. cbn [fold_left]. rewrite release_head.
    apply aclose_tracked.
  - apply dict_get_del_same. rewrite Hkeys. exact Hnd.
Qed.

Lemma connect_replaces_without_closing_witness :
  live (fst (disconnect (lit "docs")
               ({| attempts := [RSession 4%nat; RStdio Demo.script_params;
                                RStdio Demo.script_params] ++
                               attempts Demo.connected_world;
                   live := [(5%nat, RSession 4%nat);
                            (4%nat, RStdio Demo.script_params);
                            (3%nat, RStdio Demo.script_params)] ++
                           live Demo.connected_world |},
                [(lit "docs",
                  {| conn_name := lit "docs"; session := 5%nat;
                     exit_stack := [5; 4; 3]%nat;
                     tools := [Demo.search_tool]; resources := [];
                     prompts := [] |})])))
  = live Demo.connected_world.
Proof.
  apply (connect_replaces_without_closing Samples.plain_server
           (lit "docs") (lit "server.py") (lit "stdio")
           Demo.connected_world _ Demo.conns _
           {| n_tools := 1; n_resources := 0; n_prompts := 0 |}
           Demo.docs_conn).
  - reflexivity.
  - reflexivity.
  - repeat constructor. intros [].
Defined.

(** ** [disconnect] and [shutdown_event] *)

(** X5. [disconnect] does nothing for an id that is not registered;
    otherwise it closes the exit stack of that connection, leaves every
    other id as it was and, the keys of the registry being distinct,
    leaves the id unregistered. *)
Theorem disconnect_removes_one (connection_id : str) (w : World) (conns : registry) :
  (dict_get str_eqb conns connection_id = None ->
   disconnect connection_id (w, conns) = (w, conns)) /\
  (forall conn, dict_get str_eqb conns connection_id = Some conn ->
     fst (disconnect connection_id (w, conns)) = aclose (exit_stack conn) w) /\
  (forall k, str_eqb k connection_id = false ->
     dict_get str_eqb (snd (disconnect connection_id (w, conns))) k
     = dict_get str_eqb conns k) /\
  (NoDup (map fst conns) ->
   dict_get str_eqb (snd (disconnect connection_id (w, conns))) connection_id
   = None).
Proof.
  unfold disconnect. cbn [fst snd].
  destruct (dict_get str_eqb conns connection_id) as [conn|] eqn:Hg.
  - split; [discriminate|]. split; [intros c Hc; inversion Hc; reflexivity|].
    split.
    + intros k Hk. cbn [snd]. apply dict_get_del_other. exact Hk.
    + intros Hnd. cbn [snd]. apply dict_get_del_same. exact Hnd.
  - split; [reflexivity|]. split; [discriminate|]. split; [reflexivity|].
    intros _. exact Hg.
Qed.

Lemma disconnect_removes_one_witness :
  dict_get str_eqb (snd (disconnect (lit "docs") (Demo.connected_world, Demo.conns)))
    (lit "docs") = None.
Proof.
  destruct (disconnect_removes_one (lit "docs") Demo.connected_world Demo.conns)
    as (_ & _ & _ & H).
  apply H. repeat constructor. intros [].
Defined.

Lemma release_incl (h : handle) (l : list (handle * Resource)) (x : handle) :
  In x (map fst (release h l)) -> In x (map fst l).
Proof.
  induction l as [|[h' r] l IH]; simpl; auto.
  destruct (Nat.eqb h h'); simpl; intuition.
Qed.

Lemma release_nodup (h : handle) (l : list (handle * Resource)) :
  NoDup (map fst l) -> NoDup (map fst (release h l)).
Proof.
  induction l as [|[h' r] l IH]; simpl; intros N; auto.
  inversion N as [|? ? Hnin N']; subst.
  destruct (Nat.eqb h h'); simpl; auto.
  constructor; auto. intros Hin. apply Hnin. eapply release_incl. exact Hin.
Qed.

Lemma release_gone (h : handle) (l : list (handle * Resource)) :
  NoDup (map fst l) -> ~ In h (map fst (release h l)).
Proof.
  induction l as [|[h' r] l IH]; simpl; intros N; auto.
  inversion N as [|? ? Hnin N']; subst.
  destruct (Nat.eqb h h') eqn:Eh; simpl.
  - apply Nat.eqb_eq in Eh. subst. exact Hnin.
  - apply Nat.eqb_neq in Eh. intros [H|H]; [congruence|]. exact (IH N' H).
Qed.

Lemma close_all_incl (stack : list handle) (l : list (handle * Resource)) (x : handle) :
  In x (map fst (fold_left (fun l h => release h l) stack l)) -> In x (map fst l).
Proof.
  revert l. induction stack as [|h stack IH]; intros l; simpl; auto.
  intros H. apply IH in H. eapply release_incl. exact H.
Qed.

Lemma close_all_nodup (stack : list handle) (l : list (handle * Resource)) :
  NoDup (map fst l) ->
  NoDup (map fst (fold_left (fun l h => release h l) stack l)).
Proof.
  revert l. induction stack as [|h stack IH]; intros l N; simpl; auto.
  apply IH. apply release_nodup. exact N.
Qed.

Lemma close_all_gone (stack : list handle) (l : list (handle * Resource)) (h : handle) :
  NoDup (map fst l) -> In h stack ->
  ~ In h (map fst (fold_left (fun l h => release h l) stack l)).
Proof.
  revert l. induction stack as [|a stack IH]; intros l N Hin; [destruct Hin|].
  destruct Hin as [Ha|Hin]; simpl.
  - subst a. intros H. apply close_all_incl in H.
    exact (release_gone h l N H).
  - apply IH; [apply release_nodup; exact N|exact Hin].
Qed.

Lemma shutdown_fold (conns : registry) (w : World) :
  snd (fold_left (fun s conn_id => disconnect conn_id s) (map fst conns) (w, conns))
    = [] /\
  (forall x,
     In x (map fst (live (fst (fold_left (fun s conn_id => disconnect conn_id s)
                                  (map fst conns) (w, conns))))) ->
     In x (map fst (live w))) /\
  (NoDup (map fst (live w)) ->
   forall k c h, In (k, c) conns -> In h (exit_stack c) ->
     ~ In h (map fst (live (fst (fold_left (fun s conn_id => disconnect conn_id s)
                                   (map fst conns) (w, conns)))))).
Proof.
  revert w. induction conns as [|[k0 c0] rest IH]; intros w.
  - simpl. split; [reflexivity|]. split; [auto|]. intros _ k c h [].
  - cbn [map fst fold_left]. unfold disconnect at 2 4 6. cbn [fst snd dict_get].
    rewrite str_eqb_refl. cbn [dict_del]. rewrite str_eqb_refl.
    destruct (IH (aclose (exit_stack c0) w)) as (He & Hin & Hgone).
    split; [exact He|]. split.
    + intros x Hx. apply Hin in Hx. cbn [aclose live] in Hx.
      eapply close_all_incl. exact Hx.
    + intros Hnd k c h [Hkc|Hkc] Hh.
      * inversion Hkc; subst. intros Hx. apply Hin in Hx.
        cbn [aclose live] in Hx. exact (close_all_gone _ _ _ Hnd Hh Hx).
      * apply (Hgone (close_all_nodup _ _ Hnd) k c h Hkc Hh).
Qed.

(** X6. [shutdown_event] leaves the registry empty; open resources being
    numbered apart, nothing that a registered exit stack held is open
    afterwards, and nothing is open that was not open before. *)
Theorem shutdown_closes_everything (w : World) (conns : registry) :
  snd (shutdown_event (w, conns)) = [] /\
  (forall x, In x (map fst (live (fst (shutdown_event (w, conns))))) ->
             In x (map fst (live w))) /\
  (NoDup (map fst (live w)) ->
   forall k c h, In (k, c) conns -> In h (exit_stack c) ->
     ~ In h (map fst (live (fst (shutdown_event (w, conns)))))).
Proof.
  unfold shutdown_event. cbn [snd]. apply shutdown_fold.
Qed.

Lemma shutdown_closes_everything_witness :
  ~ In 1%nat (map fst (live (fst (shutdown_event (Demo.connected_world, Demo.conns))))).
Proof.
  destruct (shutdown_closes_everything Demo.connected_world Demo.conns)
    as (_ & _ & H).
  apply (H (ltac:(repeat constructor; simpl; intuition discriminate))
           (lit "docs") Demo.docs_conn 1%nat).
  - left. reflexivity.
  - right. left. reflexivity.
Defined.

Example shutdown_of_demo :
  shutdown_event (Demo.connected_world, Demo.conns)
  = ({| attempts := attempts Demo.connected_world; live := [] |}, []).
Proof. reflexivity. Qed.

(** ** [connect]: what is reported when [session.initialize()] fails *)

(** X7. Over the event-stream transport, when the transport and the
    session context have opened and [session.initialize()] raises,
    [connect] closes both and raises HTTP 500 whose detail is
    [Connection Failed:] followed by the text of: the 504 timeout
    exception for a timeout, the exception itself when it is an
    [HTTPException], and otherwise the [TypeError] that the handler at
    line 348 raises itself when it calls the string parameter [type]; the
    text of the original exception is then not part of the detail. *)
Theorem connect_initialize_failure (E : Env) (connection_id target type target' : str)
    (w : World) (conns : registry) (e : exn) :
  select_transport target type = Ok (Sse, target') ->
  enter_outcome E (List.length (attempts w)) (RSse target') = None ->
  enter_outcome E (S (List.length (attempts w)))
    (RSession (List.length (attempts w))) = None ->
  initialize E (S (List.length (attempts w))) = Some e ->
  connect E connection_id target type (w, conns)
  = (Raise (HTTPException 500
              (lit "Connection Failed: " +++ exn_str E (initialize_cause e))),
     ({| attempts := RSession (List.length (attempts w)) :: RSse target' ::
                     attempts w;
         live := live w |}, conns)).
Proof.
  intros Hsel Hopen Hsess Hinit.
  unfold connect, connect_frame, connect_body.
  unfold try_except at 1. unfold bind at 1. unfold lift at 1. rewrite Hsel.
  cbn [fst snd open_transport].
  unfold bind at 1. unfold try_except at 1.
  unfold enter_async_context at 1.
  cbn [world attempts live stack connections fst snd]. rewrite Hopen.
  unfold initialize_session. unfold bind at 1. unfold try_except at 1.
  unfold bind at 1. unfold enter_async_context at 1.
  cbn [world attempts live stack connections List.length]. rewrite Hsess, Hinit.
  destruct e;
    cbv beta iota delta [raise is_http bind call_type_parameter aclose_local
                           modify world attempts live stack connections
                           aclose fold_left initialize_cause];
    rewrite !release_head; reflexivity.
Qed.

Lemma connect_initialize_failure_witness :
  connect (Samples.refusing_server (OtherError (lit "protocol mismatch")))
    (lit "web") (lit "https://example.org/mcp") (lit "sse") (Demo.world0, [])
  = (Raise (HTTPException 500
              (lit "Connection Failed: 'str' object is not callable")),
     ({| attempts := [RSession 0%nat; RSse (lit "https://example.org/mcp")];
         live := [] |}, [])).
Proof.
  apply (connect_initialize_failure
           (Samples.refusing_server (OtherError (lit "protocol mismatch")))
           (lit "web") (lit "https://example.org/mcp") (lit "sse")
           (lit "https://example.org/mcp") Demo.world0 []
           (OtherError (lit "protocol mismatch"))); reflexivity.
Defined.

(** ** The lookup map of the catalog *)

Lemma fold_add_tool_pairs (conn_id : str) (ts : list Tool) (acc : list ToolDef * tool_map_t) :
  fold_left (add_tool conn_id) ts acc
  = fold_left (fun acc ct => add_tool (fst ct) acc (snd ct))
      (map (pair conn_id) ts) acc.
Proof.
  revert acc. induction ts as [|t ts IH]; intros acc; simpl; auto.
Qed.

Lemma get_all_tools_pairs (conns : registry) :
  get_all_tools conns
  = fold_left (fun acc ct => add_tool (fst ct) acc (snd ct))
      (catalog_pairs conns) ([], []).
Proof.
  unfold get_all_tools, get_all_tools_from, catalog_pairs.
  generalize (@nil ToolDef, @nil (str * ToolInfo)).
  induction conns as [|[id c] conns IH]; intros acc; simpl; auto.
  rewrite fold_left_app, IH, fold_add_tool_pairs. reflexivity.
Qed.

Lemma find_snoc {A} (p : A -> bool) (l : list A) (x : A) :
  find p (l ++ [x])
  = match find p l with
    | Some y => Some y
    | None => if p x then Some x else None
    end.
Proof.
  induction l as [|a l IH]; simpl; auto. destruct (p a); auto.
Qed.

Lemma tool_map_fold (pairs : list (str * Tool)) (acc : list ToolDef * tool_map_t) (k : str) :
  dict_get str_eqb
    (snd (fold_left (fun acc ct => add_tool (fst ct) acc (snd ct)) pairs acc)) k
  = match last_named k pairs with
    | Some ct => Some (pair_info ct)
    | None => dict_get str_eqb (snd acc) k
    end.
Proof.
  unfold last_named. revert acc.
  induction pairs as [|ct rest IH]; intros [all tm]; [reflexivity|].
  cbn [fold_left rev]. rewrite IH, find_snoc.
  destruct (find (fun ct0 => str_eqb k (pair_name ct0)) (rev rest)); auto.
  unfold add_tool. cbn [snd]. rewrite dict_get_set.
  change (name (tool_def (fst ct) (snd ct))) with (pair_name ct).
  destruct (str_eqb k (pair_name ct)); reflexivity.
Qed.

(** The lookup map sends a name to the last tool of the catalog that
    carries it *)
Lemma tool_map_lookup (conns : registry) (k : str) :
  dict_get str_eqb (snd (get_all_tools conns)) k
  = option_map pair_info (last_named k (catalog_pairs conns)).
Proof.
  rewrite get_all_tools_pairs, tool_map_fold.
  destruct (last_named k (catalog_pairs conns)); reflexivity.
Qed.

Lemma catalog_defs_pairs (conns : registry) :
  fst (get_all_tools conns)
  = map (fun ct => tool_def (fst ct) (snd ct)) (catalog_pairs conns).
Proof.
  rewrite get_all_tools_defs. unfold catalog_pairs.
  induction conns as [|[id c] conns IH]; simpl; auto.
  rewrite map_app, map_map, IH. reflexivity.
Qed.

Lemma last_named_some (k : str) (pairs : list (str * Tool)) (ct : str * Tool) :
  last_named k pairs = Some ct -> In ct pairs /\ pair_name ct = k.
Proof.
  unfold last_named. intros H. apply find_some in H as [Hin Hk].
  split; [apply in_rev; exact Hin|]. apply str_eqb_eq in Hk. auto.
Qed.

Lemma last_named_exists (k : str) (pairs : list (str * Tool)) (ct : str * Tool) :
  In ct pairs -> pair_name ct = k -> exists ct', last_named k pairs = Some ct'.
Proof.
  intros Hin Hk. unfold last_named.
  destruct (find (fun ct0 => str_eqb k (pair_name ct0)) (rev pairs)) eqn:Hf;
    [eauto|].
  exfalso. apply in_rev in Hin.
  pose proof (find_none _ _ Hf ct Hin) as Hn. cbv beta in Hn.
  rewrite Hk, str_eqb_refl in Hn. discriminate.
Qed.

Lemma catalog_pair_registered (conns : registry) (ct : str * Tool) :
  In ct (catalog_pairs conns) ->
  exists conn, dict_get str_eqb conns (fst ct) = Some conn.
Proof.
  unfold catalog_pairs. intros H.
  apply in_flat_map in H as ([id c] & Hc & Hct).
  apply in_map_iff in Hct as (t & <- & _). cbn [fst].
  destruct (dict_get str_eqb conns id) as [conn|] eqn:Hg; [eauto|].
  exfalso. apply dict_get_none in Hg. apply Hg.
  apply in_map_iff. exists (id, c). auto.
Qed.

(** X8. The lookup map that [get_all_tools] returns holds every name of
    the catalog, and sends a name to the connection id and original name
    of the last tool, in catalog order, that carries that name: when two
    tools get the same sanitized name, both stay in the catalog and the
    map knows the later one only. *)
Theorem tool_map_last_wins (conns : registry) :
  (forall k,
     dict_get str_eqb (snd (get_all_tools conns)) k
     = option_map pair_info (last_named k (catalog_pairs conns))) /\
  (forall d, In d (fst (get_all_tools conns)) ->
     exists ct,
       In ct (catalog_pairs conns) /\
       pair_name ct = name d /\
       dict_get str_eqb (snd (get_all_tools conns)) (name d) = Some (pair_info ct)) /\
  List.length (fst (get_all_tools conns)) = List.length (catalog_pairs conns).
Proof.
  split; [apply tool_map_lookup|]. split.
  - intros d Hd. rewrite catalog_defs_pairs in Hd.
    apply in_map_iff in Hd as (ct0 & <- & Hin).
    destruct (last_named_exists (pair_name ct0) _ ct0 Hin eq_refl) as (ct & Hl).
    destruct (last_named_some _ _ _ Hl) as [Hin' Hn].
    exists ct. split; [exact Hin'|]. split; [exact Hn|].
    cbn [name tool_def]. fold (pair_name ct0).
    rewrite tool_map_lookup, Hl. reflexivity.
  - rewrite catalog_defs_pairs. apply length_map.
Qed.

(** Two tools whose names differ in a character outside the word class
    collide: the catalog lists the name twice, the map keeps the second *)
Example tool_map_collision :
  let conns := [(lit "docs",
                 {| conn_name := lit "docs"; session := 2%nat;
                    exit_stack := [2; 1; 0]%nat;
                    tools := [ {| tool_name := lit "get-item";
                                  tool_description := None;
                                  tool_inputSchema := JObj [] |};
                               {| tool_name := lit "get.item";
                                  tool_description := None;
                                  tool_inputSchema := JObj [] |} ];
                    resources := []; prompts := [] |})] in
  map name (fst (get_all_tools conns))
    = [lit "docs__get_item"; lit "docs__get_item"] /\
  map (fun kv => (fst kv, real_name (snd kv))) (snd (get_all_tools conns))
    = [(lit "docs__get_item", lit "get.item")].
Proof. split; reflexivity. Qed.

(** X9. Every entry of the catalog has a description that is not empty
    and has at most 1024 characters, and parameters that are an object. *)
Theorem catalog_entries_wellformed (conns : registry) (d : ToolDef) :
  In d (fst (get_all_tools conns)) ->
  description d <> [] /\ len (description d) <= 1024 /\
  is_dict (parameters d) = true.
Proof.
  rewrite catalog_defs_pairs. intros H.
  apply in_map_iff in H as ([id t] & <- & _). cbn [fst snd].
  unfold tool_def. cbn [description parameters].
  split; [|split].
  - destruct (tool_description t) as [[|c desc]|]; simpl; discriminate.
  - destruct (tool_description t) as [[|c desc]|]; cbn [truthy];
      try (vm_compute; discriminate).
    apply len_slice_to_le.
  - destruct (tool_inputSchema t); reflexivity.
Qed.

Lemma catalog_entries_wellformed_witness :
  description Demo.search_def <> [] /\ len (description Demo.search_def) <= 1024 /\
  is_dict (parameters Demo.search_def) = true.
Proof.
  apply (catalog_entries_wellformed Demo.conns Demo.search_def).
  simpl. left. reflexivity.
Defined.

(** ** [execute_tool] on a name of the catalog *)

Lemma execute_tool_one_call (E : Env) (conns : registry) (unique_name : str)
    (args : json) (tool_map : tool_map_t) (info : ToolInfo)
    (conn : MCPConnection) (calls : list Invocation) :
  dict_get str_eqb tool_map unique_name = Some info ->
  dict_get str_eqb conns (connection_id info) = Some conn ->
  exists out,
    execute_tool E conns unique_name args tool_map calls
    = (Ok out,
       calls ++ [{| inv_session := session conn; inv_tool := real_name info;
                    inv_args := args |}]).
Proof.
  intros Hi Hc. unfold execute_tool. rewrite Hi, Hc.
  unfold try_except, bind, session_call_tool, ret.
  destruct (call_tool E (session conn) (real_name info) args) as [result|e];
    [destruct (isError result)|]; eexists; reflexivity.
Qed.

(** X10. Executing a name of the catalog with the lookup map of the same
    registry makes exactly one call: on the session registered under the
    connection id of the last tool that carries the name, with that tool's
    original name and the given arguments - whether the call then
    succeeds, reports an error or raises. *)
Theorem execute_tool_dispatch (E : Env) (conns : registry) (k : str)
    (args : json) (calls : list Invocation) (ct : str * Tool) :
  last_named k (catalog_pairs conns) = Some ct ->
  exists conn out,
    dict_get str_eqb conns (fst ct) = Some conn /\
    execute_tool E conns k args (snd (get_all_tools conns)) calls
    = (Ok out,
       calls ++ [{| inv_session := session conn;
                    inv_tool := tool_name (snd ct);
                    inv_args := args |}]).
Proof.
  intros Hl. destruct (last_named_some _ _ _ Hl) as [Hin _].
  destruct (catalog_pair_registered _ _ Hin) as (conn & Hc).
  assert (Hi : dict_get str_eqb (snd (get_all_tools conns)) k = Some (pair_info ct)).
  { rewrite tool_map_lookup, Hl. reflexivity. }
  destruct (execute_tool_one_call E conns k args _ _ conn calls Hi Hc) as (out & Hrun).
  exists conn, out. split; [exact Hc|exact Hrun].
Qed.

Lemma execute_tool_dispatch_witness :
  exists conn out,
    dict_get str_eqb Demo.conns (lit "docs") = Some conn /\
    execute_tool Samples.plain_server Demo.conns (lit "docs__search_index_v2")
      (JObj []) (snd (get_all_tools Demo.conns)) []
    = (Ok out,
       [{| inv_session := session conn; inv_tool := lit "search-index.v2";
           inv_args := JObj [] |}]).
Proof.
  apply (execute_tool_dispatch Samples.plain_server Demo.conns
           (lit "docs__search_index_v2") (JObj []) []
           (lit "docs", Demo.search_tool)).
  reflexivity.
Defined.

(** ** Results within the limit *)

(** X12. A successful execution whose concatenated result is not empty
    and has at most 8000 characters returns that result unchanged. *)
Theorem execute_tool_within_limit (E : Env) (conns : registry) (unique_name : str)
    (args : json) (tool_map : tool_map_t) (info : ToolInfo)
    (conn : MCPConnection) (result : CallToolResult) (calls : list Invocation) :
  dict_get str_eqb tool_map unique_name = Some info ->
  dict_get str_eqb conns (connection_id info) = Some conn ->
  call_tool E (session conn) (real_name info) args = Ok result ->
  isError result = false ->
  joined_output E result <> [] ->
  len (joined_output E result) <= 8000 ->
  fst (execute_tool E conns unique_name args tool_map calls)
  = Ok (joined_output E result).
Proof.
  intros Hi Hc Hr He Hne Hlen.
  rewrite (execute_tool_success E conns unique_name args tool_map info conn
             result calls Hi Hc Hr He).
  cbn [fst]. f_equal. apply shape_output_within; assumption.
Qed.

Lemma execute_tool_within_limit_witness :
  fst (execute_tool (Demo.server (fun _ => None) (Ok (Demo.text_result (lit "3 hits"))))
         Demo.conns (lit "docs__search_index_v2") (JObj [])
         (snd (get_all_tools Demo.conns)) [])
  = Ok (lit "3 hits").
Proof.
  apply (execute_tool_within_limit
           (Demo.server (fun _ => None) (Ok (Demo.text_result (lit "3 hits"))))
           Demo.conns (lit "docs__search_index_v2") (JObj [])
           (snd (get_all_tools Demo.conns))
           {| connection_id := lit "docs"; real_name := lit "search-index.v2" |}
           Demo.docs_conn (Demo.text_result (lit "3 hits")) []);
    try reflexivity.
  - discriminate.
  - vm_compute. discriminate.
Defined.

(** ** [read_resource] and [get_prompt] *)

(** X13. The resource and prompt endpoints raise nothing but HTTP 500.
    For a connection id that is not registered the detail is the text of
    [ValueError("Connection not found")] and no session is called; for a
    registered one the session is called exactly once, an exception of
    the call becomes the detail of the 500, and a result is flattened:
    resource texts verbatim, blobs as a placeholder with their media
    type, other items dropped, joined by a blank line; prompt texts
    joined by a newline, messages without text dropped. *)
Theorem read_endpoints_outcomes (E : Env) (S : Sdk) (conns : registry)
    (connection_id target : str) (args : option (list (str * str)))
    (calls : list SessionCall) :
  let read := read_resource_endpoint E S conns connection_id target calls in
  let prompt := get_prompt_endpoint E S conns connection_id target args calls in
  (forall e, fst read = Raise e \/ fst prompt = Raise e ->
             exists detail, e = HTTPException 500 detail) /\
  match dict_get str_eqb conns connection_id with
  | None =>
      read = (Raise (HTTPException 500
                       (exn_str E (ValueError (lit "Connection not found")))),
              calls) /\
      prompt = (Raise (HTTPException 500
                         (exn_str E (ValueError (lit "Connection not found")))),
                calls)
  | Some conn =>
      snd read = calls ++ [ReadResource (session conn) target] /\
      snd prompt = calls ++ [GetPrompt (session conn) target args] /\
      fst read
      = match session_read_resource S (session conn) target with
        | Ok items =>
            Ok (join (nl +++ nl)
                  (flat_map
                     (fun item =>
                        match item with
                        | TextResourceContents text => [text]
                        | BlobResourceContents (Some mimeType) =>
                            [lit "[Binary Blob: " +++ mimeType +++ lit "]"]
                        | BlobResourceContents None =>
                            [lit "[Binary Blob: None]"]
                        | OtherContents => []
                        end) items))
        | Raise e => Raise (HTTPException 500 (exn_str E e))
        end /\
      fst prompt
      = match session_get_prompt S (session conn) target args with
        | Ok messages =>
            Ok (join nl (flat_map (fun content => match content with
                                                  | Some text => [text]
                                                  | None => []
                                                  end) messages))
        | Raise e => Raise (HTTPException 500 (exn_str E e))
        end
  end.
Proof.
  cbv zeta.
  unfold read_resource_endpoint, get_prompt_endpoint, read_resource, get_prompt.
  destruct (dict_get str_eqb conns connection_id) as [conn|].
  - unfold try_except, bind, call_read_resource, call_get_prompt, ret, raise.
    assert (F : forall items,
      flat_map render_resource items
      = flat_map
          (fun item =>
             match item with
             | TextResourceContents text => [text]
             | BlobResourceContents (Some mimeType) =>
                 [lit "[Binary Blob: " +++ mimeType +++ lit "]"]
             | BlobResourceContents None => [lit "[Binary Blob: None]"]
             | OtherContents => []
             end) items).
    { intros items. apply flat_map_ext. intros [text|[m|]|]; reflexivity. }
    destruct (session_read_resource S (session conn) target) as [items|e1];
      destruct (session_get_prompt S (session conn) target args) as [ms|e2];
      cbn [fst snd]; rewrite ?F;
      (split; [intros e [H|H]; inversion H; eauto|repeat split]).
  - cbn [fst]. split; [|split; reflexivity].
    intros e [H|H]; inversion H; eauto.
Qed.

Lemma read_endpoints_outcomes_witness :
  let S := {| session_read_resource := fun _ _ =>
                Ok [TextResourceContents (lit "alpha"); OtherContents;
                    BlobResourceContents (Some (lit "image/png"));
                    TextResourceContents (lit "omega")];
              session_get_prompt := fun _ _ _ =>
                Ok [Some (lit "Summarise"); None; Some (lit "the file")] |} in
  read_resource_endpoint Samples.plain_server S Demo.conns
    (lit "docs") (lit "file:///a") []
  = (Ok (lit "alpha" +++ nl +++ nl +++ lit "[Binary Blob: image/png]"
         +++ nl +++ nl +++ lit "omega"),
     [ReadResource 2%nat (lit "file:///a")]) /\
  get_prompt_endpoint Samples.plain_server S Demo.conns
    (lit "docs") (lit "brief") None []
  = (Ok (lit "Summarise" +++ nl +++ lit "the file"),
     [GetPrompt 2%nat (lit "brief") None]) /\
  read_resource_endpoint Samples.plain_server S Demo.conns
    (lit "absent") (lit "file:///a") []
  = (Raise (HTTPException 500 (lit "Connection not found")), []).
Proof.
  intros S.
  pose proof (read_endpoints_outcomes Samples.plain_server S Demo.conns
                (lit "docs") (lit "file:///a") None []) as Hread.
  pose proof (read_endpoints_outcomes Samples.plain_server S Demo.conns
                (lit "docs") (lit "brief") None []) as Hprompt.
  pose proof (read_endpoints_outcomes Samples.plain_server S Demo.conns
                (lit "absent") (lit "file:///a") None []) as Habsent.
  cbv zeta in Hread, Hprompt, Habsent.
  destruct Hread as [_ Hread]. destruct Hprompt as [_ Hprompt].
  destruct Habsent as [_ Habsent].
  change (dict_get str_eqb Demo.conns (lit "docs"))
    with (Some Demo.docs_conn) in Hread, Hprompt.
  change (dict_get str_eqb Demo.conns (lit "absent"))
    with (@None MCPConnection) in Habsent.
  destruct Hread as (Hcalls & _ & Hout & _).
  destruct Hprompt as (_ & Hcalls' & _ & Hout').
  destruct Habsent as [Habsent _].
  split; [|split].
  - rewrite (surjective_pairing (read_resource_endpoint _ _ _ _ _ _)).
    rewrite Hcalls, Hout. reflexivity.
  - rewrite (surjective_pairing (get_prompt_endpoint _ _ _ _ _ _ _)).
    rewrite Hcalls', Hout'. reflexivity.
  - rewrite Habsent. reflexivity.
Defined.

Example read_resource_mixed_contents :
  read_resource_endpoint Samples.plain_server
    {| session_read_resource := fun _ _ =>
         Ok [TextResourceContents (lit "alpha"); OtherContents;
             BlobResourceContents (Some (lit "image/png"));
             BlobResourceContents None; TextResourceContents (lit "omega")];
       session_get_prompt := fun _ _ _ => Ok [] |}
    Demo.conns (lit "docs") (lit "file:///a") []
  = (Ok (lit "alpha" +++ nl +++ nl +++ lit "[Binary Blob: image/png]" +++ nl +++ nl +++
         lit "[Binary Blob: None]" +++ nl +++ nl +++ lit "omega"),
     [ReadResource 2%nat (lit "file:///a")]).
Proof. reflexivity. Qed.

(** ** Re-entering the orchestrator after a tool execution *)

Lemma gemini_history_app (R : Runtime) (a b : list Message) :
  gemini_history R (a ++ b)
  = match gemini_history R a with
    | Raise e => Raise e
    | Ok ha =>
        match gemini_history R b with
        | Raise e => Raise e
        | Ok hb => Ok (ha ++ hb)
        end
    end.
Proof.
  induction a as [|m a IH]; cbn [app gemini_history].
  - destruct (gemini_history R b); reflexivity.
  - destruct (gemini_translate R m) as [c|e]; [|reflexivity].
    rewrite IH. destruct (gemini_history R a) as [ha|e]; [|reflexivity].
    destruct (gemini_history R b) as [hb|e]; [|reflexivity].
    rewrite app_assoc. reflexivity.
Qed.

(** X14. A tool-result turn of the execution endpoint appended to a
    history adds exactly one message at the end of each provider's
    translated history: for Groq a [tool] message with the originating
    call id, for Gemini a function response under role [user]; a Gemini
    translation that raises on the history raises the same with the turn
    appended. *)
Theorem reentry_history_grows (R : Runtime) (catalog : list ToolDef)
    (raw_history : list Message) (req : ExecuteToolRequest)
    (result_text fresh : str) (now : N) :
  let m := stored_tool_result req result_text fresh now in
  groq_history R catalog (raw_history ++ [m])
  = groq_history R catalog raw_history ++
    [GTool (Some (req_tool_call_id req)) (truncate_for_groq (msg_content m))] /\
  gemini_history R (raw_history ++ [m])
  = match gemini_history R raw_history with
    | Ok history =>
        Ok (history ++
            [{| gc_role := lit "user";
                gc_parts := [PFunctionResponse (gemini_tool_name (msg_content m))
                               (truncate_for_gemini (msg_content m))] |}])
    | Raise e => Raise e
    end /\
  List.length (groq_history R catalog (raw_history ++ [m]))
  = S (List.length (groq_history R catalog raw_history)) /\
  match gemini_history R raw_history, gemini_history R (raw_history ++ [m]) with
  | Ok before, Ok after => List.length after = S (List.length before)
  | Raise e, Raise e' => e = e'
  | _, _ => False
  end.
Proof.
  intros m.
  assert (G : groq_history R catalog (raw_history ++ [m])
              = groq_history R catalog raw_history ++
                [GTool (Some (req_tool_call_id req))
                   (truncate_for_groq (msg_content m))]).
  { unfold groq_history. rewrite flat_map_app, app_assoc. reflexivity. }
  assert (M : gemini_history R (raw_history ++ [m])
              = match gemini_history R raw_history with
                | Ok history =>
                    Ok (history ++
                        [{| gc_role := lit "user";
                            gc_parts :=
                              [PFunctionResponse (gemini_tool_name (msg_content m))
                                 (truncate_for_gemini (msg_content m))] |}])
                | Raise e => Raise e
                end).
  { rewrite gemini_history_app.
    destruct (gemini_history R raw_history); reflexivity. }
  split; [exact G|]. split; [exact M|]. split.
  - rewrite G, !length_app. simpl. lia.
  - rewrite M. destruct (gemini_history R raw_history); [|reflexivity].
    rewrite length_app. simpl. lia.
Qed.

Lemma add_message_fresh (t : Table) (sid : str) (msg_data : MsgData)
    (fresh : str) (now : N) :
  (forall r, In r t -> id r <> id (row_of sid msg_data fresh now)) ->
  add_message t sid msg_data fresh now = t ++ [row_of sid msg_data fresh now].
Proof.
  intros Hnew. unfold add_message, insert_or_replace. f_equal.
  apply filter_all. intros r Hr. apply negb_true_iff.
  apply str_eqb_neq. exact (Hnew r Hr).
Qed.

Lemma insert_by_time_last (r : Row) (sorted : list Row) :
  (forall x, In x sorted -> created_at x <= created_at r) ->
  insert_by_time r sorted = sorted ++ [r].
Proof.
  induction sorted as [|x rest IH]; intros H; simpl; auto.
  assert (Hx : (created_at r <? created_at x) = false).
  { apply N.ltb_ge. apply H. left. reflexivity. }
  rewrite Hx. f_equal. apply IH. intros y Hy. apply H. right. exact Hy.
Qed.

Lemma order_by_snoc (rows : list Row) (r : Row) :
  order_by_created_at (rows ++ [r]) = insert_by_time r (order_by_created_at rows).
Proof. unfold order_by_created_at. rewrite fold_left_app. reflexivity. Qed.

(** The turn stored last, with a clock that is not behind, is returned last *)
Lemma get_messages_snoc (t : Table) (r : Row) :
  (forall x, In x t -> session_id x = session_id r -> created_at x <= created_at r) ->
  get_messages (t ++ [r]) (session_id r)
  = get_messages t (session_id r) ++ [message_of_row r].
Proof.
  intros H. unfold get_messages. rewrite filter_app. simpl.
  rewrite str_eqb_refl, order_by_snoc, insert_by_time_last.
  - apply map_app.
  - intros x Hx. apply -> in_order_by_created_at in Hx.
    apply filter_In in Hx as [Hx Hs]. apply str_eqb_eq in Hs. auto.
Qed.

(** X15. When the identifier drawn for the tool-result turn is not yet a
    message id and no stored turn of the session is later than the clock,
    the execution endpoint hands the provider the session's history as it
    was, followed by the new tool-result turn, and yields the
    [tool_result] event before any event of the resumed stream. *)
Theorem execute_tool_endpoint_history (E : Env) (R : Runtime) (conns : registry)
    (t : Table) (req : ExecuteToolRequest) (uuid : nat -> str) (now : N) :
  (forall r, In r t -> id r <> uuid 0%nat) ->
  (forall r, In r t -> session_id r = req_session_id req -> created_at r <= now) ->
  exists run result_text,
    execute_tool_endpoint E R conns t req uuid now = Ok run /\
    let m := message_of_row
               (row_of (req_session_id req)
                  (tool_result_turn req result_text (uuid 0%nat)) (uuid 1%nat) now) in
    get_messages (run_table run) (req_session_id req)
      = get_messages t (req_session_id req) ++ [m] /\
    run_actions run
      = AddMessage (req_session_id req)
          (tool_result_turn req result_text (uuid 0%nat)) ::
        Yield (EvToolResult (req_tool_name req) result_text) ::
        stream_llm_response R conns (req_session_id req)
          (get_messages t (req_session_id req) ++ [m]) None
          (fun n => uuid (2 + n)%nat).
Proof.
  intros Hid Hclock. unfold execute_tool_endpoint.
  destruct (execute_tool_total E conns (req_tool_name req) (req_tool_args req)
              (snd (get_all_tools conns)) []) as (out & calls' & ->).
  eexists _, out. split; [reflexivity|]. cbn zeta. cbn [run_table run_actions].
  assert (Hget :
    get_messages
      (add_message t (req_session_id req)
         (tool_result_turn req out (uuid 0%nat)) (uuid 1%nat) now)
      (req_session_id req)
    = get_messages t (req_session_id req) ++
      [message_of_row
         (row_of (req_session_id req)
            (tool_result_turn req out (uuid 0%nat)) (uuid 1%nat) now)]).
  { rewrite add_message_fresh by exact Hid.
    apply (get_messages_snoc t
             (row_of (req_session_id req)
                (tool_result_turn req out (uuid 0%nat)) (uuid 1%nat) now)).
    exact Hclock. }
  split; [exact Hget|]. rewrite Hget. reflexivity.
Qed.

Lemma execute_tool_endpoint_history_witness :
  exists run,
    execute_tool_endpoint Samples.plain_server Demo.no_providers Demo.conns
      Demo.one_turn Demo.search_request Demo.uuids 5 = Ok run /\
    List.length (get_messages (run_table run) (lit "s1")) = 2%nat.
Proof.
  destruct (execute_tool_endpoint_history Samples.plain_server Demo.no_providers
              Demo.conns Demo.one_turn Demo.search_request Demo.uuids 5)
    as (run & result_text & Hrun & H).
  - intros r [<-|[]]. discriminate.
  - intros r [<-|[]] _. vm_compute. discriminate.
  - exists run. split; [exact Hrun|].
    cbn zeta in H. destruct H as [Hget _].
    change (req_session_id Demo.search_request) with (lit "s1") in Hget.
    rewrite Hget, length_app. reflexivity.
Defined.

(** ** A long result is cut twice *)

Lemma firstn_app_firstn {A} (n : nat) (p j b : list A) :
  (n <= List.length j)%nat ->
  firstn n (p ++ firstn n j ++ b) = firstn n (p ++ j).
Proof.
  intros H. rewrite !firstn_app. f_equal.
  rewrite firstn_firstn, length_firstn.
  replace (Nat.min (n - List.length p) n) with (n - List.length p)%nat by lia.
  replace (n - List.length p - Nat.min n (List.length j))%nat with 0%nat by lia.
  simpl. apply app_nil_r.
Qed.

Lemma stored_content_long (tool joined : str) :
  8000 < len joined ->
  8000 < len (output_prefix tool +++ shape_output joined) /\
  slice_to 8000 (output_prefix tool +++ shape_output joined)
  = slice_to 8000 (output_prefix tool +++ joined).
Proof.
  intros H. rewrite shape_output_truncated by exact H. split.
  - rewrite !len_app.
    unfold MAX_TOOL_RESULT_LENGTH, len, slice_to in *.
    rewrite length_firstn.
    rewrite Nat.min_l by lia. rewrite N2Nat.id.
    destruct (output_prefix tool) as [|c0 rest] eqn:Ep; [discriminate Ep|].
    cbn [List.length]. lia.
  - unfold slice_to, MAX_TOOL_RESULT_LENGTH. apply firstn_app_firstn.
    unfold len, char in *. lia.
Qed.

(** X16. A result of more than 8000 characters is cut when the tool is
    executed and again when the stored turn is translated for a provider:
    what the provider receives is the first 8000 characters of the head
    [Tool '<name>' Output:] and the uncut result, followed by the
    translation's own marker; nothing of the banner that [execute_tool]
    appended is left. *)
Theorem long_result_cut_twice (req : ExecuteToolRequest) (joined fresh : str) (now : N) :
  8000 < len joined ->
  let m := stored_tool_result req (shape_output joined) fresh now in
  truncate_for_groq (msg_content m)
  = slice_to 8000 (output_prefix (req_tool_name req) +++ joined) +++ nl +++ nl +++
    lit "[... Output truncated. Total length: " +++
    str_of_N (len (msg_content m)) +++ lit " characters]" /\
  truncate_for_gemini (msg_content m)
  = slice_to 8000 (output_prefix (req_tool_name req) +++ joined) +++ nl +++ nl +++
    lit "[... Output truncated. Total: " +++
    str_of_N (len (msg_content m)) +++ lit " chars]".
Proof.
  intros H m.
  assert (C : msg_content m
              = output_prefix (req_tool_name req) +++ shape_output joined).
  { unfold m, stored_tool_result, output_prefix. cbn.
    rewrite <- !app_assoc. reflexivity. }
  destruct (stored_content_long (req_tool_name req) joined H) as [Hlong Hcut].
  unfold truncate_for_groq, truncate_for_gemini. rewrite C.
  apply N.ltb_lt in Hlong. unfold char in *.
  rewrite Hlong, Hcut. split; reflexivity.
Qed.

Lemma long_result_cut_twice_witness :
  truncate_for_gemini
    (msg_content
       (stored_tool_result Demo.search_request (shape_output Demo.long_text)
          (lit "u0") 5))
  = slice_to 8000 (output_prefix (req_tool_name Demo.search_request) +++
                   Demo.long_text) +++ nl +++ nl +++
    lit "[... Output truncated. Total: " +++
    str_of_N (len (msg_content
                     (stored_tool_result Demo.search_request
                        (shape_output Demo.long_text) (lit "u0") 5))) +++
    lit " chars]".
Proof.
  apply (long_result_cut_twice Demo.search_request Demo.long_text (lit "u0") 5).
  vm_compute. reflexivity.
Defined.

(** ** Groq: assembling the fragments of streamed tool calls *)

Lemma buffer_get_set (d : Buffer) (k k' : N) (v : BufferEntry) :
  dict_get N.eqb (dict_set N.eqb d k v) k'
  = if N.eqb k' k then Some v else dict_get N.eqb d k'.
Proof.
  induction d as [|[k0 v0] d IH]; simpl.
  - destruct (N.eqb k' k); reflexivity.
  - destruct (N.eqb k k0) eqn:E; simpl.
    + apply N.eqb_eq in E. subst k0. destruct (N.eqb k' k); reflexivity.
    + destruct (N.eqb k' k0) eqn:E'.
      * apply N.eqb_eq in E'. subst k0.
        rewrite N.eqb_sym in E. rewrite E. reflexivity.
      * exact IH.
Qed.

Lemma buffer_set_keys (d : Buffer) (k : N) (v : BufferEntry) :
  map fst (dict_set N.eqb d k v)
  = if dict_mem N.eqb d k then map fst d else map fst d ++ [k].
Proof.
  unfold dict_mem. induction d as [|[k0 v0] d IH]; simpl.
  - reflexivity.
  - destruct (N.eqb k k0) eqn:E; simpl.
    + reflexivity.
    + rewrite IH. destruct (dict_get N.eqb d k); reflexivity.
Qed.

Lemma buffer_mem_keys (d : Buffer) (k : N) :
  dict_mem N.eqb d k = existsb (N.eqb k) (map fst d).
Proof.
  unfold dict_mem. induction d as [|[k0 v0] d IH]; simpl.
  - reflexivity.
  - destruct (N.eqb k k0); simpl; [reflexivity|exact IH].
Qed.

(** An update of the entry under [idx] keeps the keys and the other
    entries *)
Lemma update_entry_at (b : Buffer) (idx : N) (f : BufferEntry -> BufferEntry)
    (e : BufferEntry) :
  dict_get N.eqb b idx = Some e ->
  map fst (update_entry b idx f) = map fst b /\
  (forall k, N.eqb k idx = false ->
     dict_get N.eqb (update_entry b idx f) k = dict_get N.eqb b k) /\
  dict_get N.eqb (update_entry b idx f) idx = Some (f e).
Proof.
  intros H. unfold update_entry. rewrite H. split; [|split].
  - rewrite buffer_set_keys. unfold dict_mem. rewrite H. reflexivity.
  - intros k Hk. rewrite buffer_get_set, Hk. reflexivity.
  - rewrite buffer_get_set, N.eqb_refl. reflexivity.
Qed.

Lemma accumulate_spec (b : Buffer) (tc : GroqToolCallDelta) :
  map fst (accumulate b tc)
  = (if dict_mem N.eqb b (tcd_index tc) then map fst b
     else map fst b ++ [tcd_index tc]) /\
  (forall k, N.eqb k (tcd_index tc) = false ->
     dict_get N.eqb (accumulate b tc) k = dict_get N.eqb b k) /\
  exists e, dict_get N.eqb (accumulate b tc) (tcd_index tc) = Some e /\
            b_arguments e
            = entry_arguments b (tcd_index tc) +++ fragment_arguments tc.
Proof.
  unfold accumulate, fragment_arguments. cbv zeta.
  set (idx := tcd_index tc).
  set (b1 := if negb (dict_mem N.eqb b idx) then
               dict_set N.eqb b idx
                 {| b_id := match nonempty (tcd_id tc) with
                            | Some i => i | None => [] end;
                    b_name := []; b_arguments := [] |}
             else b).
  assert (H1 : map fst b1
               = (if dict_mem N.eqb b idx then map fst b else map fst b ++ [idx]) /\
               (forall k, N.eqb k idx = false ->
                  dict_get N.eqb b1 k = dict_get N.eqb b k) /\
               exists e, dict_get N.eqb b1 idx = Some e /\
                         b_arguments e = entry_arguments b idx).
  { unfold b1, entry_arguments, dict_mem.
    destruct (dict_get N.eqb b idx) as [e0|] eqn:G; simpl.
    - split; [reflexivity|]. split; [reflexivity|].
      exists e0. split; [exact G|reflexivity].
    - split.
      + rewrite buffer_set_keys. unfold dict_mem. rewrite G. reflexivity.
      + split.
        * intros k Hk. rewrite buffer_get_set, Hk. reflexivity.
        * eexists. rewrite buffer_get_set, N.eqb_refl.
          split; reflexivity. }
  clearbody b1. destruct H1 as (K1 & O1 & e1 & G1 & A1).
  set (b2 := match nonempty (tcd_id tc) with
             | Some i =>
                 update_entry b1 idx
                   (fun e => {| b_id := i; b_name := b_name e;
                                b_arguments := b_arguments e |})
             | None => b1
             end).
  assert (H2 : map fst b2 = map fst b1 /\
               (forall k, N.eqb k idx = false ->
                  dict_get N.eqb b2 k = dict_get N.eqb b1 k) /\
               exists e, dict_get N.eqb b2 idx = Some e /\
                         b_arguments e = b_arguments e1).
  { unfold b2. destruct (nonempty (tcd_id tc)) as [i|].
    - destruct (update_entry_at b1 idx
                  (fun e => {| b_id := i; b_name := b_name e;
                               b_arguments := b_arguments e |}) e1 G1)
        as (K & O & G).
      split; [exact K|]. split; [exact O|].
      eexists. split; [exact G|reflexivity].
    - split; [reflexivity|]. split; [reflexivity|].
      exists e1. split; [exact G1|reflexivity]. }
  clearbody b2. destruct H2 as (K2 & O2 & e2 & G2 & A2).
  destruct (tcd_function tc) as [fn|].
  - set (b3 := match nonempty (fn_name fn) with
               | Some n =>
                   update_entry b2 idx
                     (fun e => {| b_id := b_id e; b_name := n;
                                  b_arguments := b_arguments e |})
               | None => b2
               end).
    assert (H3 : map fst b3 = map fst b2 /\
                 (forall k, N.eqb k idx = false ->
                    dict_get N.eqb b3 k = dict_get N.eqb b2 k) /\
                 exists e, dict_get N.eqb b3 idx = Some e /\
                           b_arguments e = b_arguments e2).
    { unfold b3. destruct (nonempty (fn_name fn)) as [n|].
      - destruct (update_entry_at b2 idx
                    (fun e => {| b_id := b_id e; b_name := n;
                                 b_arguments := b_arguments e |}) e2 G2)
          as (K & O & G).
        split; [exact K|]. split; [exact O|].
        eexists. split; [exact G|reflexivity].
      - split; [reflexivity|]. split; [reflexivity|].
        exists e2. split; [exact G2|reflexivity]. }
    clearbody b3. destruct H3 as (K3 & O3 & e3 & G3 & A3).
    destruct (nonempty (fn_arguments fn)) as [a|].
    + destruct (update_entry_at b3 idx
                  (fun e => {| b_id := b_id e; b_name := b_name e;
                               b_arguments := b_arguments e +++ a |}) e3 G3)
        as (K & O & G).
      split; [rewrite K, K3, K2; exact K1|].
      split.
      * intros k Hk. rewrite (O k Hk), (O3 k Hk), (O2 k Hk). exact (O1 k Hk).
      * eexists. split; [exact G|]. simpl. rewrite A3, A2, A1. reflexivity.
    + split; [rewrite K3, K2; exact K1|].
      split.
      * intros k Hk. rewrite (O3 k Hk), (O2 k Hk). exact (O1 k Hk).
      * exists e3. split; [exact G3|].
        rewrite A3, A2, A1, app_nil_r. reflexivity.
  - split; [rewrite K2; exact K1|].
    split.
    + intros k Hk. rewrite (O2 k Hk). exact (O1 k Hk).
    + exists e2. split; [exact G2|]. rewrite A2, A1, app_nil_r. reflexivity.
Qed.

Lemma accumulate_all_keys (tcs : list GroqToolCallDelta) (b : Buffer) :
  map fst (fold_left accumulate tcs b)
  = map fst b ++ first_seen (map fst b) tcs.
Proof.
  revert b. induction tcs as [|tc tcs IH]; intros b; simpl.
  - rewrite app_nil_r. reflexivity.
  - rewrite IH. destruct (accumulate_spec b tc) as (K & _ & _).
    rewrite K, buffer_mem_keys.
    destruct (existsb (N.eqb (tcd_index tc)) (map fst b)).
    + reflexivity.
    + rewrite <- app_assoc. reflexivity.
Qed.

Lemma accumulate_all_arguments (tcs : list GroqToolCallDelta) (b : Buffer)
    (idx : N) :
  match dict_get N.eqb (fold_left accumulate tcs b) idx with
  | Some e =>
      b_arguments e
      = entry_arguments b idx +++
        flat_map fragment_arguments (fragments_of idx tcs)
  | None =>
      dict_get N.eqb b idx = None /\ fragments_of idx tcs = []
  end.
Proof.
  revert b. induction tcs as [|tc tcs IH]; intros b; simpl.
  - unfold entry_arguments. destruct (dict_get N.eqb b idx).
    + rewrite app_nil_r. reflexivity.
    + split; reflexivity.
  - specialize (IH (accumulate b tc)).
    destruct (accumulate_spec b tc) as (_ & O & e' & G & A).
    unfold fragments_of in *. simpl.
    destruct (N.eqb (tcd_index tc) idx) eqn:E.
    + apply N.eqb_eq in E. subst idx.
      destruct (dict_get N.eqb (fold_left accumulate tcs (accumulate b tc))
                  (tcd_index tc)) as [e|].
      * rewrite IH. unfold entry_arguments at 1. rewrite G, A. simpl.
        rewrite <- app_assoc. reflexivity.
      * destruct IH as [Hn _]. rewrite G in Hn. discriminate Hn.
    + rewrite N.eqb_sym in E.
      destruct (dict_get N.eqb (fold_left accumulate tcs (accumulate b tc)) idx)
        as [e|].
      * rewrite IH. unfold entry_arguments. rewrite (O idx E). reflexivity.
      * rewrite (O idx E) in IH. exact IH.
Qed.

Lemma groq_fold_buffer (cs : list GroqChunk) (st : GroqLoop) :
  tool_calls_buffer (fold_left groq_chunk cs st)
  = fold_left accumulate (stream_fragments cs) (tool_calls_buffer st).
Proof.
  revert st. induction cs as [|c cs IH]; intros st; simpl.
  - reflexivity.
  - rewrite IH, fold_left_app. f_equal.
    unfold groq_chunk. destruct (choices c) as [|delta l].
    + reflexivity.
    + destruct (nonempty (delta_content delta)), (delta_tool_calls delta);
        reflexivity.
Qed.

(** X19. The Groq loop assembles streamed tool calls by stream index: the
    buffer holds one entry per index, in the order in which the indices
    first appear in the stream, and the argument text of an entry is the
    concatenation, in arrival order, of the argument fragments that came
    under its index; an index without entry is one that no fragment
    carried. *)
Theorem groq_fragments_assemble (cs : list GroqChunk) :
  let buffer := tool_calls_buffer (fold_left groq_chunk cs groq_start) in
  map fst buffer = first_seen [] (stream_fragments cs) /\
  forall idx,
    match dict_get N.eqb buffer idx with
    | Some e =>
        b_arguments e
        = flat_map fragment_arguments (fragments_of idx (stream_fragments cs))
    | None => fragments_of idx (stream_fragments cs) = []
    end.
Proof.
  cbv zeta. rewrite groq_fold_buffer. cbn [tool_calls_buffer groq_start]. split.
  - rewrite accumulate_all_keys. reflexivity.
  - intros idx.
    pose proof (accumulate_all_arguments (stream_fragments cs) [] idx) as H.
    destruct (dict_get N.eqb (fold_left accumulate (stream_fragments cs) []) idx).
    + exact H.
    + exact (proj2 H).
Qed.

(** ** The store *)

Lemma insert_by_time_perm (r : Row) (l : list Row) :
  Permutation (insert_by_time r l) (r :: l).
Proof.
  induction l as [|x l IH]; simpl.
  - apply Permutation_refl.
  - destruct (created_at r <? created_at x).
    + apply Permutation_refl.
    + apply perm_trans with (x :: r :: l).
      * apply perm_skip. exact IH.
      * apply perm_swap.
Qed.

Lemma insert_by_time_sorted (r : Row) (l : list Row) :
  Sorted row_time_le l -> Sorted row_time_le (insert_by_time r l).
Proof.
  induction l as [|x l IH]; simpl; intros H.
  - constructor; constructor.
  - destruct (created_at r <? created_at x) eqn:E.
    + constructor; [exact H|]. constructor.
      unfold row_time_le. apply N.ltb_lt in E. lia.
    + apply N.ltb_ge in E. inversion H as [|? ? Hs Hh]; subst.
      constructor; [apply IH; exact Hs|].
      destruct l as [|y l]; simpl.
      * constructor. exact E.
      * destruct (created_at r <? created_at y); constructor.
        -- exact E.
        -- inversion Hh; subst. assumption.
Qed.

Lemma order_by_fold_sorted (rows acc : list Row) :
  Sorted row_time_le acc ->
  Sorted row_time_le (fold_left (fun acc r => insert_by_time r acc) rows acc) /\
  Permutation (fold_left (fun acc r => insert_by_time r acc) rows acc)
              (acc ++ rows).
Proof.
  revert acc. induction rows as [|r rows IH]; intros acc H; simpl.
  - split; [exact H|]. rewrite app_nil_r. apply Permutation_refl.
  - destruct (IH (insert_by_time r acc) (insert_by_time_sorted r acc H))
      as [Hs Hp].
    split; [exact Hs|].
    apply perm_trans with (insert_by_time r acc ++ rows); [exact Hp|].
    apply perm_trans with ((r :: acc) ++ rows).
    + apply Permutation_app_tail. apply insert_by_time_perm.
    + simpl. apply Permutation_middle.
Qed.

(** X21. [get_messages] returns the rows of the asked session and no
    others, each one once, in ascending order of their insertion time -
    whatever order the table holds them in. *)
Theorem get_messages_ordered (t : Table) (sid : str) :
  exists rows,
    get_messages t sid = map message_of_row rows /\
    Permutation rows (filter (fun r => str_eqb (session_id r) sid) t) /\
    Sorted row_time_le rows.
Proof.
  exists (order_by_created_at (filter (fun r => str_eqb (session_id r) sid) t)).
  split; [reflexivity|].
  destruct (order_by_fold_sorted
              (filter (fun r => str_eqb (session_id r) sid) t) [])
    as [Hs Hp]; [constructor|].
  split; [exact Hp|exact Hs].
Qed.

Lemma filter_other_ids_length (t : Table) (k : str) :
  NoDup (map id t) ->
  List.length (filter (fun r' => negb (str_eqb (id r') k)) t)
  = if existsb (fun r' => str_eqb (id r') k) t then pred (List.length t)
    else List.length t.
Proof.
  induction t as [|x t IH]; simpl; intros H; [reflexivity|].
  inversion H as [|? ? Hx Ht]; subst.
  destruct (str_eqb (id x) k) eqn:E; simpl.
  - apply str_eqb_eq in E. f_equal. apply filter_all.
    intros r Hr. apply negb_true_iff. apply str_eqb_neq.
    intros Heq. apply Hx. rewrite E, <- Heq. apply in_map. exact Hr.
  - rewrite (IH Ht).
    destruct (existsb (fun r' => str_eqb (id r') k) t) eqn:Ex; [|reflexivity].
    destruct t as [|y t]; [discriminate Ex|reflexivity].
Qed.

Lemma filter_other_ids_nodup (t : Table) (k : str) :
  NoDup (map id t) ->
  NoDup (map id (filter (fun r' => negb (str_eqb (id r') k)) t)).
Proof.
  induction t as [|x t IH]; simpl; intros H; [constructor|].
  inversion H as [|? ? Hx Ht]; subst.
  destruct (str_eqb (id x) k); simpl; [apply IH; exact Ht|].
  constructor; [|apply IH; exact Ht].
  intros Hin. apply Hx. apply in_map_iff in Hin as (r & Hr & Hf).
  apply filter_In in Hf as [Hf _]. rewrite <- Hr. apply in_map. exact Hf.
Qed.

(** X22. [add_message] keeps [id] a primary key: on a table without
    repeated ids the result has none either; its rows are the new row and
    the old rows of other ids; and the table grows by one row exactly
    when the id was not stored before - a stored id has its row replaced. *)
Theorem add_message_primary_key (t : Table) (sid : str) (msg_data : MsgData)
    (fresh : str) (now : N) :
  NoDup (map id t) ->
  let r := row_of sid msg_data fresh now in
  let t' := add_message t sid msg_data fresh now in
  NoDup (map id t') /\
  (forall x, In x t' <-> x = r \/ (In x t /\ id x <> id r)) /\
  List.length t'
  = (if existsb (fun x => str_eqb (id x) (id r)) t then List.length t
     else S (List.length t)).
Proof.
  intros H r t'. unfold t', add_message, insert_or_replace. fold r.
  split; [|split].
  - rewrite map_app. simpl.
    apply NoDup_app; [apply filter_other_ids_nodup; exact H| |].
    + constructor; [intros []|constructor].
    + intros k Hk [Hr|[]]. apply in_map_iff in Hk as (x & Hx & Hf).
      apply filter_In in Hf as [_ Hf]. apply negb_true_iff in Hf.
      apply str_eqb_neq in Hf. apply Hf. rewrite Hx, Hr. reflexivity.
  - intros x. rewrite in_app_iff, filter_In. simpl. split.
    + intros [[Hx Hf]|[Hx|[]]].
      * right. split; [exact Hx|].
        apply negb_true_iff in Hf. apply str_eqb_neq. exact Hf.
      * left. symmetry. exact Hx.
    + intros [Hx|[Hx Hf]].
      * right. left. symmetry. exact Hx.
      * left. split; [exact Hx|]. apply negb_true_iff. apply str_eqb_neq.
        exact Hf.
  - rewrite length_app, (filter_other_ids_length t (id r) H).
    destruct (existsb (fun x => str_eqb (id x) (id r)) t) eqn:Ex.
    + destruct t as [|y t]; [discriminate Ex|]. cbn [List.length pred]. lia.
    + cbn [List.length]. lia.
Qed.

Lemma add_message_primary_key_witness :
  List.length
    (add_message (db_messages Samples.two_sessions) (lit "s1")
       (Demo.turn (lit "m1") (lit "edited")) (lit "u7") 9)
  = 3%nat.
Proof.
  destruct (add_message_primary_key (db_messages Samples.two_sessions)
              (lit "s1") (Demo.turn (lit "m1") (lit "edited")) (lit "u7") 9)
    as (_ & _ & H).
  - vm_compute. repeat constructor; simpl; intuition discriminate.
  - exact H.
Defined.

Lemma filter_filter_same {A} (p : A -> bool) (l : list A) :
  filter p (filter (fun x => negb (p x)) l) = [].
Proof.
  induction l as [|x l IH]; simpl; [reflexivity|].
  destruct (p x) eqn:E; simpl; [exact IH|]. rewrite E. exact IH.
Qed.

Lemma filter_filter_implied {A} (p q : A -> bool) (l : list A) :
  (forall x, p x = true -> q x = true) ->
  filter p (filter q l) = filter p l.
Proof.
  intros H. induction l as [|x l IH]; simpl; [reflexivity|].
  destruct (q x) eqn:E; simpl.
  - rewrite IH. reflexivity.
  - destruct (p x) eqn:E'; [|exact IH].
    rewrite (H x E') in E. discriminate E.
Qed.

(** X23. [delete_session] removes the session row and every message of
    that session, and nothing else: afterwards the session has no
    messages and is not listed, every other session keeps its messages,
    and every other session row is still there. *)
Theorem delete_session_scope (db : Db) (sid : str) :
  let db' := Service.delete_session db sid in
  (forall sid',
     get_messages (db_messages db') sid'
     = if str_eqb sid' sid then [] else get_messages (db_messages db) sid') /\
  (forall r, In r (db_sessions db') <-> In r (db_sessions db) /\ s_id r <> sid).
Proof.
  cbv zeta. split.
  - intros sid'. unfold Service.delete_session, Database.delete_session,
      get_messages. cbn [db_messages].
    destruct (str_eqb sid' sid) eqn:E.
    + apply str_eqb_eq in E. subst sid'.
      rewrite (filter_filter_same (fun r => str_eqb (session_id r) sid)).
      reflexivity.
    + rewrite filter_filter_implied; [reflexivity|].
      intros x Hx. apply str_eqb_eq in Hx. apply negb_true_iff.
      apply str_eqb_neq. intros Heq. rewrite Hx in Heq. rewrite Heq in E.
      rewrite str_eqb_refl in E. discriminate E.
  - intros r. unfold Service.delete_session. cbn [db_sessions].
    rewrite filter_In, negb_true_iff, str_eqb_neq. reflexivity.
Qed.

Example delete_session_of_two :
  map msg_id
    (get_messages (db_messages (Service.delete_session Samples.two_sessions (lit "s1")))
       (lit "s2"))
  = [lit "m2"] /\
  get_messages (db_messages (Service.delete_session Samples.two_sessions (lit "s1")))
    (lit "s1") = [].
Proof. split; reflexivity. Qed.

(** X24. Creating a session under an identifier that is not yet the id
    of a session succeeds and the new session is listed by
    [get_sessions]; when also no message row carries the identifier as
    session id, deleting the session again gives back the store as it
    was. *)
Theorem create_then_delete_session (db : Db) (title fresh : str) (now : N) :
  (forall r, In r (db_sessions db) -> s_id r <> fresh) ->
  (forall r, In r (db_messages db) -> session_id r <> fresh) ->
  exists db',
    create_session db title fresh now = Ok (db', fresh) /\
    In {| s_id := fresh; s_title := title; s_created_at := now |}
       (get_sessions db') /\
    Service.delete_session db' fresh = db.
Proof.
  intros Hs Hm. unfold create_session.
  assert (E : existsb (fun r => str_eqb (s_id r) fresh) (db_sessions db) = false).
  { destruct (existsb _ _) eqn:Ex; [|reflexivity].
    apply existsb_exists in Ex as (r & Hr & Heq).
    apply str_eqb_eq in Heq. destruct (Hs r Hr Heq). }
  rewrite E. eexists. split; [reflexivity|]. split.
  - unfold get_sessions. cbn [db_sessions]. rewrite fold_left_app. simpl.
    generalize (fold_left (fun acc r => insert_newest_first r acc)
                  (db_sessions db) []).
    intros l. induction l as [|x l IH]; simpl.
    + left. reflexivity.
    + cbn [s_created_at].
      destruct (s_created_at x <=? now); [left; reflexivity|right; exact IH].
  - unfold Service.delete_session, Database.delete_session.
    cbn [db_sessions db_messages]. destruct db as [ss ms]. simpl in *.
    f_equal.
    + rewrite filter_app. simpl. rewrite str_eqb_refl. simpl.
      rewrite app_nil_r. apply filter_all. intros r Hr.
      apply negb_true_iff. apply str_eqb_neq. exact (Hs r Hr).
    + apply filter_all. intros r Hr.
      apply negb_true_iff. apply str_eqb_neq. exact (Hm r Hr).
Qed.

Lemma create_then_delete_session_witness :
  exists db',
    create_session Samples.two_sessions (lit "New Chat") (lit "s3") 6
    = Ok (db', lit "s3") /\
    In {| s_id := lit "s3"; s_title := lit "New Chat"; s_created_at := 6 |}
       (get_sessions db') /\
    Service.delete_session db' (lit "s3") = Samples.two_sessions.
Proof.
  apply (create_then_delete_session Samples.two_sessions (lit "New Chat")
           (lit "s3") 6).
  - simpl. intros r [<-|[<-|[]]]; discriminate.
  - simpl. intros r [<-|[<-|[<-|[]]]]; discriminate.
Defined.

(** ** The active provider *)

(** X25. The active provider, when there is one, always names a provider
    whose client was initialised: the start-up choice has this property,
    and [switch_provider] keeps it. A successful switch makes the asked
    provider active and changes nothing else; a switch to a provider that
    is unknown or has no client raises the HTTP error 400. *)
Theorem switch_provider_keeps_ready (groq gemini : bool) (p : Providers)
    (provider : str) :
  active_is_ready (startup groq gemini) /\
  match switch_provider p provider with
  | Ok p' =>
      active_provider p' = Some provider /\
      groq_client p' = groq_client p /\
      gemini_ready p' = gemini_ready p /\
      active_is_ready p'
  | Raise e =>
      e = HTTPException 400
            (lit "Provider '" +++ provider +++ lit "' not available") /\
      (provider = lit "groq" -> groq_client p = false) /\
      (provider = lit "gemini" -> gemini_ready p = false)
  end.
Proof.
  split.
  - unfold active_is_ready, startup. simpl.
    destruct groq; [left; split; reflexivity|].
    destruct gemini; [right; split; reflexivity|exact I].
  - unfold switch_provider.
    destruct (str_eqb provider (lit "groq")) eqn:Eg.
    + apply str_eqb_eq in Eg. subst provider.
      destruct (groq_client p) eqn:Cg; simpl.
      * repeat split. left. split; reflexivity.
      * repeat split; try reflexivity; discriminate.
    + destruct (str_eqb provider (lit "gemini")) eqn:Em; simpl.
      * apply str_eqb_eq in Em. subst provider.
        destruct (gemini_ready p) eqn:Cm; simpl.
        -- repeat split. right. split; reflexivity.
        -- repeat split; try reflexivity; discriminate.
      * repeat split; intros ->.
        -- rewrite str_eqb_refl in Eg. discriminate Eg.
        -- rewrite str_eqb_refl in Em. discriminate Em.
Qed.

(** ** The chat endpoint *)

(** X26. A chat request stores the user's message before anything is
    streamed, also when no reply can be produced: with an active provider
    configured and a request that names a provider that is unknown or
    whose client was not initialised, the endpoint succeeds, the stream is
    one error line, no turn of the model is stored, and the user's message
    is in the session's history. *)
Theorem chat_without_client (R : Runtime) (conns : registry) (t : Table)
    (session_id : str) (new_message : MsgData) (provider : str)
    (uuid : nat -> str) (now : N) :
  nonempty (ACTIVE_PROVIDER R) <> None ->
  (provider = lit "groq" -> groq_async_client R = None) ->
  (provider = lit "gemini" -> gemini_client R = None) ->
  exists run,
    chat_endpoint R conns t session_id new_message (Some provider) uuid now
    = Ok run /\
    chat_actions run = [Yield (EvError (unavailable_detail provider))] /\
    chat_table run = add_message t session_id new_message (uuid 0%nat) now /\
    In (stored_turn session_id new_message (uuid 0%nat) now)
       (get_messages (chat_table run) session_id).
Proof.
  intros Ha Hg Hm. unfold chat_endpoint.
  destruct (nonempty (ACTIVE_PROVIDER R)) as [a|]; [|destruct (Ha eq_refl)].
  eexists. split; [reflexivity|]. cbn [chat_actions chat_table].
  split; [|split; [reflexivity|]].
  - unfold stream_llm_response, unavailable_detail.
    destruct (str_eqb provider (lit "groq")) eqn:Eg.
    + apply str_eqb_eq in Eg. unfold stream_groq_response.
      rewrite (Hg Eg). reflexivity.
    + destruct (str_eqb provider (lit "gemini")) eqn:Em; [|reflexivity].
      apply str_eqb_eq in Em. unfold stream_gemini_response.
      rewrite (Hm Em). reflexivity.
  - apply in_get_messages.
    exists (row_of session_id new_message (uuid 0%nat) now).
    split; [|split; reflexivity].
    unfold add_message, insert_or_replace. apply in_or_app. right. left.
    reflexivity.
Qed.

Lemma chat_without_client_witness :
  exists run,
    chat_endpoint Samples.groq_only [] [] (lit "s1")
      (Demo.turn (lit "m1") (lit "hello")) (Some (lit "gemini")) Demo.uuids 3
    = Ok run /\
    chat_actions run = [Yield (EvError (lit "Gemini client not initialized"))] /\
    chat_table run
    = add_message [] (lit "s1") (Demo.turn (lit "m1") (lit "hello")) (lit "uuid-0") 3 /\
    In (stored_turn (lit "s1") (Demo.turn (lit "m1") (lit "hello")) (lit "uuid-0") 3)
       (get_messages (chat_table run) (lit "s1")).
Proof.
  apply (chat_without_client Samples.groq_only [] [] (lit "s1")
           (Demo.turn (lit "m1") (lit "hello")) (lit "gemini") Demo.uuids 3).
  - simpl. discriminate.
  - intros H. discriminate H.
  - intros _. reflexivity.
Defined.

(** ** [connect]: which targets and kinds are rejected *)

Lemma select_transport_raises (target type : str) (e : exn) :
  select_transport target type = Raise e ->
  e = ValueError (lit "Unknown connection type: " +++ type) /\
  is_http_url target = true /\
  endswith target (lit ".py") = false /\
  contains (lit "gitmcp.io") target = false /\
  transport_of type = None.
Proof.
  unfold select_transport, normalize.
  destruct (contains (lit "gitmcp.io") target) eqn:Hgit.
  - simpl. intros H. discriminate H.
  - destruct (endswith target (lit ".py")) eqn:Hpy; simpl.
    + destruct (str_eqb type (lit "stdio")) eqn:Es; simpl.
      * unfold transport_of. rewrite Es. intros H. discriminate H.
      * destruct (str_eqb type (lit "sse")) eqn:Ee; simpl.
        -- unfold transport_of. rewrite Es, Ee. intros H. discriminate H.
        -- intros H. discriminate H.
    + destruct (is_http_url target) eqn:Hurl; simpl.
      * assert (G : match transport_of type with
                    | Some t => Ok (t, target)
                    | None => Raise (ValueError
                                (lit "Unknown connection type: " +++ type))
                    end = Raise e ->
                    e = ValueError (lit "Unknown connection type: " +++ type) /\
                    true = true /\ false = false /\ false = false /\
                    transport_of type = None).
        { destruct (transport_of type); intros H; inversion H. auto. }
        destruct (str_eqb type (lit "http") || str_eqb type (lit "sse"));
          exact G.
      * destruct (str_eqb type (lit "stdio")) eqn:Es; simpl.
        -- unfold transport_of. rewrite Es. intros H. discriminate H.
        -- destruct (str_eqb type (lit "sse")) eqn:Ee; simpl.
           ++ unfold transport_of. rewrite Es, Ee. intros H. discriminate H.
           ++ intros H. discriminate H.
Qed.

(** X27. The target and kind checks of [connect] reject one case only: a
    kind other than [stdio], [sse] and [http] for a target that is an
    http(s) URL, does not end in [.py] and does not contain [gitmcp.io];
    the error is [Unknown connection type]. A target that is not such a
    URL is never rejected at this step, so the check that raises
    [Invalid URL for ... transport] cannot fire. The same holds after the
    kind correction of the endpoint. *)
Theorem select_transport_rejects (target type : str) (e : exn) :
  select_transport target type = Raise e \/
  connect_mcp_transport target type = Raise e ->
  e = ValueError (lit "Unknown connection type: " +++ type) /\
  is_http_url target = true /\
  endswith target (lit ".py") = false /\
  contains (lit "gitmcp.io") target = false /\
  transport_of type = None.
Proof.
  intros [H|H].
  - exact (select_transport_raises _ _ _ H).
  - unfold connect_mcp_transport in H.
    destruct (select_transport_raises _ _ _ H) as (He & Hurl & Hpy & Hgit & Ht).
    assert (Hty : connect_mcp_type target type = type).
    { unfold connect_mcp_type. rewrite Hpy, Hurl, Hgit. reflexivity. }
    rewrite Hty in He, Ht. auto.
Qed.

Lemma select_transport_rejects_witness :
  ValueError (lit "Unknown connection type: websocket")
  = ValueError (lit "Unknown connection type: " +++ lit "websocket") /\
  is_http_url (lit "https://example.com/mcp") = true /\
  endswith (lit "https://example.com/mcp") (lit ".py") = false /\
  contains (lit "gitmcp.io") (lit "https://example.com/mcp") = false /\
  transport_of (lit "websocket") = None.
Proof.
  apply (select_transport_rejects (lit "https://example.com/mcp")
           (lit "websocket")).
  left. reflexivity.
Defined.

(** X28. A local [.py] target whose script is found in none of the search
    locations makes [connect] fail before anything is launched: no
    context is entered, the registry and the open resources are
    untouched, and the error is HTTP 500 whose detail wraps the text of
    the 400 error raised for the missing script. *)
Theorem connect_missing_script (E : Env) (connection_id target type m : str)
    (w : World) (conns : registry) :
  endswith target (lit ".py") = true ->
  contains (lit "gitmcp.io") target = false ->
  str_eqb type (lit "sse") = false ->
  _find_script E target = Raise (FileNotFoundError m) ->
  connect E connection_id target type (w, conns)
  = (Raise (HTTPException 500
              (lit "Connection Failed: " +++ exn_str E (HTTPException 400 m))),
     (w, conns)).
Proof.
  intros Hpy Hgit Hsse Hfind.
  assert (Hsel : select_transport target type = Ok (Stdio, target)).
  { unfold select_transport. rewrite (normalize_py _ _ Hpy Hgit), Hsse.
    rewrite orb_false_r.
    destruct (str_eqb type (lit "stdio")) eqn:Es; simpl; [|reflexivity].
    unfold transport_of. rewrite Es. reflexivity. }
  unfold connect, connect_frame, connect_body, try_except.
  unfold bind at 1. unfold lift at 1. rewrite Hsel.
  cbn [fst snd open_transport]. unfold bind at 1. unfold bind at 1.
  unfold lift, server_params, resolve_command, find_script_or_400.
  rewrite Hpy, Hfind.
  unfold bind, aclose_local, modify, raise, aclose. simpl.
  destruct w; reflexivity.
Qed.

Lemma connect_missing_script_witness :
  exists m,
    connect Samples.empty_disk (lit "docs") (lit "server.py") (lit "stdio")
      (Demo.world0, [])
    = (Raise (HTTPException 500
                (lit "Connection Failed: " +++
                 exn_str Samples.empty_disk (HTTPException 400 m))),
       (Demo.world0, [])).
Proof.
  eexists.
  apply (connect_missing_script Samples.empty_disk (lit "docs")
           (lit "server.py") (lit "stdio")); reflexivity.
Defined.

(* ================================================================== *)
(** * The streamed turn, in terms of what the stream delivers *)

(** ** Text events *)

Lemma text_events_app (a b : list str) :
  text_events (a ++ b) = text_events a ++ text_events b.
Proof. apply map_app. Qed.

Lemma text_events_yield (l : list str) : Forall text_yield (text_events l).
Proof.
  induction l as [|t l IH]; constructor; [exists t; reflexivity|exact IH].
Qed.

Lemma relayed_text_events (l : list str) : relayed (text_events l) = List.concat l.
Proof. induction l as [|t l IH]; simpl; [reflexivity|]. rewrite IH. reflexivity. Qed.

Lemma persisted_text_events (l : list str) : persisted (text_events l) = [].
Proof. apply persisted_texts. apply text_events_yield. Qed.

Lemma events_text_events (l : list str) : events (text_events l) = map EvText l.
Proof. induction l as [|t l IH]; simpl; [reflexivity|]. rewrite IH. reflexivity. Qed.


(** ** The Groq loop *)

Lemma groq_fold_deltas (cs : list GroqChunk) (st : GroqLoop) :
  emitted (fold_left groq_chunk cs st)
  = emitted st ++ text_events (groq_deltas cs) /\
  final_text (fold_left groq_chunk cs st)
  = final_text st +++ List.concat (groq_deltas cs).
Proof.
  revert st. induction cs as [|c cs IH]; intros st.
  - simpl. rewrite !app_nil_r. split; reflexivity.
  - cbn [fold_left]. destruct (IH (groq_chunk st c)) as [He Hf].
    rewrite He, Hf.
    change (groq_deltas (c :: cs)) with (chunk_text c ++ groq_deltas cs).
    rewrite text_events_app, concat_app.
    unfold groq_chunk, chunk_text. destruct (choices c) as [|delta ds].
    + split; reflexivity.
    + destruct (nonempty (delta_content delta)) as [t|],
               (delta_tool_calls delta);
        cbn [emitted final_text text_events map List.concat app];
        rewrite ?app_nil_r, <- ?app_assoc; split; reflexivity.
Qed.

Lemma or_default_last_some {A} (x : option A) (l : list (option A)) (d : A) :
  or_default (last_some (x :: l)) d = or_default (last_some l) (or_default x d).
Proof.
  cbn [last_some]. destruct (last_some l); [reflexivity|].
  destruct x; reflexivity.
Qed.

(** What one fragment does to the entry of its index *)
Lemma accumulate_fields (b : Buffer) (tc : GroqToolCallDelta) :
  exists e,
    dict_get N.eqb (accumulate b tc) (tcd_index tc) = Some e /\
    b_id e = or_default (fragment_id tc) (entry_id b (tcd_index tc)) /\
    b_name e = or_default (fragment_name tc) (entry_name b (tcd_index tc)) /\
    b_arguments e = entry_arguments b (tcd_index tc) +++ fragment_arguments tc.
Proof.
  unfold accumulate, fragment_id, fragment_name, fragment_arguments. cbv zeta.
  set (idx := tcd_index tc).
  set (b1 := if negb (dict_mem N.eqb b idx) then
               dict_set N.eqb b idx
                 {| b_id := match nonempty (tcd_id tc) with
                            | Some i => i | None => [] end;
                    b_name := []; b_arguments := [] |}
             else b).
  set (b2 := match nonempty (tcd_id tc) with
             | Some i =>
                 update_entry b1 idx
                   (fun e => {| b_id := i; b_name := b_name e;
                                b_arguments := b_arguments e |})
             | None => b1
             end).
  assert (H2 : exists e, dict_get N.eqb b2 idx = Some e /\
                 b_id e = or_default (nonempty (tcd_id tc)) (entry_id b idx) /\
                 b_name e = entry_name b idx /\
                 b_arguments e = entry_arguments b idx).
  { unfold b2, b1, entry_id, entry_name, entry_arguments, dict_mem.
    destruct (dict_get N.eqb b idx) as [e0|] eqn:G; cbn [negb].
    - destruct (nonempty (tcd_id tc)) as [i|].
      + destruct (update_entry_at b idx
                    (fun e => {| b_id := i; b_name := b_name e;
                                 b_arguments := b_arguments e |}) e0 G)
          as (_ & _ & G').
        eexists. split; [exact G'|]. repeat split.
      + exists e0. split; [exact G|]. repeat split.
    - assert (G1 : dict_get N.eqb
                     (dict_set N.eqb b idx
                        {| b_id := match nonempty (tcd_id tc) with
                                   | Some i => i | None => [] end;
                           b_name := []; b_arguments := [] |}) idx
                   = Some {| b_id := match nonempty (tcd_id tc) with
                                     | Some i => i | None => [] end;
                             b_name := []; b_arguments := [] |})
        by (rewrite buffer_get_set, N.eqb_refl; reflexivity).
      destruct (nonempty (tcd_id tc)) as [i|].
      + destruct (update_entry_at _ idx
                    (fun e => {| b_id := i; b_name := b_name e;
                                 b_arguments := b_arguments e |}) _ G1)
          as (_ & _ & G').
        eexists. split; [exact G'|]. repeat split.
      + eexists. split; [exact G1|]. repeat split. }
  clearbody b2. clear b1. destruct H2 as (e2 & G2 & I2 & N2 & A2).
  destruct (tcd_function tc) as [fn|].
  - set (b3 := match nonempty (fn_name fn) with
               | Some n =>
                   update_entry b2 idx
                     (fun e => {| b_id := b_id e; b_name := n;
                                  b_arguments := b_arguments e |})
               | None => b2
               end).
    assert (H3 : exists e, dict_get N.eqb b3 idx = Some e /\
                   b_id e = b_id e2 /\
                   b_name e = or_default (nonempty (fn_name fn)) (b_name e2) /\
                   b_arguments e = b_arguments e2).
    { unfold b3. destruct (nonempty (fn_name fn)) as [n|].
      - destruct (update_entry_at b2 idx
                    (fun e => {| b_id := b_id e; b_name := n;
                                 b_arguments := b_arguments e |}) e2 G2)
          as (_ & _ & G').
        eexists. split; [exact G'|]. repeat split.
      - exists e2. split; [exact G2|]. repeat split. }
    clearbody b3. destruct H3 as (e3 & G3 & I3 & N3 & A3).
    destruct (nonempty (fn_arguments fn)) as [a|].
    + destruct (update_entry_at b3 idx
                  (fun e => {| b_id := b_id e; b_name := b_name e;
                               b_arguments := b_arguments e +++ a |}) e3 G3)
        as (_ & _ & G').
      eexists. split; [exact G'|]. cbn [b_id b_name b_arguments].
      rewrite I3, I2, N3, N2, A3, A2. repeat split.
    + exists e3. split; [exact G3|].
      rewrite I3, I2, N3, N2, A3, A2, app_nil_r. repeat split.
  - exists e2. split; [exact G2|].
    rewrite I2, N2, A2, app_nil_r. repeat split.
Qed.

(** What the fragments of a stream add up to under one index *)
Lemma accumulate_all_fields (tcs : list GroqToolCallDelta) (b : Buffer) (idx : N)
    (e : BufferEntry) :
  dict_get N.eqb (fold_left accumulate tcs b) idx = Some e ->
  b_id e = or_default (last_some (map fragment_id (fragments_of idx tcs)))
             (entry_id b idx) /\
  b_name e = or_default (last_some (map fragment_name (fragments_of idx tcs)))
               (entry_name b idx) /\
  b_arguments e = entry_arguments b idx +++
                  flat_map fragment_arguments (fragments_of idx tcs).
Proof.
  revert b. induction tcs as [|tc tcs IH]; intros b H.
  - simpl in H. unfold entry_id, entry_name, entry_arguments. rewrite H.
    simpl. rewrite app_nil_r. repeat split.
  - cbn [fold_left] in H. destruct (IH _ H) as (Hi & Hn & Ha).
    unfold fragments_of in *. cbn [filter].
    destruct (N.eqb (tcd_index tc) idx) eqn:E.
    + apply N.eqb_eq in E. subst idx.
      destruct (accumulate_fields b tc) as (e' & G & I' & N' & A').
      unfold entry_id, entry_name, entry_arguments in Hi, Hn, Ha.
      rewrite G in Hi, Hn, Ha.
      cbn [map flat_map]. rewrite !or_default_last_some.
      rewrite Hi, Hn, Ha, I', N', A', <- app_assoc. repeat split.
    + destruct (accumulate_spec b tc) as (_ & O & _).
      rewrite N.eqb_sym in E.
      unfold entry_id, entry_name, entry_arguments in *.
      rewrite (O idx E) in Hi, Hn, Ha. repeat split; assumption.
Qed.

Lemma buffer_get_in_keys {V} (d : @dict N V) (k : N) (v : V) :
  dict_get N.eqb d k = Some v -> In k (map fst d).
Proof.
  induction d as [|[k0 v0] d IH]; simpl; [discriminate|].
  destruct (N.eqb k k0) eqn:E; [|auto].
  apply N.eqb_eq in E. auto.
Qed.

(** The values of a dictionary, read through its keys *)
Lemma values_by_keys {V W} (d : @dict N V) (f : V -> W) (g : N -> W) :
  NoDup (map fst d) ->
  (forall k v, dict_get N.eqb d k = Some v -> f v = g k) ->
  map f (dict_values d) = map g (map fst d).
Proof.
  induction d as [|[k0 v0] d IH]; intros Hnd H; [reflexivity|].
  inversion Hnd as [|? ? Hnot Hnd']; subst.
  cbn [dict_values map fst snd]. f_equal.
  - apply H. simpl. rewrite N.eqb_refl. reflexivity.
  - apply IH; [exact Hnd'|]. intros k v Hk. apply H. simpl.
    destruct (N.eqb k k0) eqn:E; [|exact Hk].
    apply N.eqb_eq in E. subst k. exfalso. apply Hnot.
    exact (buffer_get_in_keys _ _ _ Hk).
Qed.

Lemma first_seen_nodup (tcs : list GroqToolCallDelta) (seen : list N) :
  NoDup seen -> NoDup (seen ++ first_seen seen tcs).
Proof.
  revert seen. induction tcs as [|tc tcs IH]; intros seen H; cbn [first_seen].
  - rewrite app_nil_r. exact H.
  - destruct (existsb (N.eqb (tcd_index tc)) seen) eqn:E.
    + apply IH. exact H.
    + assert (Hnew : NoDup (seen ++ [tcd_index tc])).
      { apply NoDup_app; [exact H|repeat constructor; intros []|].
        intros k Hk [Hk'|[]]. subst k.
        assert (existsb (N.eqb (tcd_index tc)) seen = true)
          by (apply existsb_exists; exists (tcd_index tc); split;
              [exact Hk|apply N.eqb_refl]).
        congruence. }
      specialize (IH _ Hnew). rewrite <- app_assoc in IH. exact IH.
Qed.

(** The calls that the end of a Groq turn builds from its buffer are the
    calls that the fragments of the stream add up to *)
Lemma groq_buffer_calls (R : Runtime) (cs : list GroqChunk) :
  map (completed_call R)
    (dict_values (tool_calls_buffer (fold_left groq_chunk cs groq_start)))
  = accumulated_calls R cs.
Proof.
  rewrite groq_fold_buffer. cbn [tool_calls_buffer groq_start].
  unfold accumulated_calls.
  pose proof (accumulate_all_keys (stream_fragments cs) []) as K.
  cbn [map app] in K. rewrite <- K.
  apply values_by_keys.
  - rewrite K. apply (first_seen_nodup (stream_fragments cs) []). constructor.
  - intros k v Hk.
    destruct (accumulate_all_fields _ _ _ _ Hk) as (Hi & Hn & Ha).
    unfold completed_call, assembled_call. rewrite Hi, Hn, Ha. reflexivity.
Qed.

Lemma accumulated_calls_none (R : Runtime) (cs : list GroqChunk) :
  stream_fragments cs = [] -> accumulated_calls R cs = [].
Proof. intros H. unfold accumulated_calls. rewrite H. reflexivity. Qed.

Lemma accumulated_calls_some (R : Runtime) (cs : list GroqChunk) :
  stream_fragments cs <> [] ->
  exists first rest, accumulated_calls R cs = first :: rest.
Proof.
  intros H. unfold accumulated_calls.
  destruct (stream_fragments cs) as [|tc tcs]; [contradiction|].
  cbn [first_seen existsb map]. eexists _, _. reflexivity.
Qed.

(** A Groq turn, from what its stream delivers *)
Lemma groq_turn_exact (R : Runtime) (session_id fresh : str)
    (stream : Stream GroqChunk) :
  groq_turn R session_id fresh stream
  = text_events (groq_deltas (chunks stream)) ++
    match failure stream with
    | Some e => [Yield (EvError (str_exn R e))]
    | None =>
        match accumulated_calls R (chunks stream) with
        | first :: rest =>
            [AddMessage session_id
               (stored_reply (lit "assistant") fresh
                  (List.concat (groq_deltas (chunks stream))) (Some (first :: rest)));
             Yield (EvToolApprovalRequest first);
             Yield EvDone]
        | [] =>
            (if truthy (List.concat (groq_deltas (chunks stream))) then
               [AddMessage session_id
                  (stored_reply (lit "assistant") fresh
                     (List.concat (groq_deltas (chunks stream))) None)]
             else []) ++ [Yield EvDone]
        end
    end.
Proof.
  unfold groq_turn. cbv zeta.
  destruct (groq_fold_deltas (chunks stream) groq_start) as [He Hf].
  cbn [emitted final_text groq_start app] in He, Hf.
  pose proof (groq_buffer_calls R (chunks stream)) as Hb.
  destruct (failure stream) as [e|]; [rewrite He; reflexivity|].
  unfold groq_finish. rewrite He, Hf.
  destruct (tool_calls_buffer (fold_left groq_chunk (chunks stream) groq_start))
    as [|[k v] b].
  - cbn [dict_values map] in Hb. rewrite <- Hb. reflexivity.
  - cbv zeta. rewrite Hb.
    destruct (accumulated_calls R (chunks stream)) as [|first rest];
      [discriminate Hb|]. reflexivity.
Qed.

(** ** The Gemini loop *)

Lemma gemini_parts_exact (session_id call_id fresh : str)
    (parts : list ResponsePart) :
  forall st,
    gemini_parts session_id call_id fresh st parts
    = outcome session_id call_id fresh st (text_events (part_texts parts))
        (scan_parts parts).
Proof.
  induction parts as [|p rest IH]; intros st.
  - simpl. rewrite extend_nil. reflexivity.
  - cbn [gemini_parts scan_parts part_texts]. unfold gemini_part.
    destruct (function_call p) as [fc|].
    + unfold outcome. cbn [text_events map]. rewrite extend_nil.
      destruct (fc_args fc); reflexivity.
    + destruct (nonempty (text p)) as [t|].
      * rewrite extend_one, IH. cbn [text_events map].
        apply (outcome_extend _ _ _ st [Yield (EvText t)]).
      * apply IH.
Qed.

Lemma gemini_chunks_exact (session_id call_id fresh : str)
    (cs : list GeminiChunk) :
  forall st,
    gemini_chunks session_id call_id fresh st cs
    = outcome session_id call_id fresh st (text_events (texts_before_call cs))
        (scan_chunks cs).
Proof.
  induction cs as [|c rest IH]; intros st.
  - simpl. rewrite extend_nil. reflexivity.
  - cbn [gemini_chunks scan_chunks texts_before_call]. unfold gemini_chunk.
    destruct (candidates c) as [|[parts|] others].
    + apply IH.
    + rewrite gemini_parts_exact.
      destruct (scan_parts parts) as [|fc|] eqn:Hs.
      * cbn [outcome]. rewrite IH, text_events_app. apply outcome_extend.
      * rewrite app_nil_r. cbn [outcome]. destruct (fc_args fc); reflexivity.
      * rewrite app_nil_r. reflexivity.
    + cbn [outcome text_events map]. rewrite extend_nil. reflexivity.
Qed.

(** A Gemini turn, from what its stream delivers *)
Lemma gemini_turn_exact (R : Runtime) (session_id : str) (uuid : nat -> str)
    (stream : Stream GeminiChunk) :
  gemini_turn R session_id uuid stream
  = text_events (texts_before_call (chunks stream)) ++
    match scan_chunks (chunks stream) with
    | Call fc =>
        match fc_args fc with
        | Some a =>
            [Yield (EvToolApprovalRequest
                      {| tc_id := uuid 0%nat; tc_name := fc_name fc;
                         tc_args := a |});
             AddMessage session_id
               (stored_reply (lit "model") (uuid 1%nat)
                  (List.concat (texts_before_call (chunks stream)))
                  (Some [{| tc_id := uuid 0%nat; tc_name := fc_name fc;
                            tc_args := a |}]));
             Yield EvDone]
        | None => [Yield (EvError (str_exn R none_not_iterable))]
        end
    | Broken => [Yield (EvError (str_exn R none_not_iterable))]
    | NoCall =>
        match failure stream with
        | Some e => [Yield (EvError (str_exn R e))]
        | None =>
            (if truthy (List.concat (texts_before_call (chunks stream))) then
               [AddMessage session_id
                  (stored_reply (lit "model") (uuid 0%nat)
                     (List.concat (texts_before_call (chunks stream))) None)]
             else []) ++ [Yield EvDone]
        end
    end.
Proof.
  unfold gemini_turn. rewrite gemini_chunks_exact.
  destruct (scan_chunks (chunks stream)) as [|fc|]; cbn [outcome].
  - cbn [extend g_emitted g_final_text gemini_start app].
    rewrite relayed_text_events. destruct (failure stream); reflexivity.
  - destruct (fc_args fc).
    + unfold with_call, extend. cbn [g_emitted g_final_text gemini_start app].
      rewrite relayed_text_events. reflexivity.
    + reflexivity.
  - reflexivity.
Qed.





(** ** A streamed turn that produced a tool call *)

(** C2, as the code has it. On the Groq path a streamed turn whose stream
    ends without an exception and delivered a tool-call fragment relays
    the text deltas of the stream, then stores exactly one assistant turn
    that holds their text and the calls that the fragments add up to -
    one call per stream index, in the order in which the indices first
    appear, each with the last identifier and name and the concatenated
    argument text of its fragments, an argument text that [json.loads]
    rejects standing for no arguments -, then emits one
    [tool_approval_request] for the first of these calls, then the
    sentinel. On the Gemini path, once the tool declarations and the
    history are built, the turn ends at the first function-call part of
    the stream: when that call carries an argument mapping the path
    relays the text deltas before it, emits one [tool_approval_request]
    for it, stores one [model] turn whose tool-call list is that single
    call, and emits the sentinel; when it carries none the turn ends with
    an error event and nothing is stored. What the stream holds after
    that part is not read. *)
Theorem streamed_tool_call_turn (R : Runtime) (conns : registry)
    (session_id : str) (raw_history : list Message) (uuid : nat -> str) :
  (forall create,
     groq_async_client R = Some create ->
     groq_history R (fst (get_all_tools conns)) raw_history <> [] ->
     let stream :=
       create {| groq_messages :=
                   groq_history R (fst (get_all_tools conns)) raw_history;
                 groq_tools := fst (get_all_tools conns) |} in
     let run := stream_groq_response R conns session_id raw_history uuid in
     let texts := groq_deltas (chunks stream) in
     failure stream = None ->
     stream_fragments (chunks stream) <> [] ->
     exists first rest,
       accumulated_calls R (chunks stream) = first :: rest /\
       run = text_events texts ++
             [AddMessage session_id
                (stored_reply (lit "assistant") (uuid 0%nat) (List.concat texts)
                   (Some (first :: rest)));
              Yield (EvToolApprovalRequest first);
              Yield EvDone] /\
       persisted run =
         [(session_id,
           stored_reply (lit "assistant") (uuid 0%nat) (List.concat texts)
             (Some (first :: rest)))] /\
       events run = map EvText texts ++ [EvToolApprovalRequest first; EvDone]) /\
  (forall generate declarations history fc,
     gemini_client R = Some generate ->
     get_tools_for_gemini R (fst (get_all_tools conns)) = Ok declarations ->
     gemini_history R raw_history = Ok history ->
     history <> [] ->
     let stream :=
       generate {| contents := history;
                   config_tools := declarations;
                   system_instruction :=
                     gemini_system_instruction declarations |} in
     let run := stream_gemini_response R conns session_id raw_history uuid in
     let texts := texts_before_call (chunks stream) in
     scan_chunks (chunks stream) = Call fc ->
     match fc_args fc with
     | Some a =>
         let tool_data := {| tc_id := uuid 0%nat; tc_name := fc_name fc;
                             tc_args := a |} in
         run = text_events texts ++
               [Yield (EvToolApprovalRequest tool_data);
                AddMessage session_id
                  (stored_reply (lit "model") (uuid 1%nat) (List.concat texts)
                     (Some [tool_data]));
                Yield EvDone] /\
         persisted run =
           [(session_id,
             stored_reply (lit "model") (uuid 1%nat) (List.concat texts)
               (Some [tool_data]))] /\
         events run = map EvText texts ++
                      [EvToolApprovalRequest tool_data; EvDone]
     | None =>
         run = text_events texts ++
               [Yield (EvError (str_exn R none_not_iterable))] /\
         persisted run = []
     end).
Proof.
  split.
  - intros create Hc Hne stream run texts Hf Hfr.
    unfold run. rewrite (stream_groq_response_reaches _ _ _ _ _ _ Hc Hne).
    fold stream. rewrite groq_turn_exact, Hf. fold texts.
    destruct (accumulated_calls_some R (chunks stream) Hfr) as (first & rest & Ha).
    exists first, rest. rewrite Ha.
    split; [reflexivity|]. split; [reflexivity|]. split.
    + rewrite persisted_app, persisted_text_events. reflexivity.
    + rewrite events_app, events_text_events. reflexivity.
  - intros generate declarations history fc Hc Hd Hh Hne stream run texts Hscan.
    unfold run.
    rewrite (stream_gemini_response_reaches _ _ _ _ _ _ _ _ Hc Hd Hh Hne).
    fold stream. rewrite gemini_turn_exact, Hscan. fold texts.
    destruct (fc_args fc) as [a|].
    + cbv zeta. split; [reflexivity|]. split.
      * rewrite persisted_app, persisted_text_events. reflexivity.
      * rewrite events_app, events_text_events. reflexivity.
    + split; [reflexivity|].
      rewrite persisted_app, persisted_text_events. reflexivity.
Qed.

Lemma streamed_tool_call_turn_witness :
  events (stream_groq_response Demo.tool_providers [] (lit "s1") [Demo.hello]
            Demo.uuids)
  = [EvText (lit "Looking"); EvText (lit "tail");
     EvToolApprovalRequest {| tc_id := lit "call_b"; tc_name := lit "fetch";
                              tc_args := JObj [] |};
     EvDone] /\
  persisted (stream_gemini_response Demo.tool_providers [] (lit "s1")
               [Demo.hello] Demo.uuids)
  = [(lit "s1",
      stored_reply (lit "model") (lit "uuid-1") (lit "Looking")
        (Some [{| tc_id := lit "uuid-0"; tc_name := lit "search";
                  tc_args := JObj [] |}]))].
Proof.
  destruct (streamed_tool_call_turn Demo.tool_providers [] (lit "s1")
              [Demo.hello] Demo.uuids) as (G & M).
  split.
  - destruct (G (fun _ => Demo.two_fragmented_calls) eq_refl)
      as (first & rest & Ha & _ & _ & He);
      [discriminate|reflexivity|discriminate|].
    vm_compute in Ha. inversion Ha; subst first rest. exact He.
  - pose proof (M (fun _ => Demo.two_calls) []
                  [{| gc_role := lit "user"; gc_parts := [PText (lit "hello")] |}]
                  Demo.search_call eq_refl eq_refl eq_refl) as H.
    destruct H as (_ & Hp & _); [discriminate|reflexivity|exact Hp].
Defined.

(** The second fragment of a call may bring the name, and a later one a
    new identifier: the last of each is kept *)
Example accumulated_calls_keeps_last :
  accumulated_calls Demo.tool_providers
    [Demo.groq_calls [Demo.fragment 0 (Some (lit "a")) None None];
     Demo.groq_calls [Demo.fragment 0 None (Some (lit "search")) (Some (lit "{"))];
     Demo.groq_calls [Demo.fragment 0 (Some (lit "b")) (Some (lit "fetch"))
                        (Some (lit "}"))]]
  = [{| tc_id := lit "b"; tc_name := lit "fetch"; tc_args := JObj [] |}].
Proof. reflexivity. Qed.

Example gemini_call_without_arguments :
  gemini_turn Demo.tool_providers (lit "s1") Demo.uuids
    {| chunks := [{| candidates :=
                       [Some [Demo.text_part (lit "Looking");
                              Demo.call_part {| fc_name := lit "now";
                                                fc_args := None |}]] |}];
       failure := None |}
  = [Yield (EvText (lit "Looking"));
     Yield (EvError (lit "'NoneType' object is not iterable"))].
Proof. reflexivity. Qed.

(** ** The event sequences of the two provider paths *)



(** A catalog that the SDK refuses: the Gemini generator raises before
    its [try]; no line is yielded, no error event either *)
Example gemini_refused_catalog :
  stream_gemini_response Samples.strict_declarations Demo.conns (lit "s1")
    [Demo.hello] Demo.uuids
  = [Uncaught (ValueError (lit "1 validation error for Schema"))] /\
  shapes (stream_groq_response Samples.strict_declarations Demo.conns (lit "s1")
            [Demo.hello] Demo.uuids) = [SText; SDone].
Proof. split; reflexivity. Qed.

(** A stored call whose arguments are not a dict: the Gemini generator
    raises while it translates the history *)
Example gemini_refused_history :
  stream_gemini_response Demo.both_providers [] (lit "s1")
    [Demo.hello; Samples.list_args_turn] Demo.uuids
  = [Uncaught (ValueError (lit "1 validation error for FunctionCall"))].
Proof. reflexivity. Qed.

Example clean_schema_of_object :
  clean_schema
    (JObj [(lit "title", JStr (lit "Args"));
           (lit "properties",
            JObj [(lit "q", JObj [(lit "title", JStr (lit "Q"));
                                  (lit "type", JStr (lit "string"))]);
                  (lit "tags", JObj [(lit "items", JObj [])])])])
  = Ok (JObj [(lit "properties",
               JObj [(lit "q", JObj [(lit "type", JStr (lit "string"))]);
                     (lit "tags",
                      JObj [(lit "items", JObj [(lit "type", JStr (lit "string"))]);
                            (lit "type", JStr (lit "string"))])]);
              (lit "type", JStr (lit "object"))]).
Proof. reflexivity. Qed.

Example clean_schema_of_listed_properties :
  clean_schema (JObj [(lit "properties", JArr [])])
  = Raise (AttributeError (lit "'list' object has no attribute 'items'")).
Proof. reflexivity. Qed.

(** ** Turns that end without a tool call, and turns that fail *)

(** X17. A streamed turn that ends without an exception and without a
    tool call relays the text deltas of its stream, one event each and in
    order, then stores exactly one turn whose content is their
    concatenation - or nothing at all when that is empty - and then emits
    the sentinel; on both provider paths, under the role [assistant] on
    the Groq path and [model] on the Gemini path. *)
Theorem plain_turn_persists_text (R : Runtime) (conns : registry)
    (session_id : str) (raw_history : list Message) (uuid : nat -> str) :
  (forall create,
     groq_async_client R = Some create ->
     groq_history R (fst (get_all_tools conns)) raw_history <> [] ->
     let stream :=
       create {| groq_messages :=
                   groq_history R (fst (get_all_tools conns)) raw_history;
                 groq_tools := fst (get_all_tools conns) |} in
     let texts := groq_deltas (chunks stream) in
     failure stream = None ->
     stream_fragments (chunks stream) = [] ->
     stream_groq_response R conns session_id raw_history uuid
     = text_events texts ++
       (if truthy (List.concat texts) then
          [AddMessage session_id
             (stored_reply (lit "assistant") (uuid 0%nat) (List.concat texts) None)]
        else []) ++
       [Yield EvDone]) /\
  (forall generate declarations history,
     gemini_client R = Some generate ->
     get_tools_for_gemini R (fst (get_all_tools conns)) = Ok declarations ->
     gemini_history R raw_history = Ok history ->
     history <> [] ->
     let stream :=
       generate {| contents := history;
                   config_tools := declarations;
                   system_instruction :=
                     gemini_system_instruction declarations |} in
     let texts := texts_before_call (chunks stream) in
     failure stream = None ->
     scan_chunks (chunks stream) = NoCall ->
     stream_gemini_response R conns session_id raw_history uuid
     = text_events texts ++
       (if truthy (List.concat texts) then
          [AddMessage session_id
             (stored_reply (lit "model") (uuid 0%nat) (List.concat texts) None)]
        else []) ++
       [Yield EvDone]).
Proof.
  split.
  - intros create Hc Hne stream texts Hf Hfr.
    rewrite (stream_groq_response_reaches _ _ _ _ _ _ Hc Hne). fold stream.
    rewrite groq_turn_exact, Hf, (accumulated_calls_none R _ Hfr).
    reflexivity.
  - intros generate declarations history Hc Hd Hh Hne stream texts Hf Hscan.
    rewrite (stream_gemini_response_reaches _ _ _ _ _ _ _ _ Hc Hd Hh Hne).
    fold stream. rewrite gemini_turn_exact, Hscan, Hf. reflexivity.
Qed.

Lemma plain_turn_persists_text_witness :
  stream_groq_response Demo.both_providers [] (lit "s1") [Demo.hello] Demo.uuids
  = [Yield (EvText (lit "Hi"));
     AddMessage (lit "s1")
       (stored_reply (lit "assistant") (lit "uuid-0") (lit "Hi") None);
     Yield EvDone].
Proof.
  destruct (plain_turn_persists_text Demo.both_providers [] (lit "s1")
              [Demo.hello] Demo.uuids) as [G _].
  apply (G (fun _ => Demo.text_stream (Demo.groq_text (lit "Hi"))));
    try reflexivity. discriminate.
Defined.

(** X18. A streamed turn whose stream raises ends with one error event
    that carries the text of the exception; the text deltas delivered
    before it stay relayed, no sentinel follows, and no turn is stored.
    On the Gemini path, once the provider is reached, this is the case
    when the stream raises before any function call, and also when a
    candidate without parts or a function call without an argument
    mapping comes first. An exception of the tool declarations or of the
    history translation, which the Gemini path builds before its [try],
    ends the generator with that exception: no line is yielded, no error
    event either, and nothing is stored. *)
Theorem failed_stream_persists_nothing (R : Runtime) (conns : registry)
    (session_id : str) (raw_history : list Message) (uuid : nat -> str) :
  (forall create e,
     groq_async_client R = Some create ->
     groq_history R (fst (get_all_tools conns)) raw_history <> [] ->
     let stream :=
       create {| groq_messages :=
                   groq_history R (fst (get_all_tools conns)) raw_history;
                 groq_tools := fst (get_all_tools conns) |} in
     let run := stream_groq_response R conns session_id raw_history uuid in
     failure stream = Some e ->
     run = text_events (groq_deltas (chunks stream)) ++
           [Yield (EvError (str_exn R e))] /\
     persisted run = []) /\
  (forall generate declarations history,
     gemini_client R = Some generate ->
     get_tools_for_gemini R (fst (get_all_tools conns)) = Ok declarations ->
     gemini_history R raw_history = Ok history ->
     history <> [] ->
     let stream :=
       generate {| contents := history;
                   config_tools := declarations;
                   system_instruction :=
                     gemini_system_instruction declarations |} in
     let run := stream_gemini_response R conns session_id raw_history uuid in
     let texts := text_events (texts_before_call (chunks stream)) in
     match scan_chunks (chunks stream) with
     | NoCall =>
         forall e, failure stream = Some e ->
           run = texts ++ [Yield (EvError (str_exn R e))] /\ persisted run = []
     | Call fc =>
         fc_args fc = None ->
         run = texts ++ [Yield (EvError (str_exn R none_not_iterable))] /\
         persisted run = []
     | Broken =>
         run = texts ++ [Yield (EvError (str_exn R none_not_iterable))] /\
         persisted run = []
     end) /\
  (forall generate e,
     gemini_client R = Some generate ->
     get_tools_for_gemini R (fst (get_all_tools conns)) = Raise e \/
     (exists declarations,
        get_tools_for_gemini R (fst (get_all_tools conns)) = Ok declarations /\
        gemini_history R raw_history = Raise e) ->
     let run := stream_gemini_response R conns session_id raw_history uuid in
     run = [Uncaught e] /\ events run = [] /\ persisted run = []).
Proof.
  split; [|split].
  - intros create e Hc Hne stream run Hf. unfold run.
    rewrite (stream_groq_response_reaches _ _ _ _ _ _ Hc Hne). fold stream.
    rewrite groq_turn_exact, Hf. split; [reflexivity|].
    rewrite persisted_app, persisted_text_events. reflexivity.
  - intros generate declarations history Hc Hd Hh Hne stream run texts.
    unfold run, texts.
    rewrite (stream_gemini_response_reaches _ _ _ _ _ _ _ _ Hc Hd Hh Hne).
    fold stream. rewrite gemini_turn_exact.
    destruct (scan_chunks (chunks stream)) as [|fc|].
    + intros e Hf. rewrite Hf. split; [reflexivity|].
      rewrite persisted_app, persisted_text_events. reflexivity.
    + intros Ha. rewrite Ha. split; [reflexivity|].
      rewrite persisted_app, persisted_text_events. reflexivity.
    + split; [reflexivity|].
      rewrite persisted_app, persisted_text_events. reflexivity.
  - intros generate e Hc H run. unfold run, stream_gemini_response. rewrite Hc.
    destruct H as [H|(declarations & Hd & Hh)].
    + rewrite H. repeat split.
    + rewrite Hd, Hh. repeat split.
Qed.

Lemma failed_stream_persists_nothing_witness :
  stream_groq_response Samples.failing_providers [] (lit "s1") [Demo.hello]
    Demo.uuids
  = [Yield (EvText (lit "Partial")); Yield (EvError (lit "rate limit"))] /\
  persisted (stream_groq_response Samples.failing_providers [] (lit "s1")
               [Demo.hello] Demo.uuids) = [].
Proof.
  destruct (failed_stream_persists_nothing Samples.failing_providers []
              (lit "s1") [Demo.hello] Demo.uuids) as [G _].
  apply (G (fun _ => Samples.broken_groq_stream) (OtherError (lit "rate limit")));
    try reflexivity. discriminate.
Defined.

Example failed_gemini_stream :
  stream_gemini_response Samples.failing_providers [] (lit "s1") [Demo.hello]
    Demo.uuids
  = [Yield (EvText (lit "Partial")); Yield (EvError (lit "quota"))].
Proof. reflexivity. Qed.

(** ** Turns stored by one provider path, read by the other *)

Lemma function_call_parts_spec (R : Runtime) (calls : list ToolCall) :
  function_call_parts R calls
  = match first_refusal R calls with
    | Some e => Raise e
    | None => Ok (map (fun tc => PFunctionCall (tc_name tc) (tc_args tc)) calls)
    end.
Proof.
  induction calls as [|tc rest IH]; cbn [function_call_parts first_refusal map].
  - reflexivity.
  - destruct (part_from_function_call R (tc_name tc) (tc_args tc));
      [reflexivity|]. rewrite IH. destruct (first_refusal R rest); reflexivity.
Qed.

(** What the Gemini translation makes of a stored reply *)
Lemma gemini_translate_reply (R : Runtime) (s role fresh content : str)
    (calls : option (list ToolCall)) (default : str) (now : N) :
  (calls = None -> content <> []) ->
  calls <> Some [] ->
  gemini_translate R (stored_turn s (stored_reply role fresh content calls) default now)
  = match calls with
    | Some l =>
        match first_refusal R l with
        | Some e => Raise e
        | None =>
            Ok [{| gc_role := if str_eqb role (lit "model") then lit "model"
                              else lit "user";
                   gc_parts := map (fun tc => PFunctionCall (tc_name tc) (tc_args tc))
                                 l |}]
        end
    | None =>
        Ok [{| gc_role := if str_eqb role (lit "model") then lit "model"
                          else lit "user";
               gc_parts := [PText content] |}]
    end.
Proof.
  intros Hc Hl. unfold gemini_translate, gemini_parts_of, stored_turn. cbv zeta.
  destruct calls as [[|c l]|].
  - contradiction Hl. reflexivity.
  - cbn -[function_call_parts str_eqb first_refusal map].
    rewrite function_call_parts_spec.
    destruct (first_refusal R (c :: l)); reflexivity.
  - destruct content as [|x content]; [contradiction (Hc eq_refl); reflexivity|].
    reflexivity.
Qed.

Lemma groq_translate_reply (R : Runtime) (s role fresh content : str)
    (calls : option (list ToolCall)) (default : str) (now : N) :
  is_assistant_role role = true ->
  exists c tcs,
    groq_translate R (stored_turn s (stored_reply role fresh content calls) default now)
    = [GAssistant c tcs].
Proof.
  intros Hr. unfold groq_translate, stored_turn.
  cbn -[is_assistant_role]. rewrite Hr. eauto.
Qed.

(** X20. The two provider paths store their turns under different roles,
    and read them differently. A turn that the Groq path stored (role
    [assistant]) goes back to Groq as an assistant message, but the
    Gemini translation sends it under the role [user]: as one content
    that holds its function calls, or its text when it has no calls; a
    turn that the Gemini path stored (role [model]) is an assistant
    message for Groq and the same content under the role [model] for
    Gemini. The Gemini translation raises, instead, the exception of the
    first stored call that the SDK refuses. *)
Theorem stored_turns_across_providers (R : Runtime) (conns : registry)
    (session_id : str) (raw_history : list Message) (uuid : nat -> str)
    (default : str) (now : N) :
  (forall s m,
     In (s, m)
        (persisted (stream_groq_response R conns session_id raw_history uuid)) ->
     exists content calls,
       m = stored_reply (lit "assistant") (uuid 0%nat) content calls /\
       (exists c tcs,
          groq_translate R (stored_turn s m default now) = [GAssistant c tcs]) /\
       gemini_translate R (stored_turn s m default now)
       = match calls with
         | Some l =>
             match first_refusal R l with
             | Some e => Raise e
             | None =>
                 Ok [{| gc_role := lit "user";
                        gc_parts :=
                          map (fun tc => PFunctionCall (tc_name tc) (tc_args tc)) l |}]
             end
         | None => Ok [{| gc_role := lit "user"; gc_parts := [PText content] |}]
         end) /\
  (forall s m,
     In (s, m)
        (persisted (stream_gemini_response R conns session_id raw_history uuid)) ->
     exists fresh content calls,
       m = stored_reply (lit "model") fresh content calls /\
       (exists c tcs,
          groq_translate R (stored_turn s m default now) = [GAssistant c tcs]) /\
       gemini_translate R (stored_turn s m default now)
       = match calls with
         | Some l =>
             match first_refusal R l with
             | Some e => Raise e
             | None =>
                 Ok [{| gc_role := lit "model";
                        gc_parts :=
                          map (fun tc => PFunctionCall (tc_name tc) (tc_args tc)) l |}]
             end
         | None => Ok [{| gc_role := lit "model"; gc_parts := [PText content] |}]
         end).
Proof.
  split; intros s m Hin.
  - assert (H : exists content calls,
               m = stored_reply (lit "assistant") (uuid 0%nat) content calls /\
               (calls = None -> content <> []) /\ calls <> Some []).
    { revert Hin. unfold stream_groq_response.
      destruct (groq_async_client R) as [create|]; [|intros []].
      destruct (groq_history R (fst (get_all_tools conns)) raw_history);
        [intros []|].
      rewrite groq_turn_exact, persisted_app, persisted_text_events.
      destruct (failure _); [intros []|].
      destruct (accumulated_calls R _) as [|first rest].
      - destruct (truthy _) eqn:Ht; [|intros []].
        intros [H|[]]. inversion H. eexists _, None.
        split; [reflexivity|]. split; [|discriminate].
        intros _ Hz. rewrite Hz in Ht. discriminate Ht.
      - intros [H|[]]. inversion H. eexists _, (Some (first :: rest)).
        split; [reflexivity|]. split; discriminate. }
    destruct H as (content & calls & -> & Hc & Hl).
    exists content, calls. split; [reflexivity|]. split.
    + apply groq_translate_reply. reflexivity.
    + rewrite (gemini_translate_reply _ _ _ _ _ _ _ _ Hc Hl). reflexivity.
  - assert (H : exists fresh content calls,
               m = stored_reply (lit "model") fresh content calls /\
               (calls = None -> content <> []) /\ calls <> Some []).
    { revert Hin. unfold stream_gemini_response.
      destruct (gemini_client R) as [generate|]; [|intros []].
      destruct (get_tools_for_gemini R (fst (get_all_tools conns)));
        [|intros []].
      destruct (gemini_history R raw_history) as [[|c h]|]; try (intros []).
      rewrite gemini_turn_exact, persisted_app, persisted_text_events.
      destruct (scan_chunks _) as [|fc|].
      - destruct (failure _); [intros []|].
        destruct (truthy _) eqn:Ht; [|intros []].
        intros [H|[]]. inversion H. eexists _, _, None.
        split; [reflexivity|]. split; [|discriminate].
        intros _ Hz. rewrite Hz in Ht. discriminate Ht.
      - destruct (fc_args fc); [|intros []].
        intros [H|[]]. inversion H. eexists _, _, (Some [_]).
        split; [reflexivity|]. split; discriminate.
      - intros []. }
    destruct H as (fresh & content & calls & -> & Hc & Hl).
    exists fresh, content, calls. split; [reflexivity|]. split.
    + apply groq_translate_reply. reflexivity.
    + rewrite (gemini_translate_reply _ _ _ _ _ _ _ _ Hc Hl). reflexivity.
Qed.

Lemma stored_turns_across_providers_witness :
  exists content calls,
    stored_reply (lit "assistant") (lit "uuid-0") (lit "Hi") None
    = stored_reply (lit "assistant") (lit "uuid-0") content calls /\
    (exists c tcs,
       groq_translate Demo.both_providers
         (stored_turn (lit "s1")
            (stored_reply (lit "assistant") (lit "uuid-0") (lit "Hi") None)
            (lit "u9") 7) = [GAssistant c tcs]) /\
    gemini_translate Demo.both_providers
      (stored_turn (lit "s1")
         (stored_reply (lit "assistant") (lit "uuid-0") (lit "Hi") None)
         (lit "u9") 7)
    = match calls with
      | Some l =>
          match first_refusal Demo.both_providers l with
          | Some e => Raise e
          | None =>
              Ok [{| gc_role := lit "user";
                     gc_parts :=
                       map (fun tc => PFunctionCall (tc_name tc) (tc_args tc)) l |}]
          end
      | None => Ok [{| gc_role := lit "user"; gc_parts := [PText content] |}]
      end.
Proof.
  destruct (stored_turns_across_providers Demo.both_providers [] (lit "s1")
              [Demo.hello] Demo.uuids (lit "u9") 7) as [G _].
  apply (G (lit "s1")
           (stored_reply (lit "assistant") (lit "uuid-0") (lit "Hi") None)).
  vm_compute. left. reflexivity.
Defined.

Example groq_turn_read_by_gemini :
  gemini_translate Demo.both_providers
    (stored_turn (lit "s1")
       (stored_reply (lit "assistant") (lit "uuid-0") (lit "Hi") None)
       (lit "u9") 7)
  = Ok [{| gc_role := lit "user"; gc_parts := [PText (lit "Hi")] |}] /\
  gemini_translate Demo.both_providers Samples.list_args_turn
  = Raise (ValueError (lit "1 validation error for FunctionCall")).
Proof. split; reflexivity. Qed.
